(** * UTAU VST host: a shallow embedding of [vst_host/src/main.cpp] and
      [vst_host/src/gui_main.cpp]

    The offline renderer resolves a chain manifest into chain slots, loads one
    plugin instance per non-bypassed slot, optionally restores a preset into
    it, and streams the input file through the instances block by block.

    The program is written against JUCE.  What JUCE itself does (strings,
    variants, files, plugin formats, audio formats) is outside the two source
    files: string and variant operations are modelled from their documented
    behaviour; what depends on the platform, the disk, an audio codec or a
    plugin binary is a field of an interface record ([Platform], [FileAPI],
    [AudioAPI], [PluginAPI], [AudioPluginFormatManager]) over opaque types,
    in state-passing style.  Integers are in [Z] with the casts of the source
    written out. *)

From Stdlib Require Import ZArith List String Ascii Bool Lia DecimalString.
Import ListNotations.
Local Open Scope string_scope.
Local Open Scope list_scope.
Local Open Scope Z_scope.

(* ================================================================== *)
(** ** Machine integers *)

Module Int.

(** [static_cast<int>]: reduction to a signed 32-bit value. *)
Definition to_int (z : Z) : Z := (z + 2 ^ 31) mod 2 ^ 32 - 2 ^ 31.

(** [static_cast<unsigned int>]. *)
Definition to_uint (z : Z) : Z := z mod 2 ^ 32.

(** Conversion to [int64]; also the result of [int64] arithmetic. *)
Definition to_int64 (z : Z) : Z := (z + 2 ^ 63) mod 2 ^ 64 - 2 ^ 63.

Definition jmax (a b : Z) : Z := if a <? b then b else a.
Definition jmin (a b : Z) : Z := if b <? a then b else a.

Definition is_int (z : Z) : Prop := - 2 ^ 31 <= z < 2 ^ 31.
Definition is_uint (z : Z) : Prop := 0 <= z < 2 ^ 32.
Definition is_int64 (z : Z) : Prop := - 2 ^ 63 <= z < 2 ^ 63.

End Int.

(* ================================================================== *)
(** ** juce::String, as far as the host uses it *)

Module JString.

Definition isEmpty (s : string) : bool :=
  match s with EmptyString => true | String _ _ => false end.

Definition isNotEmpty (s : string) : bool := negb (isEmpty s).

(** [CharacterFunctions::isWhitespace]: a space, or one of the control
    characters 9 to 13. *)
Definition isWhitespace (c : ascii) : bool :=
  let n := nat_of_ascii c in
  (n =? 32)%nat || ((9 <=? n)%nat && (n <=? 13)%nat).

Definition isDigit (c : ascii) : bool :=
  let n := nat_of_ascii c in (48 <=? n)%nat && (n <=? 57)%nat.

Fixpoint findEndOfWhitespace (s : string) : string :=
  match s with
  | String c t => if isWhitespace c then findEndOfWhitespace t else s
  | EmptyString => s
  end.

(** The string without its trailing whitespace. *)
Fixpoint trimEnd (s : string) : string :=
  match s with
  | EmptyString => EmptyString
  | String c t =>
      match trimEnd t with
      | EmptyString => if isWhitespace c then EmptyString else String c EmptyString
      | t' => String c t'
      end
  end.

Definition trim (s : string) : string := trimEnd (findEndOfWhitespace s).

Definition startsWithChar (s : string) (c : ascii) : bool :=
  match s with String d _ => Ascii.eqb d c | EmptyString => false end.

Fixpoint endsWithChar (s : string) (c : ascii) : bool :=
  match s with
  | EmptyString => false
  | String d EmptyString => Ascii.eqb d c
  | String _ t => endsWithChar t c
  end.

(** [substring (start, end)]: the characters from index [start] up to, not
    including, index [end]. *)
Definition substring (start end_ : nat) (s : string) : string :=
  if (end_ <=? start)%nat then EmptyString
  else String.substring start (end_ - start) s.

(** [substring (start)]: everything from index [start] on. *)
Definition substringFrom (start : nat) (s : string) : string :=
  String.substring start (String.length s - start) s.

Definition toLowerChar (c : ascii) : ascii :=
  let n := nat_of_ascii c in
  if (65 <=? n)%nat && (n <=? 90)%nat then ascii_of_nat (n + 32) else c.

Fixpoint toLowerCase (s : string) : string :=
  match s with
  | EmptyString => EmptyString
  | String c t => String (toLowerChar c) (toLowerCase t)
  end.

Definition equalsIgnoreCase (a b : string) : bool :=
  String.eqb (toLowerCase a) (toLowerCase b).

(** The digit loop of [String::getIntValue].  On the UTF-8 strings of JUCE
    the call ends in the C library's [atoi]; a value outside the range of
    [int] is left open by C, and the model lets it wrap as a 32-bit
    accumulation does.  The theorems below use only that the result is an
    [int]. *)
Fixpoint readDigits (s : string) (v : Z) : Z :=
  match s with
  | String c t =>
      if isDigit c
      then readDigits t (Int.to_uint (v * 10 + (Z.of_nat (nat_of_ascii c) - 48)))
      else v
  | EmptyString => v
  end.

(** [getIntValue]: leading whitespace is skipped, one sign ([-] or [+]) is
    accepted, digits are read up to the first other character. *)
Definition getIntValue (s : string) : Z :=
  match findEndOfWhitespace s with
  | String "-"%char t => Int.to_int (- Int.to_int (readDigits t 0))
  | String "+"%char t => Int.to_int (readDigits t 0)
  | s' => Int.to_int (readDigits s' 0)
  end.

(** [String (int)]: decimal text of an integer. *)
Definition ofInt (z : Z) : string := NilZero.string_of_int (Z.to_int z).

End JString.

(* ================================================================== *)
(** ** Command line of the offline renderer ([main.cpp]) *)

Record Args := mkArgs {
  input : string;
  output : string;
  chain : string;
  blockSize : Z
}.

(** The member initialisers of [struct Args]. *)
Definition defaultArgs : Args :=
  {| input := ""; output := ""; chain := ""; blockSize := 512 |}.

Definition usageText : string :=
  ("UTAU VST Host" ++ String (ascii_of_nat 10) "" ++
   "Usage: utau_vst_host --input <file> --output <file> --chain <json> [--block <size>]"
   ++ String (ascii_of_nat 10) "")%string.

Definition set_input (v : string) (a : Args) : Args :=
  {| input := v; output := output a; chain := chain a; blockSize := blockSize a |}.
Definition set_output (v : string) (a : Args) : Args :=
  {| input := input a; output := v; chain := chain a; blockSize := blockSize a |}.
Definition set_chain (v : string) (a : Args) : Args :=
  {| input := input a; output := output a; chain := v; blockSize := blockSize a |}.
Definition set_blockSize (v : Z) (a : Args) : Args :=
  {| input := input a; output := output a; chain := chain a; blockSize := v |}.

(** What the loop of [parseArgs] does from index [i] on, [rest] being
    [argv[i..]].  An option that is the last word has no value
    ([i + 1 < argv.size()] fails) and is skipped like any unknown word.
    The result is the return value, the arguments, and what was printed on
    standard output. *)
Fixpoint parseArgsFrom (rest : list string) (args : Args)
  : bool * Args * list string :=
  match rest with
  | [] =>
      (JString.isNotEmpty (input args) && JString.isNotEmpty (output args)
         && JString.isNotEmpty (chain args), args, [])
  | arg :: tl =>
      if String.eqb arg "--help" || String.eqb arg "-h" then (false, args, [usageText])
      else
        match tl with
        | v :: tl' =>
            if String.eqb arg "--input" then parseArgsFrom tl' (set_input v args)
            else if String.eqb arg "--output" then parseArgsFrom tl' (set_output v args)
            else if String.eqb arg "--chain" then parseArgsFrom tl' (set_chain v args)
            else if String.eqb arg "--block" then
              parseArgsFrom tl'
                (set_blockSize (Int.jmax 64 (JString.getIntValue v)) args)
            else parseArgsFrom tl args
        | [] => parseArgsFrom tl args
        end
  end.

(** [parseArgs]: the loop starts at index 1, after the program name. *)
Definition parseArgs (argv : list string) (args : Args)
  : bool * Args * list string :=
  parseArgsFrom (tl argv) args.

(* ================================================================== *)
(** ** Command line of the interactive host ([gui_main.cpp]) *)

Module Gui.

Record GuiArgs := mkGuiArgs {
  pluginPath : string;
  presetPath : string;
  savePath : string;
  blockSize : Z
  }.

Definition defaultArgs : GuiArgs :=
  {| pluginPath := ""; presetPath := ""; savePath := ""; blockSize := 512 |}.

Definition set_blockSize (v : Z) (a : GuiArgs) : GuiArgs :=
  {| pluginPath := pluginPath a; presetPath := presetPath a;
     savePath := savePath a; blockSize := v |}.

(** The loop of the interactive host's [parseArgs]; it starts at index 0. *)
Fixpoint parseArgs (args : list string) (out : GuiArgs) : bool * GuiArgs :=
  match args with
  | [] => (JString.isNotEmpty (pluginPath out), out)
  | arg :: tl =>
      match tl with
      | v :: tl' =>
          if String.eqb arg "--plugin" then
            parseArgs tl' {| pluginPath := v; presetPath := presetPath out;
                             savePath := savePath out; blockSize := blockSize out |}
          else if String.eqb arg "--preset" then
            parseArgs tl' {| pluginPath := pluginPath out; presetPath := v;
                             savePath := savePath out; blockSize := blockSize out |}
          else if String.eqb arg "--save" then
            parseArgs tl' {| pluginPath := pluginPath out; presetPath := presetPath out;
                             savePath := v; blockSize := blockSize out |}
          else if String.eqb arg "--block" then
            parseArgs tl' (set_blockSize (Int.jmax 64 (JString.getIntValue v)) out)
          else parseArgs tl out
      | [] => parseArgs tl out
      end
  end.

End Gui.

(* ================================================================== *)
(** ** juce::var, the parsed manifest *)

(** The variants [JSON::parse] can produce.  A double is kept as the text
    [toString()] prints for it and whether it differs from zero. *)
#[warnings="-register-all"]
Inductive var : Type :=
| VVoid
| VBool (b : bool)
| VInt (n : Z)
| VDouble (text : string) (nonzero : bool)
| VString (s : string)
| VArray (items : list var)
| VObject (props : list (string * var)).

Module Var.

Definition isVoid (v : var) : bool :=
  match v with VVoid => true | _ => false end.

(** An array is a reference-counted object too, so [isObject()] holds for
    it; it has no [DynamicObject], which is why the source checks both. *)
Definition isObject (v : var) : bool :=
  match v with VObject _ | VArray _ => true | _ => false end.

Definition isArray (v : var) : bool :=
  match v with VArray _ => true | _ => false end.

Definition getArray (v : var) : option (list var) :=
  match v with VArray items => Some items | _ => None end.

Definition getDynamicObject (v : var) : option (list (string * var)) :=
  match v with VObject props => Some props | _ => None end.

(** [NamedValueSet] lookup. *)
Fixpoint find (name : string) (props : list (string * var)) : option var :=
  match props with
  | [] => None
  | (k, v) :: rest => if String.eqb k name then Some v else find name rest
  end.

(** [DynamicObject::getProperty]: a missing property reads as void. *)
Definition objectProperty (props : list (string * var)) (name : string) : var :=
  match find name props with Some v => v | None => VVoid end.

(** [var::getProperty (name, defaultReturnValue)]. *)
Definition getProperty (v : var) (name : string) (dflt : var) : var :=
  match getDynamicObject v with
  | Some props => match find name props with Some x => x | None => dflt end
  | None => dflt
  end.

(** [var::toString].  [objectText] is the text of an object, which shows
    its address. *)
Definition toString (objectText : list (string * var) -> string) (v : var) : string :=
  match v with
  | VVoid => ""
  | VBool b => if b then "1" else "0"
  | VInt n => JString.ofInt n
  | VDouble text _ => text
  | VString s => s
  | VArray _ => "[Array]"
  | VObject props => objectText props
  end.

(** [var::operator bool]. *)
Definition toBool (v : var) : bool :=
  match v with
  | VVoid => false
  | VBool b => b
  | VInt n => negb (n =? 0)
  | VDouble _ nonzero => nonzero
  | VString s =>
      negb (JString.getIntValue s =? 0)
      || JString.equalsIgnoreCase (JString.trim s) "true"
      || JString.equalsIgnoreCase (JString.trim s) "yes"
  | VArray _ => true
  | VObject _ => true
  end.

End Var.

(* ================================================================== *)
(** ** Files and chain slots *)

(** A [juce::File] is its full path. *)
Record File := mkFile { getFullPathName : string }.

(** What of [juce::File] depends on the platform.  [parseAbsolutePath cwd p]
    is the path the constructor [File (p)] stores when the process works in
    directory [cwd]. *)
Record Platform := mkPlatform {
  isAbsolutePath : string -> bool;
  parseAbsolutePath : File -> string -> string;
  getChildFile : File -> string -> File;
  getParentDirectory : File -> File;
  getFileExtension : File -> string
}.

Record ChainSlot := mkChainSlot {
  pluginPath : string;
  presetPath : string;
  bypass : bool
}.

Definition newline : string := String (ascii_of_nat 10) "".
Definition dquote : ascii := ascii_of_nat 34.
Definition squote : ascii := ascii_of_nat 39.

(** The condition of the quote-stripping statements of [resolvePath]. *)
Definition wrappedIn (q : ascii) (cleaned : string) : bool :=
  (2 <=? String.length cleaned)%nat
  && (JString.startsWithChar cleaned q && JString.endsWithChar cleaned q).

Section Paths.

Variable P : Platform.
Variable cwd : File.

(** The constructor [File (path)]. *)
Definition fileOf (path : string) : File :=
  mkFile (parseAbsolutePath P cwd path).

(** One of the two quote-stripping statements of [resolvePath]. *)
Definition unquote (q : ascii) (cleaned : string) : string :=
  if wrappedIn q cleaned
  then JString.trim (JString.substring 1 (String.length cleaned - 1) cleaned)
  else cleaned.

(** The value of [cleaned] when [resolvePath] reaches its path test. *)
Definition cleanPath (path : string) : string :=
  unquote squote (unquote dquote (JString.trim path)).

Definition resolvePath (baseDir : File) (path : string) : string :=
  let cleaned := cleanPath path in
  if isAbsolutePath P cleaned
  then getFullPathName (fileOf cleaned)
  else getFullPathName (getChildFile P baseDir cleaned).

End Paths.

(** [quoted q s]: the text [s] between two quote characters [q]. *)
Definition quoted (q : ascii) (s : string) : string :=
  String q (s ++ String q "")%string.

(* ================================================================== *)
(** ** The host: what JUCE, the disk and the plugins provide *)

Section Host.

(** Opaque types of the collaborators: a live plugin instance with its
    state, audio and event buffers, a sample rate (a double), a channel
    set, a plugin description, an audio format, an output stream, an audio
    writer, the decoded content behind a reader, and the disk. *)
Context {Instance Buffer MidiBuffer SampleRate AudioChannelSet
  PluginDescription AudioFormat OutStream Writer Samples Disk : Type}.

Record BusesLayout := mkBusesLayout {
  inputBuses : list AudioChannelSet;
  outputBuses : list AudioChannelSet
}.

(** The interface [AudioPluginInstance], in state-passing style: a method
    that mutates the instance returns the new instance. *)
Record PluginAPI := mkPluginAPI {
  setNonRealtime : bool -> Instance -> Instance;
  getBusesLayout : Instance -> BusesLayout;
  setBusesLayout : BusesLayout -> Instance -> Instance;
  prepareToPlay : SampleRate -> Z -> Instance -> Instance;
  reset : Instance -> Instance;
  setStateInformation : list Byte.byte -> Z -> Instance -> Instance;
  processBlock : Instance -> Buffer -> MidiBuffer -> Instance * Buffer * MidiBuffer;
  canonicalChannelSet : Z -> AudioChannelSet
}.

(** One plugin format backend. *)
Record AudioPluginFormat := mkAudioPluginFormat {
  fileMightContainThisPluginType : string -> bool;
  findAllTypesForFile : string -> list PluginDescription
}.

(** [createPluginInstance desc rate blockSize error] gives the instance, if
    any, and the new content of the error message. *)
Record AudioPluginFormatManager := mkAudioPluginFormatManager {
  getFormats : list AudioPluginFormat;
  createPluginInstance :
    PluginDescription -> SampleRate -> Z -> string -> option Instance * string
}.

Record AudioFormatReader := mkAudioFormatReader {
  sampleRate : SampleRate;
  bitsPerSample : Z;
  lengthInSamples : Z;
  numChannels : Z;
  samples : Samples
}.

(** The disk, and the JSON parser that reads the manifest from it. *)
Record FileAPI := mkFileAPI {
  existsAsFile : Disk -> File -> bool;
  loadFileAsString : Disk -> File -> string;
  loadFileAsData : Disk -> File -> option (list Byte.byte);
  createDirectory : Disk -> File -> Disk;
  createOutputStream : Disk -> File -> option OutStream;
  JSON_parse : string -> var;
  objectText : list (string * var) -> string
}.

(** [AudioFormatManager] after [registerBasicFormats], buffers, reader and
    writer. *)
Record AudioAPI := mkAudioAPI {
  createReaderFor : Disk -> File -> option AudioFormatReader;
  findFormatForFileExtension : string -> option AudioFormat;
  createWriterFor :
    AudioFormat -> OutStream -> SampleRate -> Z -> Z -> list (string * string) -> Z
    -> option Writer;
  newBuffer : Z -> Z -> Buffer;
  clearBuffer : Buffer -> Buffer;
  readSamples : AudioFormatReader -> Buffer -> Z -> Z -> Z -> bool -> bool -> Buffer;
  newMidi : MidiBuffer;
  clearMidi : MidiBuffer -> MidiBuffer;
  writeFromAudioSampleBuffer : Writer -> Buffer -> Z -> Z -> Writer
}.

Variable P : Platform.
Variable cwd : File.
Variable F : FileAPI.
Variable A : AudioAPI.

(* ------------------------------------------------------------------ *)
(** *** loadChain *)

(** The slot built from one manifest object, before the test on its plugin
    path. *)
Definition slotOf (baseDir : File) (obj : list (string * var)) : ChainSlot :=
  let rawPlugin := Var.toString (objectText F) (Var.objectProperty obj "path") in
  let rawPreset := Var.toString (objectText F) (Var.objectProperty obj "preset") in
  {| pluginPath :=
       if JString.isNotEmpty rawPlugin then resolvePath P cwd baseDir rawPlugin else "";
     presetPath :=
       if JString.isNotEmpty rawPreset then resolvePath P cwd baseDir rawPreset else "";
     bypass := Var.toBool (Var.objectProperty obj "bypass") |}.

(** The loop of [loadChain] over the entries of the plugins array. *)
Fixpoint addSlots (baseDir : File) (entries : list var) (slots : list ChainSlot)
  : list ChainSlot :=
  match entries with
  | [] => slots
  | entry :: rest =>
      if negb (Var.isObject entry) then addSlots baseDir rest slots
      else
        match Var.getDynamicObject entry with
        | None => addSlots baseDir rest slots
        | Some obj =>
            let slot := slotOf baseDir obj in
            if JString.isNotEmpty (pluginPath slot)
            then addSlots baseDir rest (slots ++ [slot])
            else addSlots baseDir rest slots
        end
  end.

(** [loadChain] from the parsed manifest on: the return value, the slots and
    the error message. *)
Definition loadChainData (baseDir : File) (data : var)
    (slots : list ChainSlot) (error : string) : bool * list ChainSlot * string :=
  if Var.isVoid data || negb (Var.isObject data)
  then (false, slots, "Chain JSON is invalid.")
  else
    let pluginsVar := Var.getProperty data "plugins" VVoid in
    if negb (Var.isArray pluginsVar)
    then (false, slots, "Chain JSON missing 'plugins' array.")
    else
      match Var.getArray pluginsVar with
      | None => (false, slots, "Chain JSON has no plugins.")
      | Some [] => (false, slots, "Chain JSON has no plugins.")
      | Some plugins =>
          let slots' := addSlots baseDir plugins slots in
          match slots' with
          | [] => (false, slots', "Chain JSON has no valid plugin paths.")
          | _ => (true, slots', error)
          end
      end.

Definition loadChain (disk : Disk) (chainFile : File)
    (slots : list ChainSlot) (error : string) : bool * list ChainSlot * string :=
  let jsonText := loadFileAsString F disk chainFile in
  let data := JSON_parse F jsonText in
  loadChainData (getParentDirectory P chainFile) data slots error.

(* ------------------------------------------------------------------ *)
(** *** loadPlugin and applyPreset *)

Variable I : PluginAPI.

(** The types found in a file: every backend that might contain the file
    adds what it finds. *)
Fixpoint findTypes (formats : list AudioPluginFormat) (path : string)
    (types : list PluginDescription) : list PluginDescription :=
  match formats with
  | [] => types
  | format :: rest =>
      if negb (fileMightContainThisPluginType format path)
      then findTypes rest path types
      else findTypes rest path (types ++ findAllTypesForFile format path)
  end.

(** Assignment to element 0 of a bus list, done when it has one. *)
Definition setFirstBus (set : AudioChannelSet) (buses : list AudioChannelSet)
  : list AudioChannelSet :=
  match buses with
  | [] => []
  | _ :: rest => set :: rest
  end.

(** What [loadPlugin] does with a created instance. *)
Definition configure (rate : SampleRate) (blockSize numChannels : Z)
    (instance : Instance) : Instance :=
  let instance := setNonRealtime I true instance in
  let layout := getBusesLayout I instance in
  let layout :=
    {| inputBuses := setFirstBus (canonicalChannelSet I numChannels) (inputBuses layout);
       outputBuses := setFirstBus (canonicalChannelSet I numChannels) (outputBuses layout) |} in
  let instance := setBusesLayout I layout instance in
  let instance := prepareToPlay I rate blockSize instance in
  reset I instance.

Definition loadPlugin (file : File) (formatManager : AudioPluginFormatManager)
    (rate : SampleRate) (blockSize numChannels : Z) (error : string)
  : option Instance * string :=
  let types := findTypes (getFormats formatManager) (getFullPathName file) [] in
  match types with
  | [] => (None, ("No plugin types found for " ++ getFullPathName file)%string)
  | desc :: _ =>
      match createPluginInstance formatManager desc rate blockSize error with
      | (None, error') => (None, error')
      | (Some instance, error') =>
          (Some (configure rate blockSize numChannels instance), error')
      end
  end.

(** [applyPreset]: the return value and the instance afterwards.  The size
    handed to the plugin is the block's size converted to [int]. *)
Definition applyPreset (disk : Disk) (instance : Instance) (presetPath : string)
  : bool * Instance :=
  if JString.isEmpty presetPath then (true, instance)
  else
    let presetFile := fileOf P cwd presetPath in
    if negb (existsAsFile F disk presetFile) then (false, instance)
    else
      match loadFileAsData F disk presetFile with
      | None => (false, instance)
      | Some data =>
          (true,
           setStateInformation I data (Int.to_int (Z.of_nat (List.length data))) instance)
      end.

(* ------------------------------------------------------------------ *)
(** *** main: loading the chain's instances *)

Variable pluginFormats : AudioPluginFormatManager.

Definition loadFailure (pluginFile : File) (pluginError : string) : list string :=
  ("Failed to load plugin: " ++ getFullPathName pluginFile ++ newline)%string
  :: (if JString.isNotEmpty pluginError
      then [(pluginError ++ newline)%string] else []).

Definition presetWarning (presetPath : string) : string :=
  ("Warning: failed to apply preset " ++ presetPath ++ newline)%string.

(** The loop of [main] over the slots.  [inl] is the early return with exit
    code 5, [inr] the instances in the order they were added; both carry what
    was written to standard error. *)
Fixpoint loadInstances (disk : Disk) (reader : AudioFormatReader) (args : Args)
    (slots : list ChainSlot) (instances : list Instance) (cerr : list string)
  : list string + list Instance * list string :=
  match slots with
  | [] => inr (instances, cerr)
  | slot :: rest =>
      if bypass slot then loadInstances disk reader args rest instances cerr
      else
        let pluginFile := fileOf P cwd (pluginPath slot) in
        match loadPlugin pluginFile pluginFormats (sampleRate reader)
                (blockSize args) (Int.to_int (numChannels reader)) "" with
        | (None, pluginError) => inl (cerr ++ loadFailure pluginFile pluginError)
        | (Some instance, _) =>
            if JString.isNotEmpty (presetPath slot) then
              match applyPreset disk instance (presetPath slot) with
              | (true, instance') =>
                  loadInstances disk reader args rest (instances ++ [instance']) cerr
              | (false, instance') =>
                  loadInstances disk reader args rest (instances ++ [instance'])
                    (cerr ++ [presetWarning (presetPath slot)])
              end
            else loadInstances disk reader args rest (instances ++ [instance]) cerr
        end
  end.

(* ------------------------------------------------------------------ *)
(** *** main: the output writer *)

(** The extension the format is looked up with. *)
Definition outputExtension (outputFile : File) : string :=
  let ext := JString.toLowerCase (getFileExtension P outputFile) in
  if JString.startsWithChar ext "."%char then JString.substringFrom 1 ext else ext.

(** The value of [outputFormat] after the lookup and its fallback. *)
Definition findOutputFormat (outputFile : File) : option AudioFormat :=
  match findFormatForFileExtension A (outputExtension outputFile) with
  | Some format => Some format
  | None => findFormatForFileExtension A "wav"
  end.

(** From the creation of the output directory to the writer: either the exit
    code and the message, or the writer. *)
Definition openWriter (disk : Disk) (reader : AudioFormatReader) (outputFile : File)
  : Z * string + Writer :=
  let numChannels := Int.to_int (numChannels reader) in
  let disk := createDirectory F disk (getParentDirectory P outputFile) in
  match createOutputStream F disk outputFile with
  | None => inl (6, ("Failed to create output file." ++ newline)%string)
  | Some outStream =>
      match findOutputFormat outputFile with
      | None => inl (6, ("No audio writer available for output file." ++ newline)%string)
      | Some outputFormat =>
          match createWriterFor A outputFormat outStream (sampleRate reader)
                  (Int.to_uint numChannels) 16 [] 0 with
          | None => inl (6, ("Failed to create output writer." ++ newline)%string)
          | Some writer => inr writer
          end
      end
  end.

(* ------------------------------------------------------------------ *)
(** *** main: the render loop *)

(** The inner loop: the buffer goes through the instances from the first
    to the last, each one changing it in place. *)
Fixpoint runChain (instances : list Instance) (buffer : Buffer) (midi : MidiBuffer)
  : list Instance * Buffer * MidiBuffer :=
  match instances with
  | [] => ([], buffer, midi)
  | instance :: rest =>
      let '(instance', buffer', midi') := processBlock I instance buffer midi in
      let '(rest', buffer'', midi'') := runChain rest buffer' midi' in
      (instance' :: rest', buffer'', midi'')
  end.

Record RenderState := mkRenderState {
  position : Z;
  buffer : Buffer;
  midi : MidiBuffer;
  instances : list Instance;
  writer : Writer
}.

(** The value of [block] at a position. *)
Definition blockAt (blockSize totalSamples position : Z) : Z :=
  Int.to_int (Int.jmin (Int.to_int64 blockSize) (Int.to_int64 (totalSamples - position))).

(** One segment of [block] frames read at [pos]: clear, read, run the chain,
    write, advance. *)
Definition renderSegment (reader : AudioFormatReader) (pos block : Z)
    (st : RenderState) : RenderState :=
  let buffer1 := readSamples A reader (clearBuffer A (buffer st)) 0 block pos true true in
  let '(instances', buffer2, midi') :=
    runChain (instances st) buffer1 (clearMidi A (midi st)) in
  {| position := Int.to_int64 (pos + block);
     buffer := buffer2;
     midi := midi';
     instances := instances';
     writer := writeFromAudioSampleBuffer A (writer st) buffer2 0 block |}.

(** The body of the while loop. *)
Definition renderStep (reader : AudioFormatReader) (blockSize totalSamples : Z)
    (st : RenderState) : RenderState :=
  renderSegment reader (position st)
    (blockAt blockSize totalSamples (position st)) st.

(** The while loop; [None] when [fuel] iterations were not enough. *)
Fixpoint renderLoop (fuel : nat) (reader : AudioFormatReader)
    (blockSize totalSamples : Z) (st : RenderState) : option RenderState :=
  if position st <? totalSamples then
    match fuel with
    | O => None
    | S fuel' =>
        renderLoop fuel' reader blockSize totalSamples
          (renderStep reader blockSize totalSamples st)
    end
  else Some st.

(** The state in which the loop is entered. *)
Definition renderStart (reader : AudioFormatReader) (args : Args)
    (chainInstances : list Instance) (w : Writer) : RenderState :=
  {| position := 0;
     buffer := newBuffer A (Int.to_int (numChannels reader)) (blockSize args);
     midi := newMidi A;
     instances := chainInstances;
     writer := w |}.

(* ------------------------------------------------------------------ *)
(** *** main *)

(** How a run ends: the exit code, both console streams, and the state the
    render loop ended in when it was reached.  [Diverges] is a run whose
    render loop needs more than [fuel] iterations. *)
Record Outcome := mkOutcome {
  exitCode : Z;
  cout : list string;
  cerr : list string;
  final : option RenderState
}.

Inductive Run : Type :=
| Exits (o : Outcome)
| Diverges.

Definition main (fuel : nat) (disk : Disk) (argv : list string) : Run :=
  let '(ok, args, out) := parseArgs argv defaultArgs in
  if negb ok then Exits (mkOutcome 1 (out ++ [usageText]) [] None)
  else
    let inputFile := fileOf P cwd (input args) in
    let outputFile := fileOf P cwd (output args) in
    let chainFile := fileOf P cwd (chain args) in
    if negb (existsAsFile F disk inputFile) then
      Exits (mkOutcome 2 out
        [("Input file not found: " ++ getFullPathName inputFile ++ newline)%string] None)
    else if negb (existsAsFile F disk chainFile) then
      Exits (mkOutcome 2 out
        [("Chain file not found: " ++ getFullPathName chainFile ++ newline)%string] None)
    else
      match createReaderFor A disk inputFile with
      | None =>
          Exits (mkOutcome 3 out [("Failed to read input file." ++ newline)%string] None)
      | Some reader =>
          match loadChain disk chainFile [] "" with
          | (false, _, error) =>
              Exits (mkOutcome 4 out [(error ++ newline)%string] None)
          | (true, slots, _) =>
              match loadInstances disk reader args slots [] [] with
              | inl err => Exits (mkOutcome 5 out err None)
              | inr (chainInstances, warnings) =>
                  match openWriter disk reader outputFile with
                  | inl (code, message) =>
                      Exits (mkOutcome code out (warnings ++ [message]) None)
                  | inr w =>
                      match renderLoop fuel reader (blockSize args)
                              (lengthInSamples reader)
                              (renderStart reader args chainInstances w) with
                      | None => Diverges
                      | Some st => Exits (mkOutcome 0 out warnings (Some st))
                      end
                  end
              end
          end
      end.

End Host.

Arguments BusesLayout : clear implicits.
Arguments PluginAPI : clear implicits.
Arguments AudioPluginFormat : clear implicits.
Arguments AudioPluginFormatManager : clear implicits.
Arguments AudioFormatReader : clear implicits.
Arguments FileAPI : clear implicits.
Arguments AudioAPI : clear implicits.
Arguments RenderState : clear implicits.
Arguments Outcome : clear implicits.
Arguments Run : clear implicits.

(* ================================================================== *)
(** ** A small concrete host

    A POSIX-like platform, a disk with three manifests and one preset, one
    plugin format, and plugins that append their name to the block they
    process, so that a written block shows which plugins it went through and
    in which order. *)

Module Demo.

Record Plugin := mkPlugin {
  name : string;
  state : list Byte.byte;
  stateSize : Z;
  channels : Z;
  prepared : bool
}.

Definition Block := list string.

Record WavWriter := mkWavWriter {
  format : string;
  rate : Z;
  channelCount : Z;
  bits : Z;
  blocks : list (Block * Z)
}.

Definition DiskImage := list (string * list Byte.byte).

(** The part of a path before its last slash. *)
Fixpoint dirname (s : string) : option string :=
  match s with
  | EmptyString => None
  | String c t =>
      match dirname t with
      | Some d => Some (String c d)
      | None => if Ascii.eqb c "/" then Some EmptyString else None
      end
  end.

(** The part of a path from its last dot on. *)
Fixpoint extension (s : string) : option string :=
  match s with
  | EmptyString => None
  | String c t =>
      match extension t with
      | Some e => Some e
      | None => if Ascii.eqb c "." then Some s else None
      end
  end.

Definition absolute (s : string) : bool := JString.startsWithChar s "/".

Definition join (dir : File) (rel : string) : string :=
  if absolute rel then rel else (getFullPathName dir ++ "/" ++ rel)%string.

Definition platform : Platform :=
  {| isAbsolutePath := absolute;
     parseAbsolutePath := join;
     getChildFile := fun base rel => mkFile (join base rel);
     getParentDirectory := fun f =>
       mkFile (match dirname (getFullPathName f) with Some d => d | None => "" end);
     getFileExtension := fun f =>
       match extension (getFullPathName f) with Some e => e | None => "" end |}.

Definition cwd : File := mkFile "/work".

Fixpoint lookup (path : string) (disk : DiskImage) : option (list Byte.byte) :=
  match disk with
  | [] => None
  | (p, content) :: rest => if String.eqb p path then Some content else lookup path rest
  end.

Definition entry (path : string) (more : list (string * var)) : var :=
  VObject (("path", VString path) :: more).

(** gain, a bypassed mute, an eq whose preset is absent, a reverb whose
    preset is on the disk. *)
Definition manifestA : var :=
  VObject [("plugins", VArray
    [ entry "gain.vst3" [];
      entry "mute.vst3" [("bypass", VBool true)];
      entry "eq.vst3" [("preset", VString "missing.fxp")];
      entry "reverb.vst3" [("preset", VString "warm.fxp")] ])].

(** Every slot bypassed. *)
Definition manifestB : var :=
  VObject [("plugins", VArray [ entry "gain.vst3" [("bypass", VBool true)] ])].

(** An empty plugin list. *)
Definition manifestC : var := VObject [("plugins", VArray [])].

(** A plugin that cannot be loaded. *)
Definition manifestD : var :=
  VObject [("plugins", VArray [ entry "gain.vst3" []; entry "notes.txt" [] ])].

Definition parse (text : string) : var :=
  if String.eqb text "A" then manifestA
  else if String.eqb text "B" then manifestB
  else if String.eqb text "C" then manifestC
  else if String.eqb text "D" then manifestD
  else VVoid.

Definition warm : list Byte.byte := [Byte.x01; Byte.x02; Byte.x03].

Definition disk : DiskImage :=
  [ ("/in/voice.wav", []);
    ("/chains/a.json", list_byte_of_string "A");
    ("/chains/b.json", list_byte_of_string "B");
    ("/chains/c.json", list_byte_of_string "C");
    ("/chains/d.json", list_byte_of_string "D");
    ("/chains/warm.fxp", warm) ].

Definition files : FileAPI File DiskImage :=
  {| existsAsFile := fun d f =>
       match lookup (getFullPathName f) d with Some _ => true | None => false end;
     loadFileAsString := fun d f =>
       match lookup (getFullPathName f) d with
       | Some content => string_of_list_byte content
       | None => ""
       end;
     loadFileAsData := fun d f => lookup (getFullPathName f) d;
     createDirectory := fun d _ => d;
     createOutputStream := fun _ f =>
       if absolute (getFullPathName f) then Some f else None;
     JSON_parse := parse;
     objectText := fun _ => "Object 0x0" |}.

Definition plugin : PluginAPI Plugin Block unit Z Z :=
  {| setNonRealtime := fun _ p => p;
     getBusesLayout := fun p => mkBusesLayout [channels p] [channels p];
     setBusesLayout := fun layout p =>
       mkPlugin (name p) (state p) (stateSize p)
         (match inputBuses layout with c :: _ => c | [] => channels p end) (prepared p);
     prepareToPlay := fun _ _ p =>
       mkPlugin (name p) (state p) (stateSize p) (channels p) true;
     reset := fun p => p;
     setStateInformation := fun data size p =>
       mkPlugin (name p) data size (channels p) (prepared p);
     processBlock := fun p block events => (p, block ++ [name p], events);
     canonicalChannelSet := fun n => n |}.

Definition vst3 : AudioPluginFormat string :=
  {| fileMightContainThisPluginType := fun path =>
       match extension path with Some e => String.eqb e ".vst3" | None => false end;
     findAllTypesForFile := fun path =>
       if String.eqb path "/chains/gain.vst3" then ["gain"; "gain-sidechain"]
       else if String.eqb path "/chains/eq.vst3" then ["eq"]
       else if String.eqb path "/chains/reverb.vst3" then ["reverb"]
       else if String.eqb path "/chains/mute.vst3" then ["mute"]
       else [] |}.

Definition formats : AudioPluginFormatManager Plugin Z string :=
  {| getFormats := [vst3];
     createPluginInstance := fun desc _ _ error =>
       (Some (mkPlugin desc [] 0 2 false), error) |}.

Definition voice : AudioFormatReader Z unit :=
  {| sampleRate := 44100; bitsPerSample := 24; lengthInSamples := 1000;
     numChannels := 1; samples := tt |}.

Definition audio : AudioAPI Block unit Z string File WavWriter unit DiskImage :=
  {| createReaderFor := fun d f =>
       if String.eqb (getFullPathName f) "/in/voice.wav" then Some voice else None;
     findFormatForFileExtension := fun ext =>
       if String.eqb ext "wav" then Some "WAV"
       else if String.eqb ext "flac" then Some "FLAC"
       else None;
     createWriterFor := fun fmt _ r c b _ _ => Some (mkWavWriter fmt r c b []);
     newBuffer := fun _ _ => [];
     clearBuffer := fun _ => [];
     readSamples := fun _ b _ _ _ _ _ => b;
     newMidi := tt;
     clearMidi := fun _ => tt;
     writeFromAudioSampleBuffer := fun w b _ n =>
       mkWavWriter (format w) (rate w) (channelCount w) (bits w) (blocks w ++ [(b, n)]) |}.

Definition argv (chainName outputName : string) : list string :=
  ["utau_vst_host"; "--input"; "/in/voice.wav"; "--output"; outputName;
   "--chain"; chainName].

Definition run (fuel : nat) (args : list string) : Run Plugin Block unit WavWriter :=
  main platform cwd files audio plugin formats fuel disk args.

(** The arguments, slots and instances of a run on manifest A. *)
Definition argsA : Args :=
  {| input := "/in/voice.wav"; output := "/out/result.ogg";
     chain := "/chains/a.json"; blockSize := 512 |}.

Definition gainSlot : ChainSlot := mkChainSlot "/chains/gain.vst3" "" false.
Definition muteSlot : ChainSlot := mkChainSlot "/chains/mute.vst3" "" true.
Definition eqSlot : ChainSlot :=
  mkChainSlot "/chains/eq.vst3" "/chains/missing.fxp" false.
Definition reverbSlot : ChainSlot :=
  mkChainSlot "/chains/reverb.vst3" "/chains/warm.fxp" false.

Definition slotsA : list ChainSlot := [gainSlot; muteSlot; eqSlot; reverbSlot].

Definition loaded (pluginName : string) : Plugin := mkPlugin pluginName [] 0 1 true.

Definition wav : WavWriter := mkWavWriter "WAV" 44100 1 16 [].

Definition start : RenderState Plugin Block unit WavWriter :=
  renderStart audio voice argsA
    [loaded "gain"; loaded "eq"; mkPlugin "reverb" warm 3 1 true] wav.

End Demo.

(* ================================================================== *)
(** ** The interactive host ([gui_main.cpp]) *)

(** [juce::Rectangle<int>], as far as [HostComponent::resized] uses it.
    Coordinates are in [Z]: for a component of at most 2^30 pixels in either
    direction no operation of [resized] leaves the range of [int]. *)
Module Rect.

Record t := mk { x : Z; y : Z; w : Z; h : Z }.

Definition rightEdge (r : t) : Z := x r + w r.
Definition bottomEdge (r : t) : Z := y r + h r.
Definition isEmpty (r : t) : bool := (w r <=? 0) || (h r <=? 0).

Definition expanded (dx dy : Z) (r : t) : t :=
  mk (x r - dx) (y r - dy) (Int.jmax 0 (w r + dx * 2)) (Int.jmax 0 (h r + dy * 2)).

Definition reduced (dx dy : Z) (r : t) : t := expanded (- dx) (- dy) r.

(** [removeFromBottom]: the strip taken off, and the rectangle afterwards. *)
Definition removeFromBottom (amount : Z) (r : t) : t * t :=
  let amount := Int.jmin amount (h r) in
  (mk (x r) (y r + h r - amount) (w r) amount, mk (x r) (y r) (w r) (h r - amount)).

(** [removeFromLeft]: the strip taken off, and the rectangle afterwards. *)
Definition removeFromLeft (amount : Z) (r : t) : t * t :=
  let taken := mk (x r) (y r) (Int.jmin amount (w r)) (h r) in
  (taken, mk (x r + w taken) (y r) (w r - w taken) (h r)).

End Rect.

Module GuiHost.

(** [StringArray::removeEmptyStrings], whose argument defaults to true: words
    without a character that is not whitespace are removed. *)
Fixpoint containsNonWhitespaceChars (s : string) : bool :=
  match s with
  | EmptyString => false
  | String c t => negb (JString.isWhitespace c) || containsNonWhitespaceChars t
  end.

Definition removeEmptyStrings (words : list string) : list string :=
  filter containsNonWhitespaceChars words.

Definition usageHint : string :=
  (newline ++ newline ++ "Use --plugin <file> to open a plugin.")%string.

(** [HostComponent::resized] for a component of the given size: the bounds
    of the two buttons, and the bounds given to the editor, or to the label
    when the plugin has no editor. *)
Definition resized (width height : Z) : Rect.t * Rect.t * Rect.t :=
  let area := Rect.mk 0 0 width height in
  let '(strip, area) := Rect.removeFromBottom 40 area in
  let buttonArea := Rect.reduced 8 4 strip in
  let '(leftHalf, buttonArea) :=
    Rect.removeFromLeft (Z.quot (Rect.w buttonArea) 2) buttonArea in
  (Rect.reduced 4 0 leftHalf, Rect.reduced 4 0 buttonArea, area).

Section App.

Context {Instance Buffer MidiBuffer SampleRate AudioChannelSet
  PluginDescription OutStream Disk Editor : Type}.

(** What the interactive host uses of a plugin instance besides
    [PluginAPI]. *)
Record EditorAPI := mkEditorAPI {
  getStateInformation : Instance -> Instance * list Byte.byte;
  releaseResources : Instance -> Instance;
  hasEditor : Instance -> bool;
  createEditor : Instance -> option Editor;
  getWidth : Editor -> Z;
  getHeight : Editor -> Z;
  stereo : AudioChannelSet
}.

(** What the interactive host uses of the disk besides [FileAPI]. *)
Record SaveAPI := mkSaveAPI {
  exists_ : Disk -> File -> bool;
  replaceWithData : Disk -> File -> list Byte.byte -> bool * Disk;
  getFileName : File -> string
}.

Variable P : Platform.
Variable cwd : File.
Variable F : FileAPI OutStream Disk.
Variable S : SaveAPI.
Variable I : PluginAPI Instance Buffer MidiBuffer SampleRate AudioChannelSet.
Variable E : EditorAPI.

(** [applyPreset] of the interactive host: it takes a file, and has no test
    for an empty path. *)
Definition applyPreset (disk : Disk) (instance : Instance) (presetFile : File)
  : bool * Instance :=
  if negb (existsAsFile F disk presetFile) then (false, instance)
  else
    match loadFileAsData F disk presetFile with
    | None => (false, instance)
    | Some data =>
        (true,
         setStateInformation I data (Int.to_int (Z.of_nat (List.length data))) instance)
    end.

(** [savePreset]: the return value, the instance and the disk afterwards. *)
Definition savePreset (disk : Disk) (instance : Instance) (presetFile : File)
  : bool * Instance * Disk :=
  let '(instance', data) := getStateInformation E instance in
  let '(ok, disk') := replaceWithData S disk presetFile data in
  (ok, instance', disk').

(** What the interactive [loadPlugin] does with a created instance. *)
Definition configure (rate : SampleRate) (blockSize : Z) (instance : Instance)
  : Instance :=
  let layout := getBusesLayout I instance in
  let layout :=
    {| inputBuses := setFirstBus (stereo E) (inputBuses layout);
       outputBuses := setFirstBus (stereo E) (outputBuses layout) |} in
  let instance := setBusesLayout I layout instance in
  let instance := prepareToPlay I rate blockSize instance in
  reset I instance.

Definition loadPlugin (file : File)
    (formatManager : AudioPluginFormatManager Instance SampleRate PluginDescription)
    (rate : SampleRate) (blockSize : Z) (error : string)
  : option Instance * string :=
  let types := findTypes (getFormats formatManager) (getFullPathName file) [] in
  match types with
  | [] => (None, ("No plugin types found for " ++ getFullPathName file)%string)
  | desc :: _ =>
      match createPluginInstance formatManager desc rate blockSize error with
      | (None, error') => (None, error')
      | (Some instance, error') => (Some (configure rate blockSize instance), error')
      end
  end.

(** A [HostComponent]: the plugin's editor if it has one, the file [Save]
    writes to, and its size. *)
Record HostComponent := mkHostComponent {
  editor : option Editor;
  presetPath : File;
  componentWidth : Z;
  componentHeight : Z
}.

Definition getPreferredWidth (ed : option Editor) : Z :=
  match ed with Some e => getWidth E e | None => 640 end.

Definition getPreferredHeight (ed : option Editor) : Z :=
  match ed with Some e => Int.to_int (getHeight E e + 48) | None => 480 end.

(** The constructor of [HostComponent]. *)
Definition newHostComponent (processor : Instance) (presetFile : File)
  : HostComponent :=
  let ed := if hasEditor E processor then createEditor E processor else None in
  mkHostComponent ed presetFile (getPreferredWidth ed) (getPreferredHeight ed).

(** What a click on a button leads to: the state was written, the write
    failed and the alert is shown, or the chooser was closed without a
    file. *)
Inductive SaveResult : Type :=
| Written
| SaveFailed (alert : string)
| NothingChosen.

(** The callback of [handleSaveAs], for the file the chooser returns. *)
Definition handleSaveAs (disk : Disk) (processor : Instance)
    (c : HostComponent) (chosen : File)
  : SaveResult * HostComponent * Instance * Disk :=
  if JString.isEmpty (getFullPathName chosen) then (NothingChosen, c, processor, disk)
  else
    let c' := mkHostComponent (editor c) chosen (componentWidth c) (componentHeight c) in
    match savePreset disk processor chosen with
    | (true, processor', disk') => (Written, c', processor', disk')
    | (false, processor', disk') =>
        (SaveFailed "Failed to save preset.", c', processor', disk')
    end.

(** [handleSave]; [chosen] is what the chooser returns if it is opened. *)
Definition handleSave (disk : Disk) (processor : Instance)
    (c : HostComponent) (chosen : File)
  : SaveResult * HostComponent * Instance * Disk :=
  if JString.isEmpty (getFullPathName (presetPath c))
  then handleSaveAs disk processor c chosen
  else
    match savePreset disk processor (presetPath c) with
    | (true, processor', disk') => (Written, c, processor', disk')
    | (false, processor', disk') =>
        (SaveFailed "Failed to save preset.", c, processor', disk')
    end.

(** The application: its return value, the message box shown by [fail], the
    instance, and the window with its title and content. *)
Record App := mkApp {
  returnValue : Z;
  messageBox : option string;
  instance : option Instance;
  window : option (string * HostComponent)
}.

Definition fail (message : string) (code : Z) (showUsageHint : bool) : App :=
  mkApp code
    (Some (if showUsageHint then (message ++ usageHint)%string else message))
    None None.

Variable formats : AudioPluginFormatManager Instance SampleRate PluginDescription.
Variable rate44100 : SampleRate.

(** [initialise], from the words [addTokens] cut the command line into. *)
Definition initialise (disk : Disk) (tokens : list string) : App :=
  let args := removeEmptyStrings tokens in
  let '(ok, parsed) := Gui.parseArgs args Gui.defaultArgs in
  if negb ok then fail "Invalid arguments." 2 true
  else
    let pluginFile := fileOf P cwd (Gui.pluginPath parsed) in
    if negb (exists_ S disk pluginFile) then fail "Plugin file not found." 3 false
    else
      match loadPlugin pluginFile formats rate44100 (Gui.blockSize parsed) "" with
      | (None, error) =>
          fail (if JString.isNotEmpty error then error else "Failed to load plugin.")
            4 false
      | (Some loaded, _) =>
          let presetFile := fileOf P cwd (Gui.presetPath parsed) in
          let loaded :=
            if existsAsFile F disk presetFile
            then snd (applyPreset disk loaded presetFile) else loaded in
          let saveFile := fileOf P cwd (Gui.savePath parsed) in
          mkApp 0 None (Some loaded)
            (Some (getFileName S pluginFile, newHostComponent loaded saveFile))
      end.

(** [shutdown]: the application afterwards, and the instance whose resources
    were released, if there was one. *)
Definition shutdown (app : App) : App * option Instance :=
  (mkApp (returnValue app) (messageBox app) None None,
   match instance app with
   | Some i => Some (releaseResources E i)
   | None => None
   end).

End App.

End GuiHost.

(** The concrete host extended for the interactive program and for an input
    without frames. *)
Module DemoGui.

(** The part of a path after its last slash. *)
Fixpoint basename (s : string) : string :=
  match s with
  | EmptyString => EmptyString
  | String c t =>
      match Demo.dirname t with
      | Some _ => basename t
      | None => if Ascii.eqb c "/" then t else s
      end
  end.

Fixpoint remove (path : string) (disk : Demo.DiskImage) : Demo.DiskImage :=
  match disk with
  | [] => []
  | (p, content) :: rest =>
      if String.eqb p path then remove path rest else (p, content) :: remove path rest
  end.

(** A plugin bundle is a directory: it exists without being a file of the
    disk image.  Writing no bytes deletes the file, as
    [File::replaceWithData] does. *)
Definition save : GuiHost.SaveAPI :=
  {| GuiHost.exists_ := fun (d : Demo.DiskImage) f =>
       match Demo.lookup (getFullPathName f) d with
       | Some _ => true
       | None => fileMightContainThisPluginType Demo.vst3 (getFullPathName f)
       end;
     GuiHost.replaceWithData := fun d f data =>
       match data with
       | [] => (true, remove (getFullPathName f) d)
       | _ => (true, (getFullPathName f, data) :: d)
       end;
     GuiHost.getFileName := fun f => basename (getFullPathName f) |}.

Definition editors : GuiHost.EditorAPI :=
  {| GuiHost.getStateInformation := fun p : Demo.Plugin => (p, Demo.state p);
     GuiHost.releaseResources := fun p => p;
     GuiHost.hasEditor := fun p => String.eqb (Demo.name p) "eq";
     GuiHost.createEditor := fun _ => Some (400, 300);
     GuiHost.getWidth := fun e : Z * Z => fst e;
     GuiHost.getHeight := fun e => snd e;
     GuiHost.stereo := 2 |}.

Definition start (tokens : list string) : GuiHost.App :=
  GuiHost.initialise Demo.platform Demo.cwd Demo.files save Demo.plugin editors
    Demo.formats 44100 Demo.disk tokens.

(** An input file without frames. *)
Definition silence : AudioFormatReader Z unit :=
  {| sampleRate := 44100; bitsPerSample := 16; lengthInSamples := 0;
     numChannels := 2; samples := tt |}.

Definition silentAudio
  : AudioAPI Demo.Block unit Z string File Demo.WavWriter unit Demo.DiskImage :=
  {| createReaderFor := fun _ _ => Some silence;
     findFormatForFileExtension := findFormatForFileExtension Demo.audio;
     createWriterFor := createWriterFor Demo.audio;
     newBuffer := newBuffer Demo.audio;
     clearBuffer := clearBuffer Demo.audio;
     readSamples := readSamples Demo.audio;
     newMidi := newMidi Demo.audio;
     clearMidi := clearMidi Demo.audio;
     writeFromAudioSampleBuffer := writeFromAudioSampleBuffer Demo.audio |}.

(** The frames a writer was given. *)
Definition frames (w : Demo.WavWriter) : Z :=
  fold_left (fun total block => total + snd block) (Demo.blocks w) 0.

(** Plugin formats without any backend. *)
Definition noFormats : AudioPluginFormatManager Demo.Plugin Z string :=
  {| getFormats := [];
     createPluginInstance := fun _ _ _ error => (None, error) |}.

End DemoGui.

(* ================================================================== *)
(** ** A plugin that records the calls made on it *)

(** An instance is the list of the calls it received, oldest first.  The
    plugin comes with a main input and output bus of six channels and a
    side-chain input of one. *)
Module Recorded.

Inductive Call : Type :=
| Created (desc : string) (rate blockSize : Z)
| SetNonRealtime (nonRealtime : bool)
| SetBusesLayout (inputs outputs : list Z)
| PrepareToPlay (rate blockSize : Z)
| Reset.

Definition plugin : PluginAPI (list Call) Demo.Block unit Z Z :=
  {| setNonRealtime := fun b p => p ++ [SetNonRealtime b];
     getBusesLayout := fun _ => mkBusesLayout [6; 1] [6];
     setBusesLayout := fun layout p =>
       p ++ [SetBusesLayout (inputBuses layout) (outputBuses layout)];
     prepareToPlay := fun r b p => p ++ [PrepareToPlay r b];
     reset := fun p => p ++ [Reset];
     setStateInformation := fun _ _ p => p;
     processBlock := fun p block events => (p, block, events);
     canonicalChannelSet := fun n => n |}.

Definition formats : AudioPluginFormatManager (list Call) Z string :=
  {| getFormats := [Demo.vst3];
     createPluginInstance := fun desc r b error => (Some [Created desc r b], error) |}.

Definition editors : GuiHost.EditorAPI :=
  {| GuiHost.getStateInformation := fun p : list Call => (p, []);
     GuiHost.releaseResources := fun p => p;
     GuiHost.hasEditor := fun _ => false;
     GuiHost.createEditor := fun _ => @None (Z * Z);
     GuiHost.getWidth := fun e => fst e;
     GuiHost.getHeight := fun e => snd e;
     GuiHost.stereo := 2 |}.

End Recorded.

(* ================================================================== *)
(** * Properties *)

(** Case analysis on the conditions of the conditionals in the goal. *)
Ltac split_ifs :=
  repeat match goal with
         | |- context [if ?c then _ else _] => destruct c eqn:?
         end.

(** ** Machine integers *)

Lemma jmax_is_max (a b : Z) : Int.jmax a b = Z.max a b.
Proof. unfold Int.jmax. destruct (Z.ltb_spec a b); lia. Qed.

Lemma jmin_is_min (a b : Z) : Int.jmin a b = Z.min a b.
Proof. unfold Int.jmin. destruct (Z.ltb_spec b a); lia. Qed.

Lemma to_int_id (z : Z) : Int.is_int z -> Int.to_int z = z.
Proof.
  unfold Int.is_int, Int.to_int. intros H.
  rewrite Z.mod_small; lia.
Qed.

Lemma to_int64_id (z : Z) : Int.is_int64 z -> Int.to_int64 z = z.
Proof.
  unfold Int.is_int64, Int.to_int64. intros H.
  rewrite Z.mod_small; lia.
Qed.

(** An unsigned value survives the round trip through [int]. *)
Lemma to_uint_to_int (z : Z) : Int.is_uint z -> Int.to_uint (Int.to_int z) = z.
Proof.
  unfold Int.is_uint, Int.to_uint, Int.to_int. intros H.
  rewrite Zminus_mod_idemp_l.
  replace (z + 2 ^ 31 - 2 ^ 31) with z by lia.
  apply Z.mod_small. lia.
Qed.

(** ** Command lines *)

(** Induction for a loop that consumes one or two words per step. *)
Lemma words_ind (Q : list string -> Prop) :
  Q [] ->
  (forall a, Q [a]) ->
  (forall a b l, Q l -> Q (b :: l) -> Q (a :: b :: l)) ->
  forall l, Q l.
Proof.
  intros H0 H1 H2 l.
  assert (H : Q l /\ forall a, Q (a :: l)).
  { induction l as [|b l [IH1 IH2]].
    - split; [exact H0 | exact H1].
    - split; [apply IH2 | intros a; apply H2; [exact IH1 | apply IH2]]. }
  apply H.
Qed.

(** One step of the loop of [parseArgs] at a word that has a successor. *)
Lemma parseArgsFrom_step (w v : string) (l : list string) (a : Args) :
  parseArgsFrom (w :: v :: l) a =
    if String.eqb w "--help" || String.eqb w "-h" then (false, a, [usageText])
    else if String.eqb w "--input" then parseArgsFrom l (set_input v a)
    else if String.eqb w "--output" then parseArgsFrom l (set_output v a)
    else if String.eqb w "--chain" then parseArgsFrom l (set_chain v a)
    else if String.eqb w "--block" then
      parseArgsFrom l (set_blockSize (Int.jmax 64 (JString.getIntValue v)) a)
    else parseArgsFrom (v :: l) a.
Proof. reflexivity. Qed.

Lemma gui_parseArgs_step (w v : string) (l : list string) (a : Gui.GuiArgs) :
  Gui.parseArgs (w :: v :: l) a =
    if String.eqb w "--plugin" then
      Gui.parseArgs l (Gui.mkGuiArgs v (Gui.presetPath a) (Gui.savePath a) (Gui.blockSize a))
    else if String.eqb w "--preset" then
      Gui.parseArgs l (Gui.mkGuiArgs (Gui.pluginPath a) v (Gui.savePath a) (Gui.blockSize a))
    else if String.eqb w "--save" then
      Gui.parseArgs l (Gui.mkGuiArgs (Gui.pluginPath a) (Gui.presetPath a) v (Gui.blockSize a))
    else if String.eqb w "--block" then
      Gui.parseArgs l (Gui.set_blockSize (Int.jmax 64 (JString.getIntValue v)) a)
    else Gui.parseArgs (v :: l) a.
Proof. reflexivity. Qed.

Definition sameFiles (a a' : Args) : Prop :=
  input a = input a' /\ output a = output a' /\ chain a = chain a'.

(** Whether the command line is accepted does not depend on the block
    size. *)
Lemma parseArgsFrom_accepts (rest : list string) :
  forall a a', sameFiles a a' ->
    fst (fst (parseArgsFrom rest a)) = fst (fst (parseArgsFrom rest a')).
Proof.
  induction rest as [|w|w v l IHl IHvl] using words_ind;
    intros a a' (Hi & Ho & Hc).
  - simpl. now rewrite Hi, Ho, Hc.
  - simpl. split_ifs; simpl; trivial. now rewrite Hi, Ho, Hc.
  - rewrite !parseArgsFrom_step.
    split_ifs; trivial;
      try (apply IHl; unfold sameFiles; simpl; auto);
      apply IHvl; unfold sameFiles; auto.
Qed.

Lemma parseArgsFrom_without_block (rest : list string) :
  forall a, ~ In "--block" rest ->
    blockSize (snd (fst (parseArgsFrom rest a))) = blockSize a.
Proof.
  induction rest as [|w|w v l IHl IHvl] using words_ind; intros a Hno.
  - reflexivity.
  - simpl. split_ifs; reflexivity.
  - rewrite !parseArgsFrom_step.
    assert (Hw : String.eqb w "--block" = false).
    { apply String.eqb_neq. intros ->. apply Hno. now left. }
    assert (Hl : ~ In "--block" l) by (intros H; apply Hno; right; now right).
    assert (Hvl : ~ In "--block" (v :: l)) by (intros H; apply Hno; now right).
    rewrite Hw.
    split_ifs; trivial; try (rewrite IHl by exact Hl; reflexivity).
    now apply IHvl.
Qed.

Lemma parseArgsFrom_at_least_64 (rest : list string) :
  forall a, 64 <= blockSize a -> 64 <= blockSize (snd (fst (parseArgsFrom rest a))).
Proof.
  induction rest as [|w|w v l IHl IHvl] using words_ind; intros a Ha.
  - exact Ha.
  - simpl. split_ifs; exact Ha.
  - rewrite !parseArgsFrom_step.
    split_ifs; trivial; try (apply IHl; simpl; trivial); try now apply IHvl.
    rewrite jmax_is_max. lia.
Qed.

Lemma gui_parseArgs_accepts (rest : list string) :
  forall a a', Gui.pluginPath a = Gui.pluginPath a' ->
    fst (Gui.parseArgs rest a) = fst (Gui.parseArgs rest a').
Proof.
  induction rest as [|w|w v l IHl IHvl] using words_ind; intros a a' Hp.
  - simpl. now rewrite Hp.
  - simpl. now rewrite Hp.
  - rewrite !gui_parseArgs_step.
    split_ifs; try (apply IHl; simpl; auto); now apply IHvl.
Qed.

Lemma gui_parseArgs_without_block (rest : list string) :
  forall a, ~ In "--block" rest ->
    Gui.blockSize (snd (Gui.parseArgs rest a)) = Gui.blockSize a.
Proof.
  induction rest as [|w|w v l IHl IHvl] using words_ind; intros a Hno.
  - reflexivity.
  - reflexivity.
  - rewrite !gui_parseArgs_step.
    assert (Hw : String.eqb w "--block" = false).
    { apply String.eqb_neq. intros ->. apply Hno. now left. }
    assert (Hl : ~ In "--block" l) by (intros H; apply Hno; right; now right).
    assert (Hvl : ~ In "--block" (v :: l)) by (intros H; apply Hno; now right).
    rewrite Hw.
    split_ifs; try (rewrite IHl by exact Hl; reflexivity).
    now apply IHvl.
Qed.

Lemma gui_parseArgs_at_least_64 (rest : list string) :
  forall a, 64 <= Gui.blockSize a -> 64 <= Gui.blockSize (snd (Gui.parseArgs rest a)).
Proof.
  induction rest as [|w|w v l IHl IHvl] using words_ind; intros a Ha.
  - exact Ha.
  - exact Ha.
  - rewrite !gui_parseArgs_step.
    split_ifs; try (apply IHl; simpl; trivial); try now apply IHvl.
    rewrite jmax_is_max. lia.
Qed.

(** C9. Block size argument: at a [--block] word that has a value, both
    command-line parsers set the block size to the maximum of 64 and the
    integer read from the value and go on with the words after it; the value
    has no influence on whether the command line is accepted; the block size
    that results is never below 64; without any [--block] word it is 512;
    when no further [--block] follows, the block size the parser returns is
    that maximum itself, whatever it was before; and [--block 10] gives 64,
    [--block 1024] gives 1024, a value that is no number or is negative
    gives 64, in both hosts. *)
Theorem block_size_clamped_never_rejected :
  forall (v : string) (rest : list string) (a : Args) (g : Gui.GuiArgs),
    parseArgsFrom ("--block" :: v :: rest) a
      = parseArgsFrom rest (set_blockSize (Z.max 64 (JString.getIntValue v)) a)
    /\ Gui.parseArgs ("--block" :: v :: rest) g
      = Gui.parseArgs rest (Gui.set_blockSize (Z.max 64 (JString.getIntValue v)) g)
    /\ fst (fst (parseArgsFrom ("--block" :: v :: rest) a))
      = fst (fst (parseArgsFrom rest a))
    /\ fst (Gui.parseArgs ("--block" :: v :: rest) g) = fst (Gui.parseArgs rest g)
    /\ (forall argv, 64 <= blockSize (snd (fst (parseArgs argv defaultArgs))))
    /\ (forall argv, 64 <= Gui.blockSize (snd (Gui.parseArgs argv Gui.defaultArgs)))
    /\ (forall argv, ~ In "--block" argv ->
          blockSize (snd (fst (parseArgs argv defaultArgs))) = 512)
    /\ (forall argv, ~ In "--block" argv ->
          Gui.blockSize (snd (Gui.parseArgs argv Gui.defaultArgs)) = 512)
    /\ parseArgs ["utau_vst_host"; "--block"; "10"] defaultArgs
       = (false, set_blockSize 64 defaultArgs, [])
    /\ (~ In "--block" rest ->
          blockSize (snd (fst (parseArgsFrom ("--block" :: v :: rest) a)))
          = Z.max 64 (JString.getIntValue v))
    /\ (~ In "--block" rest ->
          Gui.blockSize (snd (Gui.parseArgs ("--block" :: v :: rest) g))
          = Z.max 64 (JString.getIntValue v))
    /\ parseArgs ["utau_vst_host"; "--block"; "10"] defaultArgs
       = (false, mkArgs "" "" "" 64, [])
    /\ parseArgs ["utau_vst_host"; "--block"; "1024"] defaultArgs
       = (false, mkArgs "" "" "" 1024, [])
    /\ parseArgs ["utau_vst_host"; "--input"; "a.wav"; "--output"; "b.wav";
                  "--chain"; "c.json"; "--block"; "-5"] defaultArgs
       = (true, mkArgs "a.wav" "b.wav" "c.json" 64, [])
    /\ parseArgs ["utau_vst_host"; "--input"; "a.wav"; "--output"; "b.wav";
                  "--chain"; "c.json"; "--block"; "many"] defaultArgs
       = (true, mkArgs "a.wav" "b.wav" "c.json" 64, [])
    /\ Gui.parseArgs ["--plugin"; "a.vst3"; "--block"; "10"] Gui.defaultArgs
       = (true, Gui.mkGuiArgs "a.vst3" "" "" 64)
    /\ Gui.parseArgs ["--plugin"; "a.vst3"; "--block"; "1024"] Gui.defaultArgs
       = (true, Gui.mkGuiArgs "a.vst3" "" "" 1024)
    /\ Gui.parseArgs ["--block"; "many"] Gui.defaultArgs
       = (false, Gui.mkGuiArgs "" "" "" 64).
Proof.
  intros v rest a g.
  assert (E1 : parseArgsFrom ("--block" :: v :: rest) a
               = parseArgsFrom rest (set_blockSize (Z.max 64 (JString.getIntValue v)) a)).
  { rewrite parseArgsFrom_step. cbn [String.eqb Ascii.eqb Bool.eqb orb].
    now rewrite jmax_is_max. }
  assert (E2 : Gui.parseArgs ("--block" :: v :: rest) g
               = Gui.parseArgs rest (Gui.set_blockSize (Z.max 64 (JString.getIntValue v)) g)).
  { rewrite gui_parseArgs_step. cbn [String.eqb Ascii.eqb Bool.eqb].
    now rewrite jmax_is_max. }
  split; [exact E1|]. split; [exact E2|].
  split; [rewrite E1; apply parseArgsFrom_accepts; unfold sameFiles; simpl; auto|].
  split; [rewrite E2; now apply gui_parseArgs_accepts|].
  split; [intros argv; apply parseArgsFrom_at_least_64; simpl; lia|].
  split; [intros argv; apply gui_parseArgs_at_least_64; simpl; lia|].
  split.
  { intros argv Hno. unfold parseArgs.
    rewrite parseArgsFrom_without_block; [reflexivity|].
    intros H. apply Hno. destruct argv; [exact H | now right]. }
  split; [intros argv Hno; now rewrite gui_parseArgs_without_block|].
  split; [reflexivity|].
  split; [intros Hno; rewrite E1; now rewrite parseArgsFrom_without_block|].
  split; [intros Hno; rewrite E2; now rewrite gui_parseArgs_without_block|].
  repeat split.
Qed.

(** The theorem at the values [10] and [1024]: the first is raised to 64,
    the second is kept, in both hosts; and the default at a command line
    without [--block]. *)
Lemma block_size_clamped_witness :
  blockSize (snd (fst (parseArgs ["utau_vst_host"; "--input"; "a.wav"] defaultArgs))) = 512
  /\ Gui.blockSize (snd (Gui.parseArgs ["--plugin"; "a.vst3"] Gui.defaultArgs)) = 512
  /\ blockSize (snd (fst (parseArgs ["utau_vst_host"; "--block"; "10"; "--input"; "a.wav"]
                                    defaultArgs))) = 64
  /\ blockSize (snd (fst (parseArgs ["utau_vst_host"; "--block"; "1024"; "--input"; "a.wav"]
                                    defaultArgs))) = 1024
  /\ Gui.blockSize (snd (Gui.parseArgs ["--block"; "10"; "--plugin"; "a.vst3"]
                                       Gui.defaultArgs)) = 64
  /\ Gui.blockSize (snd (Gui.parseArgs ["--block"; "1024"; "--plugin"; "a.vst3"]
                                       Gui.defaultArgs)) = 1024.
Proof.
  destruct (block_size_clamped_never_rejected "10" ["--input"; "a.wav"]
              defaultArgs Gui.defaultArgs)
    as (_ & _ & _ & _ & _ & _ & H1 & H2 & _ & H3 & _).
  destruct (block_size_clamped_never_rejected "10" ["--plugin"; "a.vst3"]
              defaultArgs Gui.defaultArgs)
    as (_ & _ & _ & _ & _ & _ & _ & _ & _ & _ & H4 & _).
  destruct (block_size_clamped_never_rejected "1024" ["--input"; "a.wav"]
              defaultArgs Gui.defaultArgs)
    as (_ & _ & _ & _ & _ & _ & _ & _ & _ & H5 & _).
  destruct (block_size_clamped_never_rejected "1024" ["--plugin"; "a.vst3"]
              defaultArgs Gui.defaultArgs)
    as (_ & _ & _ & _ & _ & _ & _ & _ & _ & _ & H6 & _).
  split; [|split; [|split; [|split; [|split]]]].
  - apply H1. simpl. intros [H|[H|[H|[]]]]; discriminate H.
  - apply H2. simpl. intros [H|[H|[]]]; discriminate H.
  - unfold parseArgs. cbn [tl]. rewrite H3; [reflexivity|].
    simpl. intros [H|[H|[]]]; discriminate H.
  - unfold parseArgs. cbn [tl]. rewrite H5; [reflexivity|].
    simpl. intros [H|[H|[]]]; discriminate H.
  - rewrite H4; [reflexivity|]. simpl. intros [H|[H|[]]]; discriminate H.
  - rewrite H6; [reflexivity|]. simpl. intros [H|[H|[]]]; discriminate H.
Defined.

(* ================================================================== *)
(** ** The render loop *)

(** The number of segments the specification gives: the quotient of
    [totalSamples] by the block size, rounded up. *)
Definition segmentCount (totalSamples blockSize : Z) : Z :=
  (totalSamples + blockSize - 1) / blockSize.

(** Segment number [k] of the specification: where it starts and how many
    frames it has. *)
Definition segmentAt (totalSamples blockSize : Z) (k : nat) : Z * Z :=
  (Z.of_nat k * blockSize, Z.min blockSize (totalSamples - Z.of_nat k * blockSize)).

Definition segments (totalSamples blockSize : Z) : list (Z * Z) :=
  map (segmentAt totalSamples blockSize)
      (seq 0 (Z.to_nat (segmentCount totalSamples blockSize))).

Lemma segmentCount_bounds (t b : Z) :
  0 < b -> t <= segmentCount t b * b < t + b.
Proof.
  intros Hb. unfold segmentCount.
  pose proof (Z.mul_div_le (t + b - 1) b Hb).
  pose proof (Z.mul_succ_div_gt (t + b - 1) b Hb).
  lia.
Qed.

Lemma segmentCount_nonneg (t b : Z) : 0 < b -> 0 <= t -> 0 <= segmentCount t b.
Proof.
  intros Hb Ht. pose proof (segmentCount_bounds t b Hb). nia.
Qed.

(** The size of the last segment, from the remainder of the division. *)
Lemma last_segment_size (t b : Z) :
  0 < b -> 0 < t ->
  Z.min b (t - (segmentCount t b - 1) * b)
    = if t mod b =? 0 then b else t mod b.
Proof.
  intros Hb Ht.
  pose proof (segmentCount_bounds t b Hb) as Hc.
  pose proof (Z.div_mod t b ltac:(lia)) as Hdm.
  pose proof (Z.mod_pos_bound t b Hb) as Hr.
  set (c := segmentCount t b) in *. set (q := t / b) in *. set (r := t mod b) in *.
  destruct (Z.eqb_spec r 0) as [E|E].
  - assert (c = q) by nia. subst c. nia.
  - assert (c = q + 1) by nia. nia.
Qed.

Section Rendering.

Context {Instance Buffer MidiBuffer SampleRate AudioChannelSet
  AudioFormat OutStream Writer Samples Disk : Type}.
Variable A : AudioAPI Buffer MidiBuffer SampleRate AudioFormat OutStream Writer Samples Disk.
Variable I : PluginAPI Instance Buffer MidiBuffer SampleRate AudioChannelSet.
Variable reader : AudioFormatReader SampleRate Samples.

(** The segments of a list rendered one after the other. *)
Definition renderSegments (segs : list (Z * Z))
    (st : RenderState Instance Buffer MidiBuffer Writer)
  : RenderState Instance Buffer MidiBuffer Writer :=
  fold_left (fun s seg => renderSegment A I reader (fst seg) (snd seg) s) segs st.

Lemma position_renderSegment pos block st :
  position (renderSegment A I reader pos block st) = Int.to_int64 (pos + block).
Proof.
  unfold renderSegment. destruct (runChain I _ _ _) as [[? ?] ?]. reflexivity.
Qed.

(** What a segment leaves in the buffer is what the chain made of the frames
    read, and that buffer is what the writer receives. *)
Lemma renderSegment_writes_chain_output pos block st :
  buffer (renderSegment A I reader pos block st)
    = snd (fst (runChain I (instances st)
                  (readSamples A reader (clearBuffer A (buffer st)) 0 block pos true true)
                  (clearMidi A (midi st))))
  /\ writer (renderSegment A I reader pos block st)
    = writeFromAudioSampleBuffer A (writer st)
        (buffer (renderSegment A I reader pos block st)) 0 block.
Proof.
  unfold renderSegment. destruct (runChain I _ _ _) as [[? ?] ?]. split; reflexivity.
Qed.

Lemma blockAt_min (b t pos : Z) :
  0 < b < 2 ^ 31 -> 0 <= pos -> pos < t -> t < 2 ^ 63 ->
  blockAt b t pos = Z.min b (t - pos).
Proof.
  intros Hb Hp Hlt Ht. unfold blockAt.
  rewrite (to_int64_id b) by (unfold Int.is_int64; lia).
  rewrite (to_int64_id (t - pos)) by (unfold Int.is_int64; lia).
  rewrite jmin_is_min. apply to_int_id. unfold Int.is_int. lia.
Qed.

(** The loop from segment [k] on, with [m] segments to go. *)
Lemma renderLoop_from (b t : Z) :
  0 < b < 2 ^ 31 -> 0 <= t < 2 ^ 63 ->
  forall (m k fuel : nat) st,
    Z.of_nat k + Z.of_nat m = segmentCount t b ->
    position st = Z.min (Z.of_nat k * b) t ->
    (m <= fuel)%nat ->
    renderLoop A I fuel reader b t st
      = Some (renderSegments (map (segmentAt t b) (seq k m)) st).
Proof.
  intros Hb Ht.
  pose proof (segmentCount_bounds t b (proj1 Hb)) as Hc.
  induction m as [|m IH]; intros k fuel st Hk Hpos Hfuel.
  - assert (Hdone : (position st <? t) = false) by (apply Z.ltb_ge; nia).
    destruct fuel; simpl; rewrite Hdone; reflexivity.
  - assert (Hlt : Z.of_nat k * b < t) by nia.
    assert (Hp : position st = Z.of_nat k * b) by lia.
    destruct fuel as [|fuel]; [lia|].
    cbn [renderLoop seq map]. unfold renderSegments. cbn [fold_left].
    replace (position st <? t) with true by (symmetry; apply Z.ltb_lt; lia).
    unfold renderStep. rewrite Hp.
    rewrite blockAt_min by (try lia; nia).
    apply IH.
    + lia.
    + rewrite position_renderSegment. cbn [segmentAt fst snd].
      rewrite to_int64_id by (unfold Int.is_int64; nia). nia.
    + lia.
Qed.

(** With enough fuel the loop ends, in the state the segments of the
    specification lead to. *)
Lemma renderLoop_all_segments (b t : Z) (fuel : nat) st :
  0 < b < 2 ^ 31 -> 0 <= t < 2 ^ 63 ->
  position st = 0 ->
  (Z.to_nat (segmentCount t b) <= fuel)%nat ->
  renderLoop A I fuel reader b t st = Some (renderSegments (segments t b) st).
Proof.
  intros Hb Ht Hpos Hfuel.
  pose proof (segmentCount_nonneg t b (proj1 Hb) (proj1 Ht)).
  apply renderLoop_from; trivial; lia.
Qed.

(** C2. Rendering [totalSamples] frames with block size [B]: with enough
    fuel the loop ends, and what it leaves is what rendering the segments of
    the specification one after the other leaves.  There are as many
    segments as the quotient of [totalSamples] by [B] rounded up, segment [k]
    starts at frame [k * B], every segment but the last has [B] frames, the
    last has [min (B, totalSamples - position)] frames, which is the
    remainder of the division when it is not zero and [B] otherwise; what a
    segment gives the writer is the buffer the chain left; and the loop ends
    at position [totalSamples]. *)
Theorem render_loop_segments :
  forall (B totalSamples : Z) (fuel : nat) st,
    0 < B < 2 ^ 31 ->
    0 <= totalSamples < 2 ^ 63 ->
    position st = 0 ->
    (Z.to_nat (segmentCount totalSamples B) <= fuel)%nat ->
    let segs := segments totalSamples B in
    let n := List.length segs in
    renderLoop A I fuel reader B totalSamples st = Some (renderSegments segs st)
    /\ Z.of_nat n = segmentCount totalSamples B
    /\ totalSamples <= Z.of_nat n * B < totalSamples + B
    /\ (forall k pos block, nth_error segs k = Some (pos, block) ->
          pos = Z.of_nat k * B
          /\ block = Z.min B (totalSamples - pos)
          /\ 0 < block
          /\ ((S k < n)%nat -> block = B)
          /\ (S k = n -> block = if totalSamples mod B =? 0 then B
                                 else totalSamples mod B))
    /\ (forall pos block s,
          writer (renderSegment A I reader pos block s)
            = writeFromAudioSampleBuffer A (writer s)
                (snd (fst (runChain I (instances s)
                   (readSamples A reader (clearBuffer A (buffer s)) 0 block pos true true)
                   (clearMidi A (midi s))))) 0 block)
    /\ position (renderSegments segs st) = totalSamples.
Proof.
  intros B t fuel st HB Ht Hpos Hfuel segs n.
  pose proof (segmentCount_bounds t B (proj1 HB)) as Hc.
  pose proof (segmentCount_nonneg t B (proj1 HB) (proj1 Ht)) as Hc0.
  assert (Hn : Z.of_nat n = segmentCount t B).
  { unfold n, segs, segments. rewrite length_map, length_seq. lia. }
  assert (Hrun : renderLoop A I fuel reader B t st = Some (renderSegments segs st)).
  { now apply renderLoop_all_segments. }
  split; [exact Hrun|]. split; [exact Hn|]. split; [lia|]. split; [|split].
  - intros k pos block Hk.
    assert (Hkn : (k < n)%nat) by (apply nth_error_Some; congruence).
    unfold segs, segments in Hk.
    rewrite nth_error_map in Hk.
    rewrite nth_error_seq in Hk.
    replace (k <? Z.to_nat (segmentCount t B))%nat with true in Hk
      by (symmetry; apply Nat.ltb_lt; lia).
    cbn in Hk. injection Hk as Hp Hb. subst pos block.
    split; [reflexivity|]. split; [reflexivity|].
    split; [nia|]. split.
    + intros Hnl. nia.
    + intros Hl.
      assert (0 < t) by nia.
      rewrite <- (last_segment_size t B) by lia.
      f_equal. f_equal. nia.
  - intros pos block s.
    destruct (renderSegment_writes_chain_output pos block s) as [Hb Hw].
    now rewrite Hw, Hb.
  - (* the loop ends exactly when the position is no longer below the total *)
    clear Hrun.
    assert (Hgen : forall m k s,
              Z.of_nat k + Z.of_nat m = segmentCount t B ->
              position s = Z.min (Z.of_nat k * B) t ->
              position (renderSegments (map (segmentAt t B) (seq k m)) s) = t).
    { induction m as [|m IH]; intros k s Hk Hp.
      - cbn. nia.
      - cbn [seq map]. unfold renderSegments. cbn [fold_left].
        apply IH; [lia|].
        rewrite position_renderSegment. cbn [segmentAt fst snd].
        rewrite to_int64_id by (unfold Int.is_int64; nia). nia. }
    apply Hgen; lia.
Qed.

End Rendering.

(* ================================================================== *)
(** ** Loading a plugin and restoring its state *)

Section Loading.

Context {Instance Buffer MidiBuffer SampleRate AudioChannelSet
  PluginDescription OutStream Disk : Type}.
Variable P : Platform.
Variable cwd : File.
Variable F : FileAPI OutStream Disk.
Variable I : PluginAPI Instance Buffer MidiBuffer SampleRate AudioChannelSet.

(** The types a backend contributes for a file: none when its cheap test
    on the file fails. *)
Definition typesFrom (path : string) (format : AudioPluginFormat PluginDescription)
  : list PluginDescription :=
  if fileMightContainThisPluginType format path
  then findAllTypesForFile format path else [].

Lemma findTypes_flat_map (formats : list (AudioPluginFormat PluginDescription))
    (path : string) :
  forall types,
    findTypes formats path types = types ++ flat_map (typesFrom path) formats.
Proof.
  induction formats as [|format rest IH]; intros types; cbn [findTypes flat_map].
  - now rewrite app_nil_r.
  - unfold typesFrom at 1.
    destruct (fileMightContainThisPluginType format path); cbn [negb].
    + rewrite IH. now rewrite app_assoc.
    + now rewrite IH.
Qed.

(** C4. Types are discovered backend by backend, in the order of the
    backends.  When no backend yields a type, [loadPlugin] returns no
    instance and the error message names the file; when at least one type is
    found, the only description an instance is requested for is the first
    one discovered, whatever the later ones are, and the outcome of
    [loadPlugin] is the outcome of that request. *)
Theorem loadPlugin_first_type_or_error :
  forall (file : File) (fm : AudioPluginFormatManager Instance SampleRate PluginDescription)
         (rate : SampleRate) (blockSize numChannels : Z) (error : string),
    let path := getFullPathName file in
    let types := flat_map (typesFrom path) (getFormats fm) in
    (Forall (fun format => typesFrom path format = []) (getFormats fm) ->
       loadPlugin I file fm rate blockSize numChannels error
         = (None, ("No plugin types found for " ++ path)%string))
    /\ (forall first later, types = first :: later ->
          loadPlugin I file fm rate blockSize numChannels error
            = match createPluginInstance fm first rate blockSize error with
              | (None, error') => (None, error')
              | (Some instance, error') =>
                  (Some (configure I rate blockSize numChannels instance), error')
              end).
Proof.
  intros file fm rate blockSize numChannels error path types.
  unfold loadPlugin. rewrite findTypes_flat_map. cbn [app]. fold path. fold types.
  split.
  - intros Hnone.
    assert (E : types = []).
    { unfold types. induction (getFormats fm) as [|format rest IH]; [reflexivity|].
      inversion Hnone as [|? ? H1 H2]; subst.
      cbn [flat_map]. rewrite H1. now apply IH. }
    now rewrite E.
  - intros first later E. now rewrite E.
Qed.

(** C5. [applyPreset] with an empty preset path returns true and the
    instance as it was; with the path of a file that does not exist, or that
    cannot be read, it returns false and the instance as it was; when the
    file is read it returns true after handing the bytes read, unchanged, to
    the state-restore entry point, with their number converted to [int],
    which is their number below 2^31. *)
Theorem applyPreset_cases :
  forall (disk : Disk) (instance : Instance) (presetPath : string),
    let presetFile := fileOf P cwd presetPath in
    (JString.isEmpty presetPath = true ->
       applyPreset P cwd F I disk instance presetPath = (true, instance))
    /\ (JString.isEmpty presetPath = false ->
        existsAsFile F disk presetFile = false ->
        applyPreset P cwd F I disk instance presetPath = (false, instance))
    /\ (JString.isEmpty presetPath = false ->
        loadFileAsData F disk presetFile = None ->
        applyPreset P cwd F I disk instance presetPath = (false, instance))
    /\ (forall data,
          JString.isEmpty presetPath = false ->
          existsAsFile F disk presetFile = true ->
          loadFileAsData F disk presetFile = Some data ->
          applyPreset P cwd F I disk instance presetPath
            = (true, setStateInformation I data
                       (Int.to_int (Z.of_nat (List.length data))) instance)
          /\ (Z.of_nat (List.length data) < 2 ^ 31 ->
              Int.to_int (Z.of_nat (List.length data)) = Z.of_nat (List.length data))).
Proof.
  intros disk instance presetPath presetFile. unfold applyPreset. fold presetFile.
  split; [|split; [|split]].
  - intros ->. reflexivity.
  - intros -> ->. reflexivity.
  - intros -> ->. destruct (existsAsFile F disk presetFile); reflexivity.
  - intros data -> -> ->. split; [reflexivity|].
    intros Hsmall. apply to_int_id. unfold Int.is_int. lia.
Qed.

End Loading.

(** The four cases on the demonstration disk: no preset, an absent preset,
    and the preset [warm.fxp] of three bytes. *)
Lemma applyPreset_cases_witness :
  let p := Demo.mkPlugin "reverb" [] 0 1 true in
  applyPreset Demo.platform Demo.cwd Demo.files Demo.plugin Demo.disk p "" = (true, p)
  /\ applyPreset Demo.platform Demo.cwd Demo.files Demo.plugin Demo.disk p
       "/chains/missing.fxp" = (false, p)
  /\ applyPreset Demo.platform Demo.cwd Demo.files Demo.plugin Demo.disk p
       "/chains/warm.fxp" = (true, Demo.mkPlugin "reverb" Demo.warm 3 1 true).
Proof.
  intros p.
  destruct (applyPreset_cases Demo.platform Demo.cwd Demo.files Demo.plugin
              Demo.disk p "") as (H1 & _).
  destruct (applyPreset_cases Demo.platform Demo.cwd Demo.files Demo.plugin
              Demo.disk p "/chains/missing.fxp") as (_ & H2 & _).
  destruct (applyPreset_cases Demo.platform Demo.cwd Demo.files Demo.plugin
              Demo.disk p "/chains/warm.fxp") as (_ & _ & _ & H4).
  split; [apply H1; reflexivity|].
  split; [apply H2; reflexivity|].
  apply (H4 Demo.warm); reflexivity.
Defined.

(** A file of two types and a file no backend knows. *)
Lemma loadPlugin_first_type_witness :
  loadPlugin Demo.plugin (mkFile "/chains/notes.txt") Demo.formats 44100 512 1 ""
    = (None, "No plugin types found for /chains/notes.txt")
  /\ loadPlugin Demo.plugin (mkFile "/chains/gain.vst3") Demo.formats 44100 512 1 ""
    = (Some (Demo.mkPlugin "gain" [] 0 1 true), "").
Proof.
  destruct (loadPlugin_first_type_or_error Demo.plugin (mkFile "/chains/notes.txt")
              Demo.formats 44100 512 1 "") as (H1 & _).
  destruct (loadPlugin_first_type_or_error Demo.plugin (mkFile "/chains/gain.vst3")
              Demo.formats 44100 512 1 "") as (_ & H2).
  split.
  - apply H1. repeat constructor.
  - apply (H2 "gain" ["gain-sidechain"]). reflexivity.
Defined.

(* ================================================================== *)
(** ** Manifest paths *)









(** The plugin list of a manifest: the entries of the array under the
    [plugins] key of the manifest object. *)
Definition pluginList (data : var) : option (list var) :=
  match Var.getDynamicObject data with
  | Some props =>
      match Var.find "plugins" props with
      | Some (VArray entries) => Some entries
      | _ => None
      end
  | None => None
  end.

Section Manifest.

Context {OutStream Disk : Type}.
Variable P : Platform.
Variable cwd : File.
Variable F : FileAPI OutStream Disk.

(** The slots an entry of the plugins array contributes: one when it is an
    object whose slot has a plugin path, none otherwise. *)
Definition slotsOfEntry (baseDir : File) (entry : var) : list ChainSlot :=
  match Var.getDynamicObject entry with
  | Some obj =>
      if JString.isNotEmpty (pluginPath (slotOf P cwd F baseDir obj))
      then [slotOf P cwd F baseDir obj] else []
  | None => []
  end.

Lemma addSlots_flat_map (baseDir : File) (entries : list var) :
  forall slots,
    addSlots P cwd F baseDir entries slots
      = slots ++ flat_map (slotsOfEntry baseDir) entries.
Proof.
  induction entries as [|entry rest IH]; intros slots; cbn [addSlots flat_map].
  - now rewrite app_nil_r.
  - unfold slotsOfEntry at 1.
    destruct entry; cbn [Var.isObject Var.getDynamicObject negb]; try apply IH.
    destruct (JString.isNotEmpty _); rewrite IH; [now rewrite <- app_assoc | reflexivity].
Qed.

(** [loadChain] on a manifest that has a plugin list. *)
Lemma loadChainData_pluginList (baseDir : File) (data : var) (entries : list var)
    (slots : list ChainSlot) (error : string) :
  pluginList data = Some entries ->
  loadChainData P cwd F baseDir data slots error
    = match entries with
      | [] => (false, slots, "Chain JSON has no plugins.")
      | _ :: _ =>
          match slots ++ flat_map (slotsOfEntry baseDir) entries with
          | [] => (false, [], "Chain JSON has no valid plugin paths.")
          | resolved => (true, resolved, error)
          end
      end.
Proof.
  unfold pluginList, loadChainData, Var.getProperty.
  destruct data as [| | | | | |props]; cbn [Var.getDynamicObject]; try discriminate.
  destruct (Var.find "plugins" props) as [[| | | | |items|]|]; try discriminate.
  intros [= ->]. cbn [Var.isVoid Var.isObject Var.isArray Var.getArray negb orb].
  destruct entries as [|entry rest]; [reflexivity|].
  rewrite addSlots_flat_map.
  destruct (slots ++ flat_map (slotsOfEntry baseDir) (entry :: rest)); reflexivity.
Qed.


End Manifest.


(* ================================================================== *)
(** ** The chain: from slots to instances to rendered blocks *)

Section Chain.

Context {Instance Buffer MidiBuffer SampleRate AudioChannelSet
  PluginDescription AudioFormat OutStream Writer Samples Disk : Type}.
Variable P : Platform.
Variable cwd : File.
Variable F : FileAPI OutStream Disk.
Variable A : AudioAPI Buffer MidiBuffer SampleRate AudioFormat OutStream Writer Samples Disk.

Local Abbreviation Plugins := (PluginAPI Instance Buffer MidiBuffer SampleRate AudioChannelSet).
Local Abbreviation Formats := (AudioPluginFormatManager Instance SampleRate PluginDescription).

(** A slot that is not bypassed. *)
Definition live (slot : ChainSlot) : bool := negb (bypass slot).

(** What [loadPlugin] returns for a slot in [main]. *)
Definition loadedInstance (I : Plugins) (pf : Formats)
    (reader : AudioFormatReader SampleRate Samples) (args : Args) (slot : ChainSlot)
  : option Instance :=
  fst (loadPlugin I (fileOf P cwd (pluginPath slot)) pf (sampleRate reader)
         (blockSize args) (Int.to_int (numChannels reader)) "").

(** The instance [main] adds for a slot: the loaded one, after the attempt
    to restore the slot's preset if it has one. *)
Definition slotInstance (I : Plugins) (pf : Formats) (disk : Disk)
    (reader : AudioFormatReader SampleRate Samples) (args : Args) (slot : ChainSlot)
  : option Instance :=
  match loadedInstance I pf reader args slot with
  | None => None
  | Some instance =>
      Some (if JString.isNotEmpty (presetPath slot)
            then snd (applyPreset P cwd F I disk instance (presetPath slot))
            else instance)
  end.

(** The warning [main] prints for a slot, if any. *)
Definition slotWarnings (I : Plugins) (pf : Formats) (disk : Disk)
    (reader : AudioFormatReader SampleRate Samples) (args : Args) (slot : ChainSlot)
  : list string :=
  match loadedInstance I pf reader args slot with
  | None => []
  | Some instance =>
      if JString.isNotEmpty (presetPath slot)
         && negb (fst (applyPreset P cwd F I disk instance (presetPath slot)))
      then [presetWarning (presetPath slot)] else []
  end.

(** A plugin interface with another state-restore entry point. *)
Definition withStateRestore
    (restore : list Byte.byte -> Z -> Instance -> Instance) (I : Plugins) : Plugins :=
  {| setNonRealtime := setNonRealtime I;
     getBusesLayout := getBusesLayout I;
     setBusesLayout := setBusesLayout I;
     prepareToPlay := prepareToPlay I;
     reset := reset I;
     setStateInformation := restore;
     processBlock := processBlock I;
     canonicalChannelSet := canonicalChannelSet I |}.

(** The first stages of [main] went through: the command line was accepted
    with [args], both files exist, the input was opened as [reader] and the
    manifest resolved to [slots]. *)
Definition reachesChain (disk : Disk) (argv : list string) (args : Args)
    (out : list string) (reader : AudioFormatReader SampleRate Samples)
    (slots : list ChainSlot) : Prop :=
  parseArgs argv defaultArgs = (true, args, out)
  /\ existsAsFile F disk (fileOf P cwd (input args)) = true
  /\ existsAsFile F disk (fileOf P cwd (chain args)) = true
  /\ createReaderFor A disk (fileOf P cwd (input args)) = Some reader
  /\ fst (loadChain P cwd F disk (fileOf P cwd (chain args)) [] "") = (true, slots).

Variable I : Plugins.
Variable pf : Formats.

Implicit Types (disk : Disk) (reader : AudioFormatReader SampleRate Samples)
  (args : Args) (slot : ChainSlot) (slots rest : list ChainSlot)
  (acc : list Instance) (cerr out : list string) (argv : list string) (fuel : nat).

Lemma loadInstances_bypassed disk reader args slot rest acc cerr :
  bypass slot = true ->
  loadInstances P cwd F I pf disk reader args (slot :: rest) acc cerr
    = loadInstances P cwd F I pf disk reader args rest acc cerr.
Proof. intros H. cbn [loadInstances]. now rewrite H. Qed.

(** When every live slot loads, the loop adds one instance per live slot, in
    the order of the slots. *)
Lemma loadInstances_loaded disk reader args (slots : list ChainSlot) :
  Forall (fun slot => bypass slot = false ->
                      loadedInstance I pf reader args slot <> None) slots ->
  forall acc cerr,
  exists added,
    map Some added = map (slotInstance I pf disk reader args) (filter live slots)
    /\ loadInstances P cwd F I pf disk reader args slots acc cerr
       = inr (acc ++ added,
              cerr ++ flat_map (slotWarnings I pf disk reader args) (filter live slots)).
Proof.
  induction slots as [|slot rest IH]; intros Hall acc cerr.
  - exists []. cbn. now rewrite !app_nil_r.
  - inversion Hall as [|? ? Hslot Hrest]; subst.
    cbn [loadInstances filter]. change (live slot) with (negb (bypass slot)).
    destruct (bypass slot) eqn:Hb; cbn [negb].
    + apply IH, Hrest.
    + specialize (Hslot eq_refl).
      cbn [map flat_map].
      unfold slotInstance at 1, slotWarnings at 1.
      unfold loadedInstance in Hslot |- *.
      destruct (loadPlugin I _ pf _ _ _ "") as [[instance|] e]; cbn [fst] in *;
        [|congruence].
      destruct (JString.isNotEmpty (presetPath slot)); cbn [andb].
      * destruct (applyPreset P cwd F I disk instance (presetPath slot))
          as [[|] instance']; cbn [fst snd negb].
        -- destruct (IH Hrest (acc ++ [instance']) cerr) as (added & Hm & Hl).
           exists (instance' :: added). cbn [map app]. rewrite Hm, Hl.
           now rewrite <- app_assoc.
        -- destruct (IH Hrest (acc ++ [instance'])
                       (cerr ++ [presetWarning (presetPath slot)]))
             as (added & Hm & Hl).
           exists (instance' :: added). cbn [map app]. rewrite Hm, Hl.
           now rewrite <- !app_assoc.
      * destruct (IH Hrest (acc ++ [instance]) cerr) as (added & Hm & Hl).
        exists (instance :: added). cbn [map app]. rewrite Hm, Hl.
        now rewrite <- app_assoc.
Qed.

(** A live slot that does not load ends the loop with the early return. *)
Lemma loadInstances_failure disk reader args (slots : list ChainSlot) :
  Exists (fun slot => bypass slot = false
                      /\ loadedInstance I pf reader args slot = None) slots ->
  forall acc cerr,
  exists err, loadInstances P cwd F I pf disk reader args slots acc cerr = inl err.
Proof.
  induction slots as [|slot rest IH]; intros Hex acc cerr.
  - inversion Hex.
  - cbn [loadInstances].
    destruct (bypass slot) eqn:Hb.
    + inversion Hex as [? ? [Hb' _]|? ? Hrest]; subst; [congruence|].
      now apply IH.
    + unfold loadedInstance in Hex, IH.
      destruct (loadPlugin I _ pf _ _ _ "") as [[instance|] e] eqn:El.
      * assert (Hrest : Exists (fun slot => bypass slot = false
                  /\ fst (loadPlugin I (fileOf P cwd (pluginPath slot)) pf
                            (sampleRate reader) (blockSize args)
                            (Int.to_int (numChannels reader)) "") = None) rest).
        { inversion Hex as [? ? [_ Hn]|? ? Hr]; subst; [|exact Hr].
          rewrite El in Hn. discriminate Hn. }
        destruct (JString.isNotEmpty (presetPath slot)).
        -- destruct (applyPreset P cwd F I disk instance (presetPath slot)) as [[|] ?];
             now apply IH.
        -- now apply IH.
      * eexists. reflexivity.
Qed.

(** The inner loop handles the instances one after the other: an instance
    receives what its predecessors left, and its successors receive what it
    leaves. *)
Lemma runChain_app (pre post : list Instance) :
  forall buffer midi,
    runChain I (pre ++ post) buffer midi
      = let '(pre', b1, m1) := runChain I pre buffer midi in
        let '(post', b2, m2) := runChain I post b1 m1 in
        (pre' ++ post', b2, m2).
Proof.
  induction pre as [|instance pre IH]; intros buffer midi; cbn [app runChain].
  - destruct (runChain I post buffer midi) as [[? ?] ?]. reflexivity.
  - destruct (processBlock I instance buffer midi) as [[instance' b] m].
    rewrite IH.
    destruct (runChain I pre b m) as [[pre' b1] m1].
    destruct (runChain I post b1 m1) as [[post' b2] m2]. reflexivity.
Qed.

Lemma runChain_length (chainInstances : list Instance) :
  forall buffer midi,
    List.length (fst (fst (runChain I chainInstances buffer midi)))
      = List.length chainInstances.
Proof.
  induction chainInstances as [|instance rest IH]; intros buffer midi; cbn [runChain].
  - reflexivity.
  - destruct (processBlock I instance buffer midi) as [[instance' b] m].
    specialize (IH b m).
    destruct (runChain I rest b m) as [[rest' b2] m2]. cbn in *. now rewrite IH.
Qed.

(** What a buffer and its MIDI events become when they are handed to the
    instances of a list one after the other, from the first to the last. *)
Definition passThrough (chainInstances : list Instance) (input : Buffer * MidiBuffer)
  : Buffer * MidiBuffer :=
  fold_left (fun bm instance =>
               let r := processBlock I instance (fst bm) (snd bm) in
               (snd (fst r), snd r))
            chainInstances input.

(** An instance after it processed the given blocks, one after the other. *)
Definition processed (instance : Instance) (inputs : list (Buffer * MidiBuffer))
  : Instance :=
  fold_left (fun i bm => fst (fst (processBlock I i (fst bm) (snd bm)))) inputs instance.

Lemma passThrough_cons instance (chainInstances : list Instance) buffer midi :
  passThrough (instance :: chainInstances) (buffer, midi)
  = passThrough chainInstances
      (snd (fst (processBlock I instance buffer midi)),
       snd (processBlock I instance buffer midi)).
Proof. reflexivity. Qed.

Lemma runChain_passThrough (chainInstances : list Instance) :
  forall buffer midi,
    (snd (fst (runChain I chainInstances buffer midi)),
     snd (runChain I chainInstances buffer midi))
    = passThrough chainInstances (buffer, midi).
Proof.
  induction chainInstances as [|instance rest IH]; intros buffer midi.
  - reflexivity.
  - rewrite passThrough_cons, <- IH. cbn [runChain].
    destruct (processBlock I instance buffer midi) as [[instance' b] m].
    cbn [fst snd]. destruct (runChain I rest b m) as [[rest' b2] m2]. reflexivity.
Qed.

(** Place [k] of the list [runChain] returns holds the instance of place [k]
    after it processed what the [k] instances before it made of the input. *)
Lemma runChain_nth (chainInstances : list Instance) :
  forall buffer midi k instance,
    nth_error chainInstances k = Some instance ->
    nth_error (fst (fst (runChain I chainInstances buffer midi))) k
    = Some (fst (fst (processBlock I instance
                        (fst (passThrough (firstn k chainInstances) (buffer, midi)))
                        (snd (passThrough (firstn k chainInstances) (buffer, midi)))))).
Proof.
  induction chainInstances as [|first rest IH]; intros buffer midi [|k] instance;
    cbn [nth_error firstn]; try discriminate.
  - intros [= ->]. cbn [runChain].
    change (passThrough [] (buffer, midi)) with (buffer, midi). cbn [fst snd].
    destruct (processBlock I instance buffer midi) as [[instance' b] m].
    destruct (runChain I rest b m) as [[rest' b2] m2]. reflexivity.
  - intros H. rewrite passThrough_cons. cbn [runChain].
    destruct (processBlock I first buffer midi) as [[first' b] m].
    specialize (IH b m k instance H).
    destruct (runChain I rest b m) as [[rest' b2] m2]. exact IH.
Qed.

(** One segment, in terms of the instances of the state it starts from. *)
Lemma renderSegment_passes reader pos block
    (st : RenderState Instance Buffer MidiBuffer Writer) :
  let input := (readSamples A reader (clearBuffer A (buffer st)) 0 block pos true true,
                clearMidi A (midi st)) in
  buffer (renderSegment A I reader pos block st) = fst (passThrough (instances st) input)
  /\ midi (renderSegment A I reader pos block st) = snd (passThrough (instances st) input)
  /\ writer (renderSegment A I reader pos block st)
     = writeFromAudioSampleBuffer A (writer st)
         (fst (passThrough (instances st) input)) 0 block
  /\ List.length (instances (renderSegment A I reader pos block st))
     = List.length (instances st)
  /\ (forall k instance,
        nth_error (instances st) k = Some instance ->
        nth_error (instances (renderSegment A I reader pos block st)) k
        = Some (fst (fst (processBlock I instance
                            (fst (passThrough (firstn k (instances st)) input))
                            (snd (passThrough (firstn k (instances st)) input)))))).
Proof.
  intros input. unfold renderSegment.
  pose proof (runChain_passThrough (instances st) (fst input) (snd input)) as Hp.
  pose proof (runChain_length (instances st) (fst input) (snd input)) as Hl.
  pose proof (runChain_nth (instances st) (fst input) (snd input)) as Hn.
  change (fst input, snd input) with input in Hp, Hn.
  change (runChain I (instances st)
            (readSamples A reader (clearBuffer A (buffer st)) 0 block pos true true)
            (clearMidi A (midi st)))
    with (runChain I (instances st) (fst input) (snd input)).
  destruct (runChain I (instances st) (fst input) (snd input)) as [[l b] m].
  cbn [fst snd] in Hp, Hl, Hn. rewrite <- Hp.
  cbn [buffer midi writer instances fst snd]. repeat split; trivial.
Qed.

(** Through any number of segments, place [k] of the chain holds the
    instance that was there at the start, after one block per segment. *)
Lemma renderSegments_nth reader (segs : list (Z * Z)) :
  forall (st : RenderState Instance Buffer MidiBuffer Writer) k instance,
    nth_error (instances st) k = Some instance ->
    exists inputs,
      List.length inputs = List.length segs
      /\ nth_error (instances (renderSegments A I reader segs st)) k
         = Some (processed instance inputs).
Proof.
  induction segs as [|seg segs IH]; intros st k instance H.
  - exists []. split; [reflexivity | exact H].
  - destruct (renderSegment_passes reader (fst seg) (snd seg) st)
      as (_ & _ & _ & _ & Hn).
    specialize (Hn k instance H).
    destruct (IH _ k _ Hn) as (inputs & Hlen & Hk).
    eexists (_ :: inputs). split; [cbn [List.length]; now rewrite Hlen|].
    exact Hk.
Qed.

(** [main] from the instance loop on. *)
Lemma main_from_chain fuel disk argv args out reader slots :
  reachesChain disk argv args out reader slots ->
  main P cwd F A I pf fuel disk argv
    = match loadInstances P cwd F I pf disk reader args slots [] [] with
      | inl err => Exits (mkOutcome 5 out err None)
      | inr (chainInstances, warnings) =>
          match openWriter P F A disk reader (fileOf P cwd (output args)) with
          | inl (code, message) =>
              Exits (mkOutcome code out (warnings ++ [message]) None)
          | inr w =>
              match renderLoop A I fuel reader (blockSize args)
                      (lengthInSamples reader)
                      (renderStart A reader args chainInstances w) with
              | None => Diverges
              | Some st => Exits (mkOutcome 0 out warnings (Some st))
              end
          end
      end.
Proof.
  intros (Hargs & Hin & Hchain & Hreader & Hslots).
  unfold main. rewrite Hargs. cbn [negb]. rewrite Hin, Hchain. cbn [negb].
  rewrite Hreader.
  destruct (loadChain P cwd F disk (fileOf P cwd (chain args)) [] "") as [[ok s] e].
  cbn [fst] in Hslots. injection Hslots as -> ->. reflexivity.
Qed.

Lemma loads_dec reader args slot :
  {bypass slot = false -> loadedInstance I pf reader args slot <> None}
  + {~ (bypass slot = false -> loadedInstance I pf reader args slot <> None)}.
Proof.
  destruct (bypass slot); [left; discriminate|].
  destruct (loadedInstance I pf reader args slot).
  - left. discriminate.
  - right. intros H. now apply H.
Qed.

(** The outcome of the loop, when it is not the early return. *)
Lemma loadInstances_inr disk reader args slots acc cerr chainInstances warnings :
  loadInstances P cwd F I pf disk reader args slots acc cerr
    = inr (chainInstances, warnings) ->
  exists added,
    chainInstances = acc ++ added
    /\ map Some added = map (slotInstance I pf disk reader args) (filter live slots)
    /\ warnings
       = cerr ++ flat_map (slotWarnings I pf disk reader args) (filter live slots).
Proof.
  intros Hrun.
  destruct (Forall_Exists_dec _ (loads_dec reader args) slots) as [Hall|Hex].
  - destruct (loadInstances_loaded disk reader args slots Hall acc cerr)
      as (added & Hm & Hl).
    rewrite Hl in Hrun. injection Hrun as <- <-. now exists added.
  - exfalso.
    assert (Hex' : Exists (fun slot => bypass slot = false
                     /\ loadedInstance I pf reader args slot = None) slots).
    { eapply Exists_impl; [|exact Hex]. intros slot Hn. cbn in Hn.
      destruct (bypass slot); [exfalso; apply Hn; discriminate|].
      destruct (loadedInstance I pf reader args slot).
      - exfalso. apply Hn. discriminate.
      - now split. }
    destruct (loadInstances_failure disk reader args slots Hex' acc cerr) as (err & He).
    congruence.
Qed.

Lemma to_int_range (z : Z) : Int.is_int (Int.to_int z).
Proof.
  unfold Int.is_int, Int.to_int.
  pose proof (Z.mod_pos_bound (z + 2 ^ 31) (2 ^ 32) ltac:(lia)). lia.
Qed.

Lemma getIntValue_range (s : string) : Int.is_int (JString.getIntValue s).
Proof.
  unfold JString.getIntValue.
  destruct (JString.findEndOfWhitespace s) as [|c t]; [apply to_int_range|].
  destruct (Ascii.eqb_spec c "-"%char) as [->|Hc]; [apply to_int_range|].
  destruct c as [[] [] [] [] [] [] [] []]; try apply to_int_range.
Qed.

Lemma parseArgsFrom_below_2_31 (rest : list string) :
  forall a, blockSize a < 2 ^ 31 ->
            blockSize (snd (fst (parseArgsFrom rest a))) < 2 ^ 31.
Proof.
  induction rest as [|w|w v l IHl IHvl] using words_ind; intros a Ha.
  - exact Ha.
  - simpl. split_ifs; exact Ha.
  - rewrite !parseArgsFrom_step.
    split_ifs; trivial; try (apply IHl; simpl; trivial); try now apply IHvl.
    rewrite jmax_is_max. pose proof (getIntValue_range v) as Hr.
    unfold Int.is_int in Hr. lia.
Qed.

(** The block size [main] works with. *)
Lemma parseArgs_blockSize_range argv args out ok :
  parseArgs argv defaultArgs = (ok, args, out) -> 64 <= blockSize args < 2 ^ 31.
Proof.
  intros H.
  pose proof (parseArgsFrom_at_least_64 (tl argv) defaultArgs) as H1.
  pose proof (parseArgsFrom_below_2_31 (tl argv) defaultArgs) as H2.
  unfold parseArgs in H. rewrite H in H1, H2. cbn in H1, H2. lia.
Qed.

(** [main] when every stage succeeds: exit code 0 after the segments of the
    input were rendered. *)
Lemma main_renders fuel disk argv args out reader slots chainInstances warnings w :
  reachesChain disk argv args out reader slots ->
  loadInstances P cwd F I pf disk reader args slots [] []
    = inr (chainInstances, warnings) ->
  openWriter P F A disk reader (fileOf P cwd (output args)) = inr w ->
  0 <= lengthInSamples reader < 2 ^ 63 ->
  (Z.to_nat (segmentCount (lengthInSamples reader) (blockSize args)) <= fuel)%nat ->
  main P cwd F A I pf fuel disk argv
    = Exits (mkOutcome 0 out warnings
               (Some (renderSegments A I reader
                        (segments (lengthInSamples reader) (blockSize args))
                        (renderStart A reader args chainInstances w)))).
Proof.
  intros Hreach Hload Hopen Hlen Hfuel.
  rewrite (main_from_chain fuel disk argv args out reader slots Hreach).
  rewrite Hload, Hopen.
  destruct Hreach as (Hargs & _).
  pose proof (parseArgs_blockSize_range argv args out true Hargs) as HB.
  rewrite (renderLoop_all_segments A I reader (blockSize args)
             (lengthInSamples reader) fuel
             (renderStart A reader args chainInstances w));
    try lia; reflexivity.
Qed.

(** C1. A resolved slot list whose live (not bypassed) slots all load: the
    loop ends without the early return; the instances it leaves are the
    instances of the live slots, one for each, in the order of the slots, so
    their number is the number of live slots; a bypassed slot is skipped
    without any effect.  In a render the buffer of every segment goes through
    these instances in that order: an instance receives what the instances
    before it left and the instances after it receive what it leaves; and
    [main] renders with exactly these instances.  With the writer opened and
    enough fuel, [main] ends with exit code 0 and leaves what rendering the
    segments one after the other leaves from the state that has position 0,
    a fresh buffer and exactly these instances.  From whatever state a
    segment starts, the buffer it leaves and writes is what the frames read
    become on the way through the instances of that state from the first to
    the last; the instance at place [k] receives what the [k] instances
    before it made of the frames, and what it becomes stays at place [k].
    So through all segments place [k] holds the instance of the [k]-th live
    slot, after one block per segment. *)
Theorem chain_instances_follow_manifest_order :
  forall disk reader args slots,
    Forall (fun slot => bypass slot = false ->
                        loadedInstance I pf reader args slot <> None) slots ->
    exists chainInstances warnings,
      loadInstances P cwd F I pf disk reader args slots [] []
        = inr (chainInstances, warnings)
      /\ map Some chainInstances
         = map (slotInstance I pf disk reader args) (filter live slots)
      /\ List.length chainInstances = List.length (filter live slots)
      /\ (forall slot rest acc cerr,
            bypass slot = true ->
            loadInstances P cwd F I pf disk reader args (slot :: rest) acc cerr
              = loadInstances P cwd F I pf disk reader args rest acc cerr)
      /\ (forall pre instance post buffer midi,
            chainInstances = pre ++ instance :: post ->
            runChain I chainInstances buffer midi
              = let '(pre', b1, m1) := runChain I pre buffer midi in
                let '(instance', b2, m2) := processBlock I instance b1 m1 in
                let '(post', b3, m3) := runChain I post b2 m2 in
                (pre' ++ instance' :: post', b3, m3))
      /\ (forall pos block st,
            renderSegment A I reader pos block st
              = let '(instances', buffer', midi') :=
                  runChain I (instances st)
                    (readSamples A reader (clearBuffer A (buffer st)) 0 block pos true true)
                    (clearMidi A (midi st)) in
                mkRenderState (Int.to_int64 (pos + block)) buffer' midi' instances'
                  (writeFromAudioSampleBuffer A (writer st) buffer' 0 block))
      /\ (forall fuel argv out,
            reachesChain disk argv args out reader slots ->
            main P cwd F A I pf fuel disk argv
              = match openWriter P F A disk reader (fileOf P cwd (output args)) with
                | inl (code, message) =>
                    Exits (mkOutcome code out (warnings ++ [message]) None)
                | inr w =>
                    match renderLoop A I fuel reader (blockSize args)
                            (lengthInSamples reader)
                            (renderStart A reader args chainInstances w) with
                    | None => Diverges
                    | Some st => Exits (mkOutcome 0 out warnings (Some st))
                    end
                end)
      /\ (forall fuel argv out w,
            reachesChain disk argv args out reader slots ->
            openWriter P F A disk reader (fileOf P cwd (output args)) = inr w ->
            0 <= lengthInSamples reader < 2 ^ 63 ->
            (Z.to_nat (segmentCount (lengthInSamples reader) (blockSize args))
               <= fuel)%nat ->
            main P cwd F A I pf fuel disk argv
              = Exits (mkOutcome 0 out warnings
                  (Some (renderSegments A I reader
                           (segments (lengthInSamples reader) (blockSize args))
                           (mkRenderState 0
                              (newBuffer A (Int.to_int (numChannels reader))
                                 (blockSize args))
                              (newMidi A) chainInstances w)))))
      /\ (forall pos block (st : RenderState Instance Buffer MidiBuffer Writer),
            let input :=
              (readSamples A reader (clearBuffer A (buffer st)) 0 block pos true true,
               clearMidi A (midi st)) in
            buffer (renderSegment A I reader pos block st)
              = fst (passThrough (instances st) input)
            /\ midi (renderSegment A I reader pos block st)
              = snd (passThrough (instances st) input)
            /\ writer (renderSegment A I reader pos block st)
              = writeFromAudioSampleBuffer A (writer st)
                  (fst (passThrough (instances st) input)) 0 block
            /\ List.length (instances (renderSegment A I reader pos block st))
              = List.length (instances st)
            /\ (forall k instance,
                  nth_error (instances st) k = Some instance ->
                  nth_error (instances (renderSegment A I reader pos block st)) k
                  = Some (fst (fst (processBlock I instance
                        (fst (passThrough (firstn k (instances st)) input))
                        (snd (passThrough (firstn k (instances st)) input)))))))
      /\ (forall (segs : list (Z * Z)) w k instance,
            nth_error chainInstances k = Some instance ->
            exists inputs,
              List.length inputs = List.length segs
              /\ nth_error
                   (instances
                      (renderSegments A I reader segs
                         (mkRenderState 0
                            (newBuffer A (Int.to_int (numChannels reader))
                               (blockSize args))
                            (newMidi A) chainInstances w))) k
                 = Some (processed instance inputs))
      /\ (forall instance (later : list Instance) input,
            passThrough (instance :: later) input
            = passThrough later
                (snd (fst (processBlock I instance (fst input) (snd input))),
                 snd (processBlock I instance (fst input) (snd input))))
      /\ (forall input, passThrough [] input = input).
Proof.
  intros disk reader args slots Hall.
  destruct (loadInstances_loaded disk reader args slots Hall [] [])
    as (added & Hm & Hl).
  cbn [app] in Hl.
  exists added, (flat_map (slotWarnings I pf disk reader args) (filter live slots)).
  split; [exact Hl|]. split; [exact Hm|]. split.
  { rewrite <- (length_map Some added), Hm. apply length_map. }
  split; [intros; now apply loadInstances_bypassed|]. split.
  { intros pre instance post buffer midi ->.
    rewrite runChain_app. destruct (runChain I pre buffer midi) as [[pre' b1] m1].
    cbn [runChain]. destruct (processBlock I instance b1 m1) as [[instance' b2] m2].
    destruct (runChain I post b2 m2) as [[post' b3] m3]. reflexivity. }
  split; [reflexivity|].
  split.
  { intros fuel argv out Hreach.
    rewrite (main_from_chain fuel disk argv args out reader slots Hreach).
    now rewrite Hl. }
  split.
  { intros fuel argv out w Hreach Hopen Hlen Hfuel.
    now rewrite (main_renders fuel disk argv args out reader slots added _ w
                   Hreach Hl Hopen Hlen Hfuel). }
  split; [intros pos block st; apply renderSegment_passes|].
  split.
  { intros segs w k instance Hk. apply renderSegments_nth. exact Hk. }
  split; [intros instance later [b m]; apply passThrough_cons | reflexivity].
Qed.

Lemma loadPlugin_withStateRestore restore file rate b n error :
  loadPlugin (withStateRestore restore I) file pf rate b n error
    = loadPlugin I file pf rate b n error.
Proof. reflexivity. Qed.

(** C6. A live slot whose plugin loads and whose preset file does not
    exist: whatever the state-restore entry point of the plugin interface
    does, [applyPreset] returns false with the instance as [loadPlugin] left
    it, that instance is the one added for the slot, the warning naming the
    preset is printed, and the loop goes on with the slots that follow.  When
    the chain is set up and the writer opened, the warning is among those of
    the run and [main] renders all segments and ends with exit code 0.  The
    warning is the line [Warning: failed to apply preset ] followed by the
    preset path of the slot; a chain of this slot alone gives the instance
    and that one line on standard error. *)
Theorem missing_preset_warns_and_continues :
  forall restore disk reader args slot rest acc cerr instance,
    bypass slot = false ->
    loadedInstance I pf reader args slot = Some instance ->
    JString.isNotEmpty (presetPath slot) = true ->
    existsAsFile F disk (fileOf P cwd (presetPath slot)) = false ->
    let I' := withStateRestore restore I in
    let warning := presetWarning (presetPath slot) in
    applyPreset P cwd F I' disk instance (presetPath slot) = (false, instance)
    /\ applyPreset P cwd F I disk instance (presetPath slot) = (false, instance)
    /\ slotInstance I' pf disk reader args slot = Some instance
    /\ loadInstances P cwd F I' pf disk reader args (slot :: rest) acc cerr
       = loadInstances P cwd F I' pf disk reader args rest
           (acc ++ [instance]) (cerr ++ [warning])
    /\ loadInstances P cwd F I pf disk reader args (slot :: rest) acc cerr
       = loadInstances P cwd F I pf disk reader args rest
           (acc ++ [instance]) (cerr ++ [warning])
    /\ (forall fuel argv out slots chainInstances warnings w,
          reachesChain disk argv args out reader slots ->
          In slot slots ->
          loadInstances P cwd F I pf disk reader args slots [] []
            = inr (chainInstances, warnings) ->
          openWriter P F A disk reader (fileOf P cwd (output args)) = inr w ->
          0 <= lengthInSamples reader < 2 ^ 63 ->
          (Z.to_nat (segmentCount (lengthInSamples reader) (blockSize args))
             <= fuel)%nat ->
          In warning warnings
          /\ main P cwd F A I pf fuel disk argv
             = Exits (mkOutcome 0 out warnings
                        (Some (renderSegments A I reader
                                 (segments (lengthInSamples reader) (blockSize args))
                                 (renderStart A reader args chainInstances w)))))
    /\ warning = ("Warning: failed to apply preset " ++ presetPath slot
                    ++ String (ascii_of_nat 10) "")%string
    /\ loadInstances P cwd F I' pf disk reader args [slot] [] []
       = inr ([instance],
              [("Warning: failed to apply preset " ++ presetPath slot
                  ++ String (ascii_of_nat 10) "")%string])
    /\ loadInstances P cwd F I pf disk reader args [slot] [] []
       = inr ([instance],
              [("Warning: failed to apply preset " ++ presetPath slot
                  ++ String (ascii_of_nat 10) "")%string]).
Proof.
  intros restore disk reader args slot rest acc cerr instance
         Hb Hload Hpreset Hmissing I' warning.
  assert (Hempty : JString.isEmpty (presetPath slot) = false).
  { unfold JString.isNotEmpty in Hpreset. now destruct (JString.isEmpty _). }
  assert (Happly : forall J : Plugins,
             applyPreset P cwd F J disk instance (presetPath slot) = (false, instance)).
  { intros J. unfold applyPreset. now rewrite Hempty, Hmissing. }
  assert (Hstep : forall J : Plugins,
             loadPlugin J (fileOf P cwd (pluginPath slot)) pf (sampleRate reader)
               (blockSize args) (Int.to_int (numChannels reader)) ""
             = loadPlugin I (fileOf P cwd (pluginPath slot)) pf (sampleRate reader)
                 (blockSize args) (Int.to_int (numChannels reader)) "" ->
             loadInstances P cwd F J pf disk reader args (slot :: rest) acc cerr
             = loadInstances P cwd F J pf disk reader args rest
                 (acc ++ [instance]) (cerr ++ [warning])).
  { intros J HJ. cbn [loadInstances]. rewrite Hb, HJ.
    unfold loadedInstance in Hload.
    destruct (loadPlugin I _ pf _ _ _ "") as [o e]. cbn [fst] in Hload. subst o.
    now rewrite Hpreset, Happly. }
  split; [apply Happly|]. split; [apply Happly|]. split.
  { unfold slotInstance, loadedInstance, I'. rewrite loadPlugin_withStateRestore.
    unfold loadedInstance in Hload. rewrite Hload, Hpreset.
    now rewrite Happly. }
  assert (Hone : forall J : Plugins,
             loadPlugin J (fileOf P cwd (pluginPath slot)) pf (sampleRate reader)
               (blockSize args) (Int.to_int (numChannels reader)) ""
             = loadPlugin I (fileOf P cwd (pluginPath slot)) pf (sampleRate reader)
                 (blockSize args) (Int.to_int (numChannels reader)) "" ->
             loadInstances P cwd F J pf disk reader args [slot] [] []
             = inr ([instance],
                    [("Warning: failed to apply preset " ++ presetPath slot
                        ++ String (ascii_of_nat 10) "")%string])).
  { intros J HJ. cbn [loadInstances]. rewrite Hb, HJ.
    unfold loadedInstance in Hload.
    destruct (loadPlugin I _ pf _ _ _ "") as [o e]. cbn [fst] in Hload. subst o.
    now rewrite Hpreset, Happly. }
  split; [apply Hstep, loadPlugin_withStateRestore|].
  split; [now apply Hstep|].
  split.
  { intros fuel argv out slots chainInstances warnings w
           Hreach Hin Hrun Hopen Hlen Hfuel.
    split.
    - destruct (loadInstances_inr disk reader args slots [] [] chainInstances warnings
                  Hrun) as (added & _ & _ & ->).
      cbn [app]. apply in_flat_map. exists slot. split.
      + apply filter_In. split; [exact Hin|]. unfold live. now rewrite Hb.
      + unfold slotWarnings. rewrite Hload, Hpreset, Happly. now left.
    - now apply main_renders with (slots := slots). }
  split; [reflexivity|].
  split; [apply Hone, loadPlugin_withStateRestore | now apply Hone].
Qed.

(** C3, as the code has it. A manifest with a plugin list that is empty,
    or from which no entry gives a slot with a plugin path: [loadChain] fails
    with a manifest error, the run of [main] is the same whatever the plugin
    interface and the plugin formats are (they are not consulted), and it ends
    with exit code 4 once the input was opened.  A manifest that gives slots
    resolves to them whether they are bypassed or not; when all of them are
    bypassed the instance loop ends with no instance, whatever the plugin
    interface and the plugin formats are. *)
Theorem manifest_without_plugin_paths_fails :
  forall disk argv entries,
    let args := snd (fst (parseArgs argv defaultArgs)) in
    let chainFile := fileOf P cwd (chain args) in
    let baseDir := getParentDirectory P chainFile in
    pluginList (JSON_parse F (loadFileAsString F disk chainFile)) = Some entries ->
    let resolved := flat_map (slotsOfEntry P cwd F baseDir) entries in
    (resolved = [] ->
       exists error,
         loadChain P cwd F disk chainFile [] "" = (false, [], error)
         /\ (error = "Chain JSON has no plugins."
             \/ error = "Chain JSON has no valid plugin paths.")
         /\ (entries = [] -> error = "Chain JSON has no plugins.")
         /\ (forall (I' : Plugins) (pf' : Formats) fuel,
               main P cwd F A I' pf' fuel disk argv = main P cwd F A I pf fuel disk argv)
         /\ (forall fuel out reader,
               parseArgs argv defaultArgs = (true, args, out) ->
               existsAsFile F disk (fileOf P cwd (input args)) = true ->
               existsAsFile F disk chainFile = true ->
               createReaderFor A disk (fileOf P cwd (input args)) = Some reader ->
               main P cwd F A I pf fuel disk argv
                 = Exits (mkOutcome 4 out [(error ++ newline)%string] None)))
    /\ (resolved <> [] ->
          loadChain P cwd F disk chainFile [] "" = (true, resolved, "")
          /\ (forallb bypass resolved = true ->
                forall (I' : Plugins) (pf' : Formats) reader args',
                  loadInstances P cwd F I' pf' disk reader args' resolved [] []
                    = inr ([], []))).
Proof.
  intros disk argv entries args chainFile baseDir Hlist resolved.
  pose proof (loadChainData_pluginList P cwd F baseDir _ entries [] "" Hlist) as Hchain.
  cbn [app] in Hchain. fold resolved in Hchain.
  change (loadChainData P cwd F baseDir
            (JSON_parse F (loadFileAsString F disk chainFile)) [] "")
    with (loadChain P cwd F disk chainFile [] "") in Hchain.
  split.
  - intros Hnone. rewrite Hnone in Hchain.
    set (error := match entries with
                  | [] => "Chain JSON has no plugins."
                  | _ :: _ => "Chain JSON has no valid plugin paths."
                  end).
    assert (Hfail : loadChain P cwd F disk chainFile [] "" = (false, [], error)).
    { rewrite Hchain. unfold error. now destruct entries. }
    exists error. split; [exact Hfail|]. split; [|split; [|split]].
    + unfold error. destruct entries; auto.
    + intros ->. reflexivity.
    + intros I' pf' fuel. unfold main.
      fold args. destruct (parseArgs argv defaultArgs) as [[ok a] out].
      cbn [fst snd] in args. subst args. fold chainFile.
      destruct ok; cbn [negb]; [|reflexivity].
      destruct (existsAsFile F disk (fileOf P cwd (input a))); cbn [negb]; [|reflexivity].
      destruct (existsAsFile F disk chainFile); cbn [negb]; [|reflexivity].
      destruct (createReaderFor A disk (fileOf P cwd (input a))); [|reflexivity].
      now rewrite Hfail.
    + intros fuel out reader Hargs Hin Hexists Hreader.
      unfold main. rewrite Hargs. cbn [negb]. fold chainFile.
      now rewrite Hin, Hexists, Hreader, Hfail.
  - intros Hsome. split.
    + rewrite Hchain. destruct entries; [now contradiction Hsome|].
      now destruct resolved.
    + intros Hall I' pf' reader args'.
      clear Hchain Hsome. induction resolved as [|slot rest IH]; [reflexivity|].
      cbn [forallb] in Hall. apply andb_prop in Hall as [Hb Hrest].
      cbn [loadInstances]. rewrite Hb. now apply IH.
Qed.

(** A reader that differs in its bit depth only. *)
Definition withBitsPerSample (bits : Z) (reader : AudioFormatReader SampleRate Samples)
  : AudioFormatReader SampleRate Samples :=
  {| sampleRate := sampleRate reader;
     bitsPerSample := bits;
     lengthInSamples := lengthInSamples reader;
     numChannels := numChannels reader;
     samples := samples reader |}.

(** C7. An output file whose extension no registered format matches: the
    format used is the one registered for [wav] when there is one, and the
    writer is then requested from it; when there is none either, and only
    then, the format lookup fails, with exit code 6 and its message.  Every
    failure between the creation of the output stream and the writer has exit
    code 6, and [main] ends with that code and message. *)
Theorem unknown_extension_falls_back_to_wav :
  forall disk reader outputFile,
    findFormatForFileExtension A (outputExtension P outputFile) = None ->
    let stream :=
      createOutputStream F (createDirectory F disk (getParentDirectory P outputFile))
        outputFile in
    findOutputFormat P A outputFile = findFormatForFileExtension A "wav"
    /\ (forall wav outStream,
          findFormatForFileExtension A "wav" = Some wav ->
          stream = Some outStream ->
          openWriter P F A disk reader outputFile
            = match createWriterFor A wav outStream (sampleRate reader)
                      (Int.to_uint (Int.to_int (numChannels reader))) 16 [] 0 with
              | Some w => inr w
              | None => inl (6, ("Failed to create output writer." ++ newline)%string)
              end)
    /\ (forall outStream,
          stream = Some outStream ->
          (findFormatForFileExtension A "wav" = None
           <-> openWriter P F A disk reader outputFile
               = inl (6, ("No audio writer available for output file."
                          ++ newline)%string)))
    /\ (forall code message,
          openWriter P F A disk reader outputFile = inl (code, message) -> code = 6)
    /\ (forall fuel argv args out slots chainInstances warnings code message,
          reachesChain disk argv args out reader slots ->
          loadInstances P cwd F I pf disk reader args slots [] []
            = inr (chainInstances, warnings) ->
          outputFile = fileOf P cwd (output args) ->
          openWriter P F A disk reader outputFile = inl (code, message) ->
          main P cwd F A I pf fuel disk argv
            = Exits (mkOutcome 6 out (warnings ++ [message]) None)).
Proof.
  intros disk reader outputFile Hext stream.
  assert (Hfmt : findOutputFormat P A outputFile = findFormatForFileExtension A "wav").
  { unfold findOutputFormat. now rewrite Hext. }
  assert (Hcode : forall code message,
             openWriter P F A disk reader outputFile = inl (code, message) -> code = 6).
  { intros code message. unfold openWriter.
    destruct (createOutputStream F _ outputFile); [|now intros [= <- _]].
    destruct (findOutputFormat P A outputFile); [|now intros [= <- _]].
    destruct (createWriterFor A _ _ _ _ _ _ _); [discriminate|now intros [= <- _]]. }
  split; [exact Hfmt|]. split; [|split; [|split]].
  - intros wav outStream Hwav Hstream. unfold openWriter. fold stream.
    rewrite Hstream, Hfmt, Hwav.
    now destruct (createWriterFor A wav outStream _ _ _ _ _).
  - intros outStream Hstream. unfold openWriter. fold stream.
    rewrite Hstream, Hfmt. split.
    + now intros ->.
    + destruct (findFormatForFileExtension A "wav") as [wav|]; [|reflexivity].
      destruct (createWriterFor A wav outStream _ _ _ _ _); [discriminate|].
      intros [=].
  - exact Hcode.
  - intros fuel argv args out slots chainInstances warnings code message
           Hreach Hload -> Hopen.
    rewrite (main_from_chain fuel disk argv args out reader slots Hreach).
    rewrite Hload, Hopen. now rewrite (Hcode code message Hopen).
Qed.

(** C10. The writer is requested with the sample rate of the reader, with
    its channel count (which the conversions to [int] and back leave as it
    is), with 16 bits per sample, no metadata and quality 0; the bit depth of
    the input has no part in it. *)
Theorem writer_has_input_rate_channels_and_16_bits :
  forall disk reader outputFile,
    Int.is_uint (numChannels reader) ->
    openWriter P F A disk reader outputFile
      = match createOutputStream F
                (createDirectory F disk (getParentDirectory P outputFile)) outputFile with
        | None => inl (6, ("Failed to create output file." ++ newline)%string)
        | Some outStream =>
            match findOutputFormat P A outputFile with
            | None =>
                inl (6, ("No audio writer available for output file." ++ newline)%string)
            | Some outputFormat =>
                match createWriterFor A outputFormat outStream (sampleRate reader)
                        (numChannels reader) 16 [] 0 with
                | None => inl (6, ("Failed to create output writer." ++ newline)%string)
                | Some w => inr w
                end
            end
        end
    /\ (forall bits,
          openWriter P F A disk (withBitsPerSample bits reader) outputFile
            = openWriter P F A disk reader outputFile).
Proof.
  intros disk reader outputFile Hchannels. split.
  - unfold openWriter. now rewrite (to_uint_to_int _ Hchannels).
  - intros bits. reflexivity.
Qed.

End Chain.

(* ================================================================== *)
(** ** The theorems on the concrete host *)

Example getIntValue_10 : JString.getIntValue "10" = 10.
Proof. reflexivity. Qed.

Example getIntValue_signed : JString.getIntValue "  -42abc" = -42.
Proof. reflexivity. Qed.

Example getIntValue_wraps : JString.getIntValue "4294967306" = 10.
Proof. reflexivity. Qed.

Example getIntValue_plus : JString.getIntValue "+70" = 70.
Proof. reflexivity. Qed.

Example getIntValue_no_number : JString.getIntValue "many" = 0.
Proof. reflexivity. Qed.

Example trim_both_ends : JString.trim "  a b  " = "a b".
Proof. reflexivity. Qed.

Example cleanPath_nested :
  cleanPath (quoted dquote (quoted squote " a b ")) = "a b".
Proof. reflexivity. Qed.

Example cleanPath_single_outside :
  cleanPath (quoted squote (quoted dquote "x")) = quoted dquote "x".
Proof. reflexivity. Qed.

Example manifestA_resolves :
  loadChain Demo.platform Demo.cwd Demo.files Demo.disk (mkFile "/chains/a.json") [] ""
    = (true, Demo.slotsA, "").
Proof. reflexivity. Qed.

Example runA :
  Demo.run 2 (Demo.argv "/chains/a.json" "/out/result.ogg")
    = Exits (mkOutcome 0 []
        ["Warning: failed to apply preset /chains/missing.fxp" ++ newline]%string
        (Some (mkRenderState 1000 ["gain"; "eq"; "reverb"] tt
                 [Demo.loaded "gain"; Demo.loaded "eq";
                  Demo.mkPlugin "reverb" Demo.warm 3 1 true]
                 (Demo.mkWavWriter "WAV" 44100 1 16
                    [(["gain"; "eq"; "reverb"], 512); (["gain"; "eq"; "reverb"], 488)])))).
Proof. vm_compute. reflexivity. Qed.

Example runD_plugin_fails_to_load :
  Demo.run 2 (Demo.argv "/chains/d.json" "/out/result.wav")
    = Exits (mkOutcome 5 []
        [("Failed to load plugin: /chains/notes.txt" ++ newline)%string;
         ("No plugin types found for /chains/notes.txt" ++ newline)%string] None).
Proof. vm_compute. reflexivity. Qed.

Lemma reachesChain_A :
  reachesChain Demo.platform Demo.cwd Demo.files Demo.audio Demo.disk
    (Demo.argv "/chains/a.json" "/out/result.ogg") Demo.argsA [] Demo.voice Demo.slotsA.
Proof. repeat split. Defined.

Lemma slotsA_load :
  Forall (fun slot => bypass slot = false ->
            loadedInstance Demo.platform Demo.cwd Demo.plugin Demo.formats
              Demo.voice Demo.argsA slot <> None) Demo.slotsA.
Proof.
  repeat (apply Forall_cons; [intros _; vm_compute; discriminate|]). apply Forall_nil.
Defined.

(** Manifest A has four slots, the second bypassed: the chain has the
    instances of the first, third and fourth slot in that order; the run
    writes two blocks, each of which went through gain, eq and reverb in that
    order (the plugins of the concrete host append their name to the block);
    and so does a segment from any state with these instances. *)
Lemma chain_instances_witness :
  let chainA := [Demo.mkPlugin "gain" [] 0 1 true; Demo.mkPlugin "eq" [] 0 1 true;
                 Demo.mkPlugin "reverb" Demo.warm 3 1 true] in
  let line := String.append "Warning: failed to apply preset /chains/missing.fxp"
                (String (ascii_of_nat 10) "") in
  loadInstances Demo.platform Demo.cwd Demo.files Demo.plugin Demo.formats
    Demo.disk Demo.voice Demo.argsA Demo.slotsA [] [] = inr (chainA, [line])
  /\ Demo.run 2 (Demo.argv "/chains/a.json" "/out/result.ogg")
     = Exits (mkOutcome 0 [] [line]
         (Some (mkRenderState 1000 ["gain"; "eq"; "reverb"] tt chainA
                  (Demo.mkWavWriter "WAV" 44100 1 16
                     [(["gain"; "eq"; "reverb"], 512);
                      (["gain"; "eq"; "reverb"], 488)]))))
  /\ writer (renderSegment Demo.audio Demo.plugin Demo.voice 0 512
               (mkRenderState 0 ["stale"] tt chainA Demo.wav))
     = Demo.mkWavWriter "WAV" 44100 1 16 [(["gain"; "eq"; "reverb"], 512)].
Proof.
  intros chainA line.
  destruct (chain_instances_follow_manifest_order Demo.platform Demo.cwd Demo.files
              Demo.audio Demo.plugin Demo.formats Demo.disk Demo.voice Demo.argsA
              Demo.slotsA slotsA_load)
    as (chainInstances & warnings & H1 & _ & _ & _ & _ & _ & _ & Hmain & Hsegment & _).
  assert (E : @inr (list string) _ (chainInstances, warnings) = inr (chainA, [line])).
  { rewrite <- H1. vm_compute. reflexivity. }
  injection E as -> ->.
  split; [exact H1|]. split.
  - unfold Demo.run.
    rewrite (Hmain 2%nat (Demo.argv "/chains/a.json" "/out/result.ogg") [] Demo.wav
               reachesChain_A eq_refl ltac:(cbn; lia) ltac:(vm_compute; lia)).
    vm_compute. reflexivity.
  - destruct (Hsegment 0 512 (mkRenderState 0 ["stale"] tt chainA Demo.wav))
      as (_ & _ & Hw & _).
    rewrite Hw. vm_compute. reflexivity.
Defined.

(** 1000 frames in blocks of 512: two segments, of 512 and 488 frames. *)
Lemma render_loop_segments_witness :
  renderLoop Demo.audio Demo.plugin 2 Demo.voice 512 1000 Demo.start
    = Some (renderSegments Demo.audio Demo.plugin Demo.voice
              [(0, 512); (512, 488)] Demo.start)
  /\ Z.of_nat (List.length (segments 1000 512)) = 2.
Proof.
  destruct (render_loop_segments Demo.audio Demo.plugin Demo.voice 512 1000 2 Demo.start)
    as (H1 & H2 & _); [lia | lia | reflexivity | vm_compute; lia |].
  split; [exact H1 | exact H2].
Defined.

(** Manifest B has one entry, and that entry is bypassed: removing the
    bypassed slots leaves nothing, yet [loadChain] succeeds with the slot, and
    [main] goes on to render the input unchanged and ends with exit code 0
    instead of the manifest error. *)
Lemma all_bypassed_manifest_resolves :
  let bypassed := mkChainSlot "/chains/gain.vst3" "" true in
  pluginList Demo.manifestB
    = Some [Demo.entry "gain.vst3" [("bypass", VBool true)]]
  /\ loadChain Demo.platform Demo.cwd Demo.files Demo.disk (mkFile "/chains/b.json") [] ""
     = (true, [bypassed], "")
  /\ filter live [bypassed] = []
  /\ fst (fst (loadChain Demo.platform Demo.cwd Demo.files Demo.disk
                 (mkFile "/chains/b.json") [] "")) <> false
  /\ Demo.run 2 (Demo.argv "/chains/b.json" "/out/result.wav")
     = Exits (mkOutcome 0 [] []
         (Some (mkRenderState 1000 [] tt []
                  (Demo.mkWavWriter "WAV" 44100 1 16 [([], 512); ([], 488)])))).
Proof.
  repeat split; try reflexivity.
  vm_compute. discriminate.
Qed.

(** Manifest C, whose plugin list is empty, and manifest B, whose only slot
    is bypassed. *)
Lemma manifest_without_plugin_paths_witness :
  (exists error,
     loadChain Demo.platform Demo.cwd Demo.files Demo.disk (mkFile "/chains/c.json") [] ""
       = (false, [], error)
     /\ Demo.run 2 (Demo.argv "/chains/c.json" "/out/result.wav")
        = Exits (mkOutcome 4 [] [(error ++ newline)%string] None))
  /\ loadInstances Demo.platform Demo.cwd Demo.files Demo.plugin Demo.formats Demo.disk
       Demo.voice Demo.argsA [mkChainSlot "/chains/gain.vst3" "" true] [] []
     = inr ([], []).
Proof.
  split.
  - destruct (manifest_without_plugin_paths_fails Demo.platform Demo.cwd Demo.files
                Demo.audio Demo.plugin Demo.formats Demo.disk
                (Demo.argv "/chains/c.json" "/out/result.wav") [] eq_refl)
      as [Hfail _].
    destruct (Hfail eq_refl) as (error & H1 & _ & _ & _ & H5).
    exists error. split; [exact H1|].
    apply (H5 2%nat [] Demo.voice); reflexivity.
  - destruct (manifest_without_plugin_paths_fails Demo.platform Demo.cwd Demo.files
                Demo.audio Demo.plugin Demo.formats Demo.disk
                (Demo.argv "/chains/b.json" "/out/result.wav")
                [Demo.entry "gain.vst3" [("bypass", VBool true)]] eq_refl)
      as [_ Hok].
    destruct (Hok ltac:(discriminate)) as [_ Hnone].
    apply (Hnone eq_refl Demo.plugin Demo.formats Demo.voice Demo.argsA).
Defined.

(** The eq slot of manifest A, whose preset [missing.fxp] is not on the
    disk, with a state-restore entry point that would rename the plugin: the
    instance is added as it was loaded, the warning line is printed, and the
    run on manifest A prints that line, renders both segments through the
    three instances and ends with exit code 0. *)
Lemma missing_preset_witness :
  let restore := fun (_ : list Byte.byte) (_ : Z) (p : Demo.Plugin) =>
                   Demo.mkPlugin "restored" [] 0 0 false in
  let line := String.append "Warning: failed to apply preset /chains/missing.fxp"
                (String (ascii_of_nat 10) "") in
  loadInstances Demo.platform Demo.cwd Demo.files
    (withStateRestore restore Demo.plugin) Demo.formats Demo.disk Demo.voice Demo.argsA
    [Demo.eqSlot] [Demo.loaded "gain"] []
  = inr ([Demo.loaded "gain"; Demo.mkPlugin "eq" [] 0 1 true], [line])
  /\ loadInstances Demo.platform Demo.cwd Demo.files
       (withStateRestore restore Demo.plugin) Demo.formats Demo.disk Demo.voice
       Demo.argsA [Demo.eqSlot] [] []
     = inr ([Demo.mkPlugin "eq" [] 0 1 true], [line])
  /\ Demo.run 2 (Demo.argv "/chains/a.json" "/out/result.ogg")
     = Exits (mkOutcome 0 [] [line]
         (Some (mkRenderState 1000 ["gain"; "eq"; "reverb"] tt
                  [Demo.mkPlugin "gain" [] 0 1 true; Demo.mkPlugin "eq" [] 0 1 true;
                   Demo.mkPlugin "reverb" Demo.warm 3 1 true]
                  (Demo.mkWavWriter "WAV" 44100 1 16
                     [(["gain"; "eq"; "reverb"], 512);
                      (["gain"; "eq"; "reverb"], 488)])))).
Proof.
  intros restore line.
  destruct (missing_preset_warns_and_continues Demo.platform Demo.cwd Demo.files
              Demo.audio Demo.plugin Demo.formats restore Demo.disk Demo.voice
              Demo.argsA Demo.eqSlot [] [Demo.loaded "gain"] [] (Demo.loaded "eq")
              eq_refl eq_refl eq_refl eq_refl)
    as (_ & _ & _ & Hstep & _ & Hmain & _ & Hone & _).
  split; [rewrite Hstep; reflexivity|].
  split; [rewrite Hone; reflexivity|].
  destruct (Hmain 2%nat (Demo.argv "/chains/a.json" "/out/result.ogg") []
              Demo.slotsA
              [Demo.loaded "gain"; Demo.loaded "eq";
               Demo.mkPlugin "reverb" Demo.warm 3 1 true]
              [line] Demo.wav
              reachesChain_A) as [_ Hrun].
  - right. right. now left.
  - reflexivity.
  - reflexivity.
  - cbn. lia.
  - vm_compute. lia.
  - unfold Demo.run. rewrite Hrun. vm_compute. reflexivity.
Defined.

(** An output file [result.ogg], for which no format is registered. *)
Lemma unknown_extension_witness :
  findOutputFormat Demo.platform Demo.audio (mkFile "/out/result.ogg") = Some "WAV"
  /\ openWriter Demo.platform Demo.files Demo.audio Demo.disk Demo.voice
       (mkFile "/out/result.ogg") = inr Demo.wav.
Proof.
  destruct (unknown_extension_falls_back_to_wav Demo.platform Demo.cwd Demo.files
              Demo.audio Demo.plugin Demo.formats Demo.disk Demo.voice
              (mkFile "/out/result.ogg") eq_refl) as (Hfmt & Hopen & _).
  split.
  - rewrite Hfmt. reflexivity.
  - rewrite (Hopen "WAV" (mkFile "/out/result.ogg") eq_refl eq_refl). reflexivity.
Defined.

(** A 24-bit mono input at 44100 Hz gives a 16-bit mono writer at 44100 Hz. *)
Lemma writer_16_bits_witness :
  bitsPerSample Demo.voice = 24
  /\ openWriter Demo.platform Demo.files Demo.audio Demo.disk Demo.voice
       (mkFile "/out/result.wav")
     = inr (Demo.mkWavWriter "WAV" 44100 1 16 []).
Proof.
  split; [reflexivity|].
  destruct (writer_has_input_rate_channels_and_16_bits Demo.platform Demo.files
              Demo.audio Demo.disk Demo.voice (mkFile "/out/result.wav"))
    as [Hopen _].
  - unfold Int.is_uint. cbn. lia.
  - rewrite Hopen. reflexivity.
Defined.

(* ================================================================== *)
(** * Further properties of the two programs *)

(** ** The command line of the offline renderer *)

(** The test [parseArgs] ends with. *)
Definition complete (a : Args) : bool :=
  JString.isNotEmpty (input a) && JString.isNotEmpty (output a)
  && JString.isNotEmpty (chain a).

Definition isHelp (w : string) : bool :=
  String.eqb w "--help" || String.eqb w "-h".

(** The words [parseArgs] reacts to. *)
Definition isKeyword (w : string) : bool :=
  isHelp w || String.eqb w "--input" || String.eqb w "--output"
  || String.eqb w "--chain" || String.eqb w "--block".

(** An option of the offline renderer with its value. *)
Inductive Setting : Type :=
| SetInput (v : string)
| SetOutput (v : string)
| SetChain (v : string)
| SetBlock (v : string).

Definition settingWords (s : Setting) : list string :=
  match s with
  | SetInput v => ["--input"; v]
  | SetOutput v => ["--output"; v]
  | SetChain v => ["--chain"; v]
  | SetBlock v => ["--block"; v]
  end.

Definition applySetting (a : Args) (s : Setting) : Args :=
  match s with
  | SetInput v => set_input v a
  | SetOutput v => set_output v a
  | SetChain v => set_chain v a
  | SetBlock v => set_blockSize (Int.jmax 64 (JString.getIntValue v)) a
  end.

Lemma parseArgsFrom_single (w : string) (a : Args) :
  parseArgsFrom [w] a = if isHelp w then (false, a, [usageText]) else (complete a, a, []).
Proof. reflexivity. Qed.

Lemma parseArgsFrom_true (rest : list string) :
  forall a a' out,
    parseArgsFrom rest a = (true, a', out) -> complete a' = true /\ out = [].
Proof.
  induction rest as [|w|w v l IHl IHvl] using words_ind; intros a a' out.
  - cbn [parseArgsFrom]. fold (complete a). intros [= H <- <-]. now split.
  - rewrite parseArgsFrom_single. destruct (isHelp w); [discriminate|].
    intros [= H <- <-]. now split.
  - rewrite parseArgsFrom_step.
    split_ifs; try discriminate; try apply IHl; apply IHvl.
Qed.

Lemma parseArgsFrom_without_help (rest : list string) :
  forall a,
    Forall (fun w => isHelp w = false) rest ->
    fst (fst (parseArgsFrom rest a)) = complete (snd (fst (parseArgsFrom rest a)))
    /\ snd (parseArgsFrom rest a) = [].
Proof.
  induction rest as [|w|w v l IHl IHvl] using words_ind; intros a Hno.
  - now split.
  - rewrite parseArgsFrom_single. inversion Hno as [|? ? Hw _]; subst.
    rewrite Hw. now split.
  - rewrite parseArgsFrom_step.
    inversion Hno as [|? ? Hw Hvl]; subst. inversion Hvl as [|? ? _ Hl]; subst.
    unfold isHelp in Hw. rewrite Hw.
    split_ifs; try (now apply IHl); now apply IHvl.
Qed.

(** X1. When [parseArgs] accepts a command line, the input, output and
    chain paths it leaves are all non-empty, nothing was printed, and the
    block size is between 64 and the largest [int]; on a command line
    without a help word it accepts exactly when the three paths it leaves are
    non-empty. *)
Theorem parseArgs_accepts_complete_command_lines :
  forall argv args out,
    parseArgs argv defaultArgs = (true, args, out) ->
    input args <> "" /\ output args <> "" /\ chain args <> ""
    /\ out = []
    /\ 64 <= blockSize args < 2 ^ 31
    /\ (forall argv',
          Forall (fun w => isHelp w = false) argv' ->
          fst (fst (parseArgs argv' defaultArgs))
            = complete (snd (fst (parseArgs argv' defaultArgs)))).
Proof.
  intros argv args out H.
  pose proof (parseArgs_blockSize_range argv args out true H) as HB.
  unfold parseArgs in H. apply parseArgsFrom_true in H as [Hc ->].
  unfold complete, JString.isNotEmpty in Hc.
  apply andb_prop in Hc as [Hc H3]. apply andb_prop in Hc as [H1 H2].
  repeat split; try lia.
  - intros E. rewrite E in H1. discriminate H1.
  - intros E. rewrite E in H2. discriminate H2.
  - intros E. rewrite E in H3. discriminate H3.
  - intros argv' Hno. unfold parseArgs.
    apply parseArgsFrom_without_help.
    destruct argv' as [|w l]; [constructor|]. now inversion Hno.
Qed.

Lemma parseArgs_accepts_witness :
  input Demo.argsA <> "" /\ output Demo.argsA <> "" /\ chain Demo.argsA <> "".
Proof.
  destruct (parseArgs_accepts_complete_command_lines
              (Demo.argv "/chains/a.json" "/out/result.ogg") Demo.argsA [] eq_refl)
    as (H1 & H2 & H3 & _).
  repeat split; assumption.
Defined.

(** X2. A command line made of options of the offline renderer, each with
    its value, is processed option by option from left to right, each one
    overwriting what an earlier one set; a value is taken as it is, also when
    it reads like an option or a help word.  What follows the options is
    parsed from the arguments they leave.  Each option changes its own
    field and no other: [--input], [--output] and [--chain] store the value,
    [--block] stores the maximum of 64 and the integer read from the value.
    So the last [--input], [--output], [--chain] and [--block] of the command
    line decide the four fields. *)
Theorem parseArgs_settings_apply_left_to_right :
  forall (settings : list Setting) (rest : list string) (a : Args),
    parseArgsFrom (flat_map settingWords settings ++ rest) a
      = parseArgsFrom rest (fold_left applySetting settings a)
    /\ parseArgsFrom (flat_map settingWords settings) a
      = (complete (fold_left applySetting settings a),
         fold_left applySetting settings a, [])
    /\ (forall v, input (fold_left applySetting (settings ++ [SetInput v]) a) = v)
    /\ (forall v, output (fold_left applySetting (settings ++ [SetOutput v]) a) = v)
    /\ (forall v, chain (fold_left applySetting (settings ++ [SetChain v]) a) = v)
    /\ (forall v, blockSize (fold_left applySetting (settings ++ [SetBlock v]) a)
                  = Z.max 64 (JString.getIntValue v))
    /\ (forall v a', parseArgsFrom ("--input" :: v :: rest) a'
          = parseArgsFrom rest (mkArgs v (output a') (chain a') (blockSize a')))
    /\ (forall v a', parseArgsFrom ("--output" :: v :: rest) a'
          = parseArgsFrom rest (mkArgs (input a') v (chain a') (blockSize a')))
    /\ (forall v a', parseArgsFrom ("--chain" :: v :: rest) a'
          = parseArgsFrom rest (mkArgs (input a') (output a') v (blockSize a')))
    /\ (forall v a', parseArgsFrom ("--block" :: v :: rest) a'
          = parseArgsFrom rest (mkArgs (input a') (output a') (chain a')
                                       (Z.max 64 (JString.getIntValue v))))
    /\ parseArgsFrom ["--input"; "a.wav"; "--block"; "32"; "--input"; "--help";
                      "--chain"; "--block"; "--block"; "2048"] defaultArgs
       = (false, mkArgs "--help" "" "--block" 2048, [])
    /\ parseArgsFrom ["--block"; "2048"; "--input"; "a.wav"; "--output"; "b.wav";
                      "--chain"; "c.json"; "--block"; "96"] defaultArgs
       = (true, mkArgs "a.wav" "b.wav" "c.json" 96, []).
Proof.
  intros settings rest a.
  assert (Hrun : forall rest' a',
             parseArgsFrom (flat_map settingWords settings ++ rest') a'
             = parseArgsFrom rest' (fold_left applySetting settings a')).
  { induction settings as [|s settings IH]; intros rest' a'; [reflexivity|].
    cbn [flat_map fold_left]. rewrite <- app_assoc.
    destruct s; cbn [settingWords app]; rewrite parseArgsFrom_step;
      cbn [String.eqb Ascii.eqb Bool.eqb orb andb]; apply IH. }
  split; [apply Hrun|]. split.
  { rewrite <- (app_nil_r (flat_map settingWords settings)). now rewrite Hrun. }
  split; [intros v; now rewrite fold_left_app|].
  split; [intros v; now rewrite fold_left_app|].
  split; [intros v; now rewrite fold_left_app|].
  split.
  { intros v. rewrite fold_left_app. cbn [fold_left applySetting].
    rewrite jmax_is_max. reflexivity. }
  split; [intros v a'; now rewrite parseArgsFrom_step|].
  split; [intros v a'; now rewrite parseArgsFrom_step|].
  split; [intros v a'; now rewrite parseArgsFrom_step|].
  split.
  { intros v a'. rewrite parseArgsFrom_step.
    cbn [String.eqb Ascii.eqb Bool.eqb orb]. now rewrite jmax_is_max. }
  split; reflexivity.
Qed.

Lemma parseArgsFrom_skips_unknown (w : string) (rest : list string) (a : Args) :
  isKeyword w = false -> parseArgsFrom (w :: rest) a = parseArgsFrom rest a.
Proof.
  unfold isKeyword, isHelp. intros H.
  destruct rest as [|v l]; [cbn [parseArgsFrom] | rewrite parseArgsFrom_step];
    destruct (String.eqb w "--help"), (String.eqb w "-h"),
             (String.eqb w "--input"), (String.eqb w "--output"),
             (String.eqb w "--chain"), (String.eqb w "--block");
    cbn in H; try discriminate H; reflexivity.
Qed.

(** X3. Words that are none of the options and no help word are skipped
    without any effect: a word in front of a command line changes nothing,
    and a command line of such words only leaves the arguments as they were
    and prints nothing. *)
Theorem parseArgs_ignores_unknown_words :
  forall (unknown rest : list string) (a : Args),
    Forall (fun w => isKeyword w = false) unknown ->
    parseArgsFrom (unknown ++ rest) a = parseArgsFrom rest a
    /\ parseArgsFrom unknown a = (complete a, a, []).
Proof.
  intros unknown rest a Hall.
  assert (Hrun : forall rest', parseArgsFrom (unknown ++ rest') a = parseArgsFrom rest' a).
  { induction Hall as [|w l Hw _ IH]; intros rest'; [reflexivity|].
    cbn [app]. rewrite parseArgsFrom_skips_unknown by exact Hw. apply IH. }
  split; [apply Hrun|].
  rewrite <- (app_nil_r unknown). now rewrite Hrun.
Qed.

Lemma parseArgs_ignores_unknown_witness :
  parseArgsFrom ["-v"; "out.wav"; "--verbose"; "--input"; "a.wav"] defaultArgs
    = parseArgsFrom ["--input"; "a.wav"] defaultArgs.
Proof.
  destruct (parseArgs_ignores_unknown_words ["-v"; "out.wav"; "--verbose"]
              ["--input"; "a.wav"] defaultArgs) as [H _].
  - repeat constructor.
  - exact H.
Defined.

Lemma parseArgsFrom_without_input (rest : list string) :
  forall a, ~ In "--input" rest -> input (snd (fst (parseArgsFrom rest a))) = input a.
Proof.
  induction rest as [|w|w v l IHl IHvl] using words_ind; intros a Hno.
  - reflexivity.
  - rewrite parseArgsFrom_single. now destruct (isHelp w).
  - rewrite parseArgsFrom_step.
    assert (Hw : String.eqb w "--input" = false).
    { apply String.eqb_neq. intros ->. apply Hno. now left. }
    assert (Hl : ~ In "--input" l) by (intros H; apply Hno; right; now right).
    assert (Hvl : ~ In "--input" (v :: l)) by (intros H; apply Hno; now right).
    rewrite Hw.
    split_ifs; trivial; try (rewrite IHl by exact Hl; reflexivity).
    now apply IHvl.
Qed.

Lemma parseArgsFrom_without_output (rest : list string) :
  forall a, ~ In "--output" rest -> output (snd (fst (parseArgsFrom rest a))) = output a.
Proof.
  induction rest as [|w|w v l IHl IHvl] using words_ind; intros a Hno.
  - reflexivity.
  - rewrite parseArgsFrom_single. now destruct (isHelp w).
  - rewrite parseArgsFrom_step.
    assert (Hw : String.eqb w "--output" = false).
    { apply String.eqb_neq. intros ->. apply Hno. now left. }
    assert (Hl : ~ In "--output" l) by (intros H; apply Hno; right; now right).
    assert (Hvl : ~ In "--output" (v :: l)) by (intros H; apply Hno; now right).
    rewrite Hw.
    split_ifs; trivial; try (rewrite IHl by exact Hl; reflexivity).
    now apply IHvl.
Qed.

Lemma parseArgsFrom_without_chain (rest : list string) :
  forall a, ~ In "--chain" rest -> chain (snd (fst (parseArgsFrom rest a))) = chain a.
Proof.
  induction rest as [|w|w v l IHl IHvl] using words_ind; intros a Hno.
  - reflexivity.
  - rewrite parseArgsFrom_single. now destruct (isHelp w).
  - rewrite parseArgsFrom_step.
    assert (Hw : String.eqb w "--chain" = false).
    { apply String.eqb_neq. intros ->. apply Hno. now left. }
    assert (Hl : ~ In "--chain" l) by (intros H; apply Hno; right; now right).
    assert (Hvl : ~ In "--chain" (v :: l)) by (intros H; apply Hno; now right).
    rewrite Hw.
    split_ifs; trivial; try (rewrite IHl by exact Hl; reflexivity).
    now apply IHvl.
Qed.

(** What [parseArgs] prints: nothing, or the usage text once. *)
Lemma parseArgsFrom_prints (rest : list string) :
  forall a, snd (parseArgsFrom rest a) = []
            \/ (snd (parseArgsFrom rest a) = [usageText]
                /\ fst (fst (parseArgsFrom rest a)) = false).
Proof.
  induction rest as [|w|w v l IHl IHvl] using words_ind; intros a.
  - now left.
  - rewrite parseArgsFrom_single. destruct (isHelp w); [right|left]; now split.
  - rewrite parseArgsFrom_step.
    split_ifs; try apply IHl; try apply IHvl. right. now split.
Qed.

(** Whether the loop of [parseArgs] meets a help word: a help word in the
    place of an option's value is taken as the value and is not met. *)
Definition isOption (w : string) : bool :=
  String.eqb w "--input" || String.eqb w "--output"
  || String.eqb w "--chain" || String.eqb w "--block".

Fixpoint helpMet (rest : list string) : bool :=
  match rest with
  | [] => false
  | w :: tl =>
      if isHelp w then true
      else
        match tl with
        | _ :: tl' => if isOption w then helpMet tl' else helpMet tl
        | [] => helpMet tl
        end
  end.

Lemma helpMet_step (w v : string) (l : list string) :
  helpMet (w :: v :: l)
  = if isHelp w then true else if isOption w then helpMet l else helpMet (v :: l).
Proof. reflexivity. Qed.

Lemma helpMet_skip (w : string) (l : list string) :
  isKeyword w = false -> helpMet (w :: l) = helpMet l.
Proof.
  unfold isKeyword. intros H.
  destruct l as [|v l]; [cbn [helpMet] | rewrite helpMet_step]; unfold isOption;
    destruct (isHelp w), (String.eqb w "--input"), (String.eqb w "--output"),
             (String.eqb w "--chain"), (String.eqb w "--block");
    cbn in H; try discriminate H; reflexivity.
Qed.

Lemma helpMet_without_help (rest : list string) :
  Forall (fun w => isHelp w = false) rest -> helpMet rest = false.
Proof.
  induction rest as [|w|w v l IHl IHvl] using words_ind; intros Hno.
  - reflexivity.
  - inversion Hno as [|? ? Hw _]; subst. cbn [helpMet]. now rewrite Hw.
  - inversion Hno as [|? ? Hw Hvl]; subst. inversion Hvl as [|? ? _ Hl]; subst.
    rewrite helpMet_step, Hw. destruct (isOption w); [now apply IHl | now apply IHvl].
Qed.

Lemma helpMet_after_unknown (unknown : list string) (w : string) (rest : list string) :
  Forall (fun u => isKeyword u = false) unknown -> isHelp w = true ->
  helpMet (unknown ++ w :: rest) = true.
Proof.
  intros Hall Hw. induction Hall as [|u unknown Hu _ IH].
  - cbn [app helpMet]. now rewrite Hw.
  - cbn [app]. now rewrite helpMet_skip.
Qed.

(** What [parseArgs] prints and returns when it meets a help word. *)
Lemma parseArgsFrom_helpMet (rest : list string) :
  forall a,
    snd (parseArgsFrom rest a) = (if helpMet rest then [usageText] else [])
    /\ (helpMet rest = true -> fst (fst (parseArgsFrom rest a)) = false).
Proof.
  induction rest as [|w|w v l IHl IHvl] using words_ind; intros a.
  - split; [reflexivity | discriminate].
  - rewrite parseArgsFrom_single. cbn [helpMet].
    destruct (isHelp w); split; try reflexivity; discriminate.
  - rewrite parseArgsFrom_step, helpMet_step. unfold isHelp, isOption.
    destruct (String.eqb w "--help"), (String.eqb w "-h"),
             (String.eqb w "--input"), (String.eqb w "--output"),
             (String.eqb w "--chain"), (String.eqb w "--block");
      cbn [orb]; try apply IHl; try apply IHvl; split; reflexivity.
Qed.

(** ** Runs of the offline renderer *)

Section Runs.

Context {Instance Buffer MidiBuffer SampleRate AudioChannelSet
  PluginDescription AudioFormat OutStream Writer Samples Disk : Type}.
Variable P : Platform.
Variable cwd : File.
Variable F : FileAPI OutStream Disk.
Variable A : AudioAPI Buffer MidiBuffer SampleRate AudioFormat OutStream Writer Samples Disk.
Variable I : PluginAPI Instance Buffer MidiBuffer SampleRate AudioChannelSet.
Variable pf : AudioPluginFormatManager Instance SampleRate PluginDescription.

Implicit Types (disk : Disk) (reader : AudioFormatReader SampleRate Samples)
  (args : Args) (slot : ChainSlot) (slots : list ChainSlot)
  (argv : list string) (fuel : nat)
  (st : RenderState Instance Buffer MidiBuffer Writer).

(** X4. A command line on which [--input], [--output] or [--chain] does
    not occur after the program name is rejected: [main] ends with exit code
    1, whatever is on the disk and without any message on standard error; on
    standard output it prints the usage text, twice when the loop of
    [parseArgs] met a help word and once when it did not.  The loop meets no
    help word when none occurs after the program name, and it meets one that
    comes after words that are no options; a help word standing as the value
    of an option is not met.  Whenever a help word is met, also on a command
    line with all three options, [main] prints the usage text twice and ends
    with exit code 1. *)
Theorem main_without_required_argument_exits_1 :
  forall fuel disk argv,
    ~ In "--input" (tl argv) \/ ~ In "--output" (tl argv) \/ ~ In "--chain" (tl argv) ->
    main P cwd F A I pf fuel disk argv
      = Exits (mkOutcome 1 ((if helpMet (tl argv) then [usageText] else [])
                              ++ [usageText]) [] None)
    /\ (Forall (fun w => isHelp w = false) (tl argv) ->
        main P cwd F A I pf fuel disk argv = Exits (mkOutcome 1 [usageText] [] None))
    /\ (forall unknown w rest,
          tl argv = unknown ++ w :: rest ->
          Forall (fun u => isKeyword u = false) unknown -> isHelp w = true ->
          main P cwd F A I pf fuel disk argv
            = Exits (mkOutcome 1 [usageText; usageText] [] None))
    /\ (forall argv',
          helpMet (tl argv') = true ->
          main P cwd F A I pf fuel disk argv'
            = Exits (mkOutcome 1 [usageText; usageText] [] None))
    /\ helpMet ["--input"; "--help"; "--output"; "-h"] = false
    /\ helpMet ["--input"; "a.wav"; "--output"; "b.wav"; "--chain"; "c.json"; "-h"] = true
    /\ usageText
       = ("UTAU VST Host" ++ String (ascii_of_nat 10)
            ("Usage: utau_vst_host --input <file> --output <file> --chain <json> [--block <size>]"
             ++ String (ascii_of_nat 10) ""))%string.
Proof.
  intros fuel disk argv Hmissing.
  assert (Hrej : fst (fst (parseArgs argv defaultArgs)) = false).
  { destruct (parseArgs argv defaultArgs) as [[ok a] out] eqn:E.
    destruct ok; [|reflexivity]. exfalso.
    unfold parseArgs in E.
    pose proof (parseArgsFrom_true _ _ _ _ E) as [Hc _].
    pose proof (parseArgsFrom_without_input (tl argv) defaultArgs) as Hi.
    pose proof (parseArgsFrom_without_output (tl argv) defaultArgs) as Ho.
    pose proof (parseArgsFrom_without_chain (tl argv) defaultArgs) as Hch.
    rewrite E in Hi, Ho, Hch. cbn [fst snd] in Hi, Ho, Hch.
    unfold complete in Hc.
    destruct Hmissing as [H|[H|H]];
      [rewrite (Hi H) in Hc | rewrite (Ho H) in Hc | rewrite (Hch H) in Hc];
      cbn in Hc; try discriminate Hc;
      repeat rewrite Bool.andb_false_r in Hc; discriminate Hc. }
  assert (Hmain : main P cwd F A I pf fuel disk argv
                  = Exits (mkOutcome 1 ((if helpMet (tl argv) then [usageText] else [])
                                          ++ [usageText]) [] None)).
  { pose proof (parseArgsFrom_helpMet (tl argv) defaultArgs) as [Hout _].
    unfold main. fold (parseArgs argv defaultArgs) in Hout.
    destruct (parseArgs argv defaultArgs) as [[ok a] out].
    cbn [fst snd] in Hrej, Hout. subst ok out. reflexivity. }
  assert (Hhelp : forall argv',
             helpMet (tl argv') = true ->
             main P cwd F A I pf fuel disk argv'
             = Exits (mkOutcome 1 [usageText; usageText] [] None)).
  { intros argv' Hmet.
    pose proof (parseArgsFrom_helpMet (tl argv') defaultArgs) as [Hout Hno].
    specialize (Hno Hmet). rewrite Hmet in Hout.
    unfold main. fold (parseArgs argv' defaultArgs) in Hout, Hno.
    destruct (parseArgs argv' defaultArgs) as [[ok a] out].
    cbn [fst snd] in Hout, Hno. subst ok out. reflexivity. }
  split; [exact Hmain|]. split.
  { intros Hno. rewrite Hmain. now rewrite helpMet_without_help. }
  split.
  { intros unknown w rest E Hall Hw. apply Hhelp. rewrite E.
    now apply helpMet_after_unknown. }
  split; [exact Hhelp|]. repeat split.
Qed.

End Runs.

(** Two runs without [--chain]: the first has no help word and prints the
    usage text once, the second has one after the options and prints it
    twice; nothing is printed on standard error. *)
Lemma main_without_required_argument_witness :
  Demo.run 0 ["utau_vst_host"; "--input"; "/in/voice.wav"; "--output"; "/out/r.wav"]
    = Exits (mkOutcome 1
        [("UTAU VST Host" ++ String (ascii_of_nat 10)
            ("Usage: utau_vst_host --input <file> --output <file> --chain <json> [--block <size>]"
             ++ String (ascii_of_nat 10) ""))%string] [] None)
  /\ Demo.run 0 ["utau_vst_host"; "--input"; "/in/voice.wav"; "--output"; "/out/r.wav";
                 "--help"]
    = Exits (mkOutcome 1
        [("UTAU VST Host" ++ String (ascii_of_nat 10)
            ("Usage: utau_vst_host --input <file> --output <file> --chain <json> [--block <size>]"
             ++ String (ascii_of_nat 10) ""))%string;
         ("UTAU VST Host" ++ String (ascii_of_nat 10)
            ("Usage: utau_vst_host --input <file> --output <file> --chain <json> [--block <size>]"
             ++ String (ascii_of_nat 10) ""))%string] [] None).
Proof.
  split.
  - destruct (main_without_required_argument_exits_1 Demo.platform Demo.cwd Demo.files
                Demo.audio Demo.plugin Demo.formats 0%nat Demo.disk
                ["utau_vst_host"; "--input"; "/in/voice.wav"; "--output"; "/out/r.wav"])
      as (Hrun & _).
    + right. right. cbn. intros [H|[H|[H|[H|[]]]]]; discriminate H.
    + exact Hrun.
  - destruct (main_without_required_argument_exits_1 Demo.platform Demo.cwd Demo.files
                Demo.audio Demo.plugin Demo.formats 0%nat Demo.disk
                ["utau_vst_host"; "--input"; "/in/voice.wav"; "--output"; "/out/r.wav";
                 "--help"])
      as (Hrun & _).
    + right. right. cbn. intros [H|[H|[H|[H|[H|[]]]]]]; discriminate H.
    + exact Hrun.
Defined.

Section RunOutcomes.

Context {Instance Buffer MidiBuffer SampleRate AudioChannelSet
  PluginDescription AudioFormat OutStream Writer Samples Disk : Type}.
Variable P : Platform.
Variable cwd : File.
Variable F : FileAPI OutStream Disk.
Variable A : AudioAPI Buffer MidiBuffer SampleRate AudioFormat OutStream Writer Samples Disk.
Variable I : PluginAPI Instance Buffer MidiBuffer SampleRate AudioChannelSet.
Variable pf : AudioPluginFormatManager Instance SampleRate PluginDescription.

Implicit Types (disk : Disk) (reader : AudioFormatReader SampleRate Samples)
  (args : Args) (slot : ChainSlot) (slots : list ChainSlot)
  (argv : list string) (fuel : nat)
  (st : RenderState Instance Buffer MidiBuffer Writer).

(** A live slot whose plugin loads, and one whose plugin does not. *)
Definition loads reader args slot : Prop :=
  bypass slot = false -> loadedInstance P cwd I pf reader args slot <> None.

Definition failsToLoad reader args slot : Prop :=
  bypass slot = false /\ loadedInstance P cwd I pf reader args slot = None.

Lemma loadInstances_inl disk reader args slots acc cerr err :
  loadInstances P cwd F I pf disk reader args slots acc cerr = inl err ->
  Exists (failsToLoad reader args) slots.
Proof.
  intros Hrun.
  destruct (Forall_Exists_dec _ (loads_dec P cwd I pf reader args) slots) as [Hall|Hex].
  - destruct (loadInstances_loaded P cwd F I pf disk reader args slots Hall acc cerr)
      as (added & _ & Hl).
    congruence.
  - eapply Exists_impl; [|exact Hex]. intros slot Hn. cbn in Hn.
    unfold failsToLoad.
    destruct (bypass slot); [exfalso; apply Hn; discriminate|].
    destruct (loadedInstance P cwd I pf reader args slot).
    + exfalso. apply Hn. discriminate.
    + now split.
Qed.

Lemma loadInstances_inr_loads disk reader args slots acc cerr result :
  loadInstances P cwd F I pf disk reader args slots acc cerr = inr result ->
  Forall (loads reader args) slots.
Proof.
  intros Hrun.
  destruct (Forall_Exists_dec _ (loads_dec P cwd I pf reader args) slots) as [Hall|Hex];
    [exact Hall|].
  exfalso.
  assert (Hex' : Exists (fun slot => bypass slot = false
                   /\ loadedInstance P cwd I pf reader args slot = None) slots).
  { eapply Exists_impl; [|exact Hex]. intros slot Hn. cbn in Hn.
    destruct (bypass slot); [exfalso; apply Hn; discriminate|].
    destruct (loadedInstance P cwd I pf reader args slot).
    - exfalso. apply Hn. discriminate.
    - now split. }
  destruct (loadInstances_failure P cwd F I pf disk reader args slots Hex' acc cerr)
    as (err & He).
  congruence.
Qed.

Lemma openWriter_failure_code disk reader outputFile code message :
  openWriter P F A disk reader outputFile = inl (code, message) -> code = 6.
Proof.
  unfold openWriter.
  destruct (createOutputStream F _ outputFile); [|now intros [= <- _]].
  destruct (findOutputFormat P A outputFile); [|now intros [= <- _]].
  destruct (createWriterFor A _ _ _ _ _ _ _); [discriminate|now intros [= <- _]].
Qed.

Lemma instances_renderSegment reader pos block st :
  List.length (instances (renderSegment A I reader pos block st))
    = List.length (instances st).
Proof.
  unfold renderSegment.
  pose proof (runChain_length I (instances st)
                (readSamples A reader (clearBuffer A (buffer st)) 0 block pos true true)
                (clearMidi A (midi st))) as H.
  destruct (runChain I _ _ _) as [[? ?] ?]. exact H.
Qed.

(** When the loop ends, the position is not below the total, and the chain
    has as many instances as before. *)
Lemma renderLoop_done fuel reader b t :
  forall st st',
    renderLoop A I fuel reader b t st = Some st' ->
    t <= position st'
    /\ List.length (instances st') = List.length (instances st).
Proof.
  induction fuel as [|fuel IH]; intros st st'; cbn [renderLoop];
    destruct (Z.ltb_spec (position st) t) as [Hlt|Hge]; try discriminate.
  - intros [= <-]. split; [lia | reflexivity].
  - intros H. apply IH in H as [H1 H2]. split; [exact H1|].
    rewrite H2. apply instances_renderSegment.
  - intros [= <-]. split; [lia | reflexivity].
Qed.

(** The loop on an input without frames. *)
Lemma renderLoop_nothing fuel reader b t st :
  t <= position st -> renderLoop A I fuel reader b t st = Some st.
Proof.
  intros H. destruct fuel; cbn [renderLoop];
    destruct (Z.ltb_spec (position st) t); try lia; reflexivity.
Qed.

(** X5. The exit code of [main] names the first stage that failed, and 0
    means that every stage succeeded: 1 the command line was rejected; 2 the
    input or the chain file does not exist; 3 no reader for the input; 4 the
    manifest did not resolve; 5 a live slot's plugin did not load; 6 the
    writer could not be opened, although every earlier stage succeeded.  Only
    a run with exit code 0 has rendered, its loop ended at or after the last
    frame, with one instance per live slot. *)
Theorem main_exit_code_names_failed_stage :
  forall fuel disk argv o,
    main P cwd F A I pf fuel disk argv = Exits o ->
    let ok := fst (fst (parseArgs argv defaultArgs)) in
    let args := snd (fst (parseArgs argv defaultArgs)) in
    let inputFile := fileOf P cwd (input args) in
    let chainFile := fileOf P cwd (chain args) in
    let outputFile := fileOf P cwd (output args) in
    (exitCode o = 1 /\ final o = None /\ ok = false /\ cerr o = [])
    \/ (ok = true /\
        ((exitCode o = 2 /\ final o = None
          /\ (existsAsFile F disk inputFile = false
              \/ existsAsFile F disk chainFile = false))
         \/ (existsAsFile F disk inputFile = true
             /\ existsAsFile F disk chainFile = true
             /\ ((exitCode o = 3 /\ final o = None
                  /\ createReaderFor A disk inputFile = None)
                 \/ exists reader,
                      createReaderFor A disk inputFile = Some reader
                      /\ ((exitCode o = 4 /\ final o = None
                           /\ fst (fst (loadChain P cwd F disk chainFile [] ""))
                              = false)
                          \/ exists slots,
                               fst (loadChain P cwd F disk chainFile [] "")
                               = (true, slots)
                               /\ ((exitCode o = 5 /\ final o = None
                                    /\ Exists (failsToLoad reader args) slots)
                                   \/ (Forall (loads reader args) slots
                                       /\ ((exitCode o = 6 /\ final o = None
                                            /\ exists message,
                                                 openWriter P F A disk reader outputFile
                                                 = inl (6, message))
                                           \/ (exitCode o = 0
                                               /\ exists w st,
                                                    openWriter P F A disk reader
                                                      outputFile = inr w
                                                    /\ final o = Some st
                                                    /\ lengthInSamples reader
                                                       <= position st
                                                    /\ List.length (instances st)
                                                       = List.length
                                                           (filter live slots)))))))))).
Proof.
  intros fuel disk argv o. unfold main.
  destruct (parseArgs argv defaultArgs) as [[ok a] out]. cbn [fst snd].
  destruct ok; cbn [negb]; [|intros [= <-]; left; cbn; auto].
  intros H. right. split; [reflexivity|].
  destruct (existsAsFile F disk (fileOf P cwd (input a))) eqn:Hin; cbn [negb] in H;
    [|injection H as <-; left; cbn; auto].
  destruct (existsAsFile F disk (fileOf P cwd (chain a))) eqn:Hch; cbn [negb] in H;
    [|injection H as <-; left; cbn; auto].
  right. split; [reflexivity|]. split; [reflexivity|].
  destruct (createReaderFor A disk (fileOf P cwd (input a))) as [reader|] eqn:Hr;
    [|injection H as <-; left; cbn; auto].
  right. exists reader. split; [reflexivity|].
  destruct (loadChain P cwd F disk (fileOf P cwd (chain a)) [] "") as [[okc slots] e].
  destruct okc; [|injection H as <-; left; cbn; auto].
  right. exists slots. split; [reflexivity|].
  destruct (loadInstances P cwd F I pf disk reader a slots [] [])
    as [err|[chainInstances warnings]] eqn:Hl.
  { injection H as <-. left. cbn. split; [reflexivity|]. split; [reflexivity|].
    exact (loadInstances_inl _ _ _ _ _ _ _ Hl). }
  right. split; [exact (loadInstances_inr_loads _ _ _ _ _ _ _ Hl)|].
  destruct (openWriter P F A disk reader (fileOf P cwd (output a)))
    as [[code message]|w] eqn:Hw.
  { injection H as <-. left. cbn.
    pose proof (openWriter_failure_code _ _ _ _ _ Hw) as ->.
    split; [reflexivity|]. split; [reflexivity|]. now exists message. }
  right.
  destruct (renderLoop A I fuel reader (blockSize a) (lengthInSamples reader)
              (renderStart A reader a chainInstances w)) as [st|] eqn:Hloop;
    [|discriminate H].
  injection H as <-. cbn. split; [reflexivity|].
  exists w, st. split; [reflexivity|]. split; [reflexivity|].
  apply renderLoop_done in Hloop as [Hpos Hlen]. split; [exact Hpos|].
  rewrite Hlen. cbn [renderStart instances].
  destruct (loadInstances_inr P cwd F I pf disk reader a slots [] []
              chainInstances warnings Hl) as (added & -> & Hm & _).
  cbn [app]. rewrite <- (length_map Some added), Hm. apply length_map.
Qed.

(** X6. [main] always ends: when the readers of the audio formats report
    lengths below 2^63, there is a number of loop iterations that suffices
    for the run, whatever the command line and the block size given on it,
    and the run ends with an exit code. *)
Theorem main_terminates :
  forall disk argv,
    (forall file reader,
       createReaderFor A disk file = Some reader -> lengthInSamples reader < 2 ^ 63) ->
    exists fuel0 o,
      forall fuel, (fuel0 <= fuel)%nat ->
                   main P cwd F A I pf fuel disk argv = Exits o.
Proof.
  intros disk argv Hlen. unfold main.
  destruct (parseArgs argv defaultArgs) as [[ok a] out] eqn:Hargs.
  destruct ok; cbn [negb]; [|now exists 0%nat; eexists].
  destruct (existsAsFile F disk (fileOf P cwd (input a))); cbn [negb];
    [|now exists 0%nat; eexists].
  destruct (existsAsFile F disk (fileOf P cwd (chain a))); cbn [negb];
    [|now exists 0%nat; eexists].
  destruct (createReaderFor A disk (fileOf P cwd (input a))) as [reader|] eqn:Hr;
    [|now exists 0%nat; eexists].
  destruct (loadChain P cwd F disk (fileOf P cwd (chain a)) [] "") as [[okc slots] e].
  destruct okc; [|now exists 0%nat; eexists].
  destruct (loadInstances P cwd F I pf disk reader a slots [] [])
    as [err|[chainInstances warnings]]; [now exists 0%nat; eexists|].
  destruct (openWriter P F A disk reader (fileOf P cwd (output a)))
    as [[code message]|w]; [now exists 0%nat; eexists|].
  pose proof (parseArgs_blockSize_range argv a out true Hargs) as HB.
  pose proof (Hlen _ _ Hr) as Ht.
  destruct (Z.le_gt_cases 0 (lengthInSamples reader)) as [Hpos|Hneg].
  - exists (Z.to_nat (segmentCount (lengthInSamples reader) (blockSize a))).
    eexists. intros fuel Hfuel.
    rewrite (renderLoop_all_segments A I reader (blockSize a)
               (lengthInSamples reader) fuel (renderStart A reader a chainInstances w));
      try lia; reflexivity.
  - exists 0%nat. eexists. intros fuel _.
    rewrite renderLoop_nothing by (cbn; lia). reflexivity.
Qed.

(** X7. An input without frames: when the chain is set up and the writer
    opened, [main] ends with exit code 0 without entering the loop, for every
    bound on the iterations: nothing is read, no plugin processes anything and
    nothing is written to the writer that was opened. *)
Theorem empty_input_renders_nothing :
  forall fuel disk argv args out reader slots chainInstances warnings w,
    reachesChain P cwd F A disk argv args out reader slots ->
    loadInstances P cwd F I pf disk reader args slots [] []
      = inr (chainInstances, warnings) ->
    openWriter P F A disk reader (fileOf P cwd (output args)) = inr w ->
    lengthInSamples reader <= 0 ->
    main P cwd F A I pf fuel disk argv
      = Exits (mkOutcome 0 out warnings
                 (Some (renderStart A reader args chainInstances w))).
Proof.
  intros fuel disk argv args out reader slots chainInstances warnings w
         Hreach Hload Hopen Hlen.
  rewrite (main_from_chain P cwd F A I pf fuel disk argv args out reader slots Hreach).
  rewrite Hload, Hopen.
  now rewrite renderLoop_nothing by (cbn; lia).
Qed.

End RunOutcomes.

(** Consecutive segments from frame [from] up to frame [upto]: each starts
    where the one before ended and has at least one frame. *)
Fixpoint tiles (from : Z) (segs : list (Z * Z)) (upto : Z) : Prop :=
  match segs with
  | [] => from = upto
  | (pos, block) :: rest => pos = from /\ 0 < block /\ tiles (from + block) rest upto
  end.

Lemma segments_tile_from (t b : Z) :
  0 < b -> 0 <= t ->
  forall (m k : nat),
    Z.of_nat k + Z.of_nat m = segmentCount t b ->
    tiles (Z.min (Z.of_nat k * b) t) (map (segmentAt t b) (seq k m)) t.
Proof.
  intros Hb Ht. pose proof (segmentCount_bounds t b Hb) as Hc.
  induction m as [|m IH]; intros k Hk; cbn [seq map tiles].
  - nia.
  - cbn [segmentAt]. split; [nia|]. split; [nia|].
    replace (Z.min (Z.of_nat k * b) t + Z.min b (t - Z.of_nat k * b))
      with (Z.min (Z.of_nat (S k) * b) t) by nia.
    apply IH. lia.
Qed.

Lemma segments_tile (t b : Z) : 0 < b -> 0 <= t -> tiles 0 (segments t b) t.
Proof.
  intros Hb Ht. pose proof (segmentCount_nonneg t b Hb Ht).
  replace 0 with (Z.min (Z.of_nat 0 * b) t) at 1 by (cbn; lia).
  apply segments_tile_from; trivial. lia.
Qed.

Section Frames.

Context {Instance Buffer MidiBuffer SampleRate AudioChannelSet
  AudioFormat OutStream Writer Samples Disk : Type}.
Variable A : AudioAPI Buffer MidiBuffer SampleRate AudioFormat OutStream Writer Samples Disk.
Variable I : PluginAPI Instance Buffer MidiBuffer SampleRate AudioChannelSet.
Variable reader : AudioFormatReader SampleRate Samples.

Implicit Types (st : RenderState Instance Buffer MidiBuffer Writer).

Lemma frames_renderSegments (frames : Writer -> Z) :
  (forall w b n, frames (writeFromAudioSampleBuffer A w b 0 n) = frames w + n) ->
  forall segs from upto st,
    tiles from segs upto ->
    frames (writer (renderSegments A I reader segs st))
      = frames (writer st) + (upto - from).
Proof.
  intros Hlaw. induction segs as [|[pos block] rest IH]; intros from upto st Ht.
  - cbn in *. lia.
  - cbn [tiles] in Ht. destruct Ht as (-> & _ & Ht).
    unfold renderSegments. cbn [fold_left fst snd].
    fold (renderSegments A I reader rest (renderSegment A I reader from block st)).
    rewrite (IH _ _ _ Ht).
    destruct (renderSegment_writes_chain_output A I reader from block st) as [_ ->].
    rewrite Hlaw. lia.
Qed.

(** X8. Every frame of the input is rendered once: the segments of a run
    follow one another from frame 0 to the last frame without gap or overlap,
    each with at least one frame, and for a writer that counts the frames it
    is given, the count after the loop is the count before plus the length of
    the input. *)
Theorem render_writes_every_frame_once :
  forall (frames : Writer -> Z) (B totalSamples : Z) (fuel : nat) st,
    (forall w b n, frames (writeFromAudioSampleBuffer A w b 0 n) = frames w + n) ->
    0 < B < 2 ^ 31 ->
    0 <= totalSamples < 2 ^ 63 ->
    position st = 0 ->
    (Z.to_nat (segmentCount totalSamples B) <= fuel)%nat ->
    tiles 0 (segments totalSamples B) totalSamples
    /\ exists st',
         renderLoop A I fuel reader B totalSamples st = Some st'
         /\ st' = renderSegments A I reader (segments totalSamples B) st
         /\ frames (writer st') = frames (writer st) + totalSamples.
Proof.
  intros frames B t fuel st Hlaw HB Ht Hpos Hfuel.
  pose proof (segments_tile t B (proj1 HB) (proj1 Ht)) as Htiles.
  split; [exact Htiles|].
  exists (renderSegments A I reader (segments t B) st).
  split; [now apply renderLoop_all_segments|]. split; [reflexivity|].
  rewrite (frames_renderSegments frames Hlaw _ 0 t st Htiles). lia.
Qed.

Lemma renderSegment_empty_chain (I' : PluginAPI Instance Buffer MidiBuffer SampleRate
                                         AudioChannelSet) pos block st :
  instances st = [] ->
  renderSegment A I' reader pos block st
    = mkRenderState (Int.to_int64 (pos + block))
        (readSamples A reader (clearBuffer A (buffer st)) 0 block pos true true)
        (clearMidi A (midi st)) []
        (writeFromAudioSampleBuffer A (writer st)
           (readSamples A reader (clearBuffer A (buffer st)) 0 block pos true true)
           0 block).
Proof. intros H. unfold renderSegment. rewrite H. reflexivity. Qed.

Lemma renderLoop_empty_chain (I' : PluginAPI Instance Buffer MidiBuffer SampleRate
                                      AudioChannelSet) b t :
  forall fuel st,
    instances st = [] ->
    renderLoop A I' fuel reader b t st = renderLoop A I fuel reader b t st.
Proof.
  induction fuel as [|fuel IH]; intros st Hempty; cbn [renderLoop]; [reflexivity|].
  destruct (position st <? t); [|reflexivity].
  unfold renderStep. rewrite !renderSegment_empty_chain by exact Hempty.
  now apply IH.
Qed.

End Frames.

Section Failures.

Context {Instance Buffer MidiBuffer SampleRate AudioChannelSet
  PluginDescription AudioFormat OutStream Writer Samples Disk : Type}.
Variable P : Platform.
Variable cwd : File.
Variable F : FileAPI OutStream Disk.
Variable A : AudioAPI Buffer MidiBuffer SampleRate AudioFormat OutStream Writer Samples Disk.

Local Abbreviation Plugins := (PluginAPI Instance Buffer MidiBuffer SampleRate AudioChannelSet).
Local Abbreviation Formats := (AudioPluginFormatManager Instance SampleRate PluginDescription).

Implicit Types (disk : Disk) (reader : AudioFormatReader SampleRate Samples)
  (args : Args) (slot bad : ChainSlot) (slots pre post : list ChainSlot)
  (acc : list Instance) (cerr out : list string)
  (argv : list string) (fuel : nat).

Lemma loadInstances_all_bypassed (I : Plugins) (pf : Formats) disk reader args slots :
  forallb bypass slots = true ->
  forall acc cerr,
    loadInstances P cwd F I pf disk reader args slots acc cerr = inr (acc, cerr).
Proof.
  induction slots as [|slot rest IH]; intros Hall acc cerr; [reflexivity|].
  cbn [forallb] in Hall. apply andb_prop in Hall as [Hb Hrest].
  cbn [loadInstances]. rewrite Hb. now apply IH.
Qed.

(** X9. A manifest whose slots are all bypassed: the run of [main] is the
    same whatever the plugin interface and the plugin formats are, so no
    plugin is looked up, created or asked to process; when the writer opens,
    every segment written is the buffer as the reader filled it. *)
Theorem bypassed_chain_passes_audio_through :
  forall (I I' : Plugins) (pf pf' : Formats) fuel disk argv args out reader slots,
    reachesChain P cwd F A disk argv args out reader slots ->
    forallb bypass slots = true ->
    main P cwd F A I' pf' fuel disk argv = main P cwd F A I pf fuel disk argv
    /\ (forall pos block st,
          instances st = [] ->
          writer (renderSegment A I reader pos block st)
            = writeFromAudioSampleBuffer A (writer st)
                (readSamples A reader (clearBuffer A (buffer st)) 0 block pos true true)
                0 block
          /\ instances (renderSegment A I reader pos block st) = []).
Proof.
  intros I I' pf pf' fuel disk argv args out reader slots Hreach Hall.
  split.
  - rewrite (main_from_chain P cwd F A I' pf' fuel disk argv args out reader slots Hreach).
    rewrite (main_from_chain P cwd F A I pf fuel disk argv args out reader slots Hreach).
    rewrite !loadInstances_all_bypassed by exact Hall.
    destruct (openWriter P F A disk reader (fileOf P cwd (output args)))
      as [[code message]|w]; [reflexivity|].
    now rewrite (renderLoop_empty_chain A I reader I').
  - intros pos block st Hempty.
    rewrite renderSegment_empty_chain by exact Hempty. now split.
Qed.

Variable I : Plugins.
Variable pf : Formats.

Lemma loadInstances_app disk reader args pre post :
  forall acc cerr,
    loadInstances P cwd F I pf disk reader args (pre ++ post) acc cerr
      = match loadInstances P cwd F I pf disk reader args pre acc cerr with
        | inl err => inl err
        | inr (acc', cerr') =>
            loadInstances P cwd F I pf disk reader args post acc' cerr'
        end.
Proof.
  induction pre as [|slot rest IH]; intros acc cerr; cbn [app loadInstances];
    [reflexivity|].
  destruct (bypass slot); [apply IH|].
  destruct (loadPlugin I _ pf _ _ _ "") as [[instance|] e]; [|reflexivity].
  destruct (JString.isNotEmpty (presetPath slot)); [|apply IH].
  destruct (applyPreset P cwd F I disk instance (presetPath slot)) as [[|] ?]; apply IH.
Qed.

(** X10. The first live slot whose plugin does not load ends the run: the
    slots after it are not looked at, [main] ends with exit code 5 without
    rendering, and standard error holds the preset warnings of the slots
    before it, then the line naming the plugin file, then the error message
    of [loadPlugin] if it is not empty. *)
Theorem first_failing_plugin_ends_the_run :
  forall disk reader args pre bad post error,
    Forall (fun slot => bypass slot = false ->
                        loadedInstance P cwd I pf reader args slot <> None) pre ->
    bypass bad = false ->
    loadPlugin I (fileOf P cwd (pluginPath bad)) pf (sampleRate reader)
      (blockSize args) (Int.to_int (numChannels reader)) "" = (None, error) ->
    let report :=
      flat_map (slotWarnings P cwd F I pf disk reader args) (filter live pre)
      ++ loadFailure (fileOf P cwd (pluginPath bad)) error in
    loadInstances P cwd F I pf disk reader args (pre ++ bad :: post) [] []
      = inl report
    /\ (forall fuel argv out,
          reachesChain P cwd F A disk argv args out reader (pre ++ bad :: post) ->
          main P cwd F A I pf fuel disk argv = Exits (mkOutcome 5 out report None)).
Proof.
  intros disk reader args pre bad post error Hpre Hb Hfail report.
  assert (Hrun : loadInstances P cwd F I pf disk reader args (pre ++ bad :: post) [] []
                 = inl report).
  { rewrite loadInstances_app.
    destruct (loadInstances_loaded P cwd F I pf disk reader args pre Hpre [] [])
      as (added & _ & ->).
    cbn [loadInstances app]. now rewrite Hb, Hfail. }
  split; [exact Hrun|].
  intros fuel argv out Hreach.
  rewrite (main_from_chain P cwd F A I pf fuel disk argv args out reader _ Hreach).
  now rewrite Hrun.
Qed.

End Failures.

(** ** Resolving the manifest *)

Section Resolution.

Context {OutStream Disk : Type}.
Variable P : Platform.
Variable cwd : File.
Variable F : FileAPI OutStream Disk.

Lemma loadChainData_without_list (baseDir : File) (data : var)
    (slots : list ChainSlot) (error : string) :
  pluginList data = None ->
  loadChainData P cwd F baseDir data slots error
    = (false, slots,
       if Var.isObject data then "Chain JSON missing 'plugins' array."
       else "Chain JSON is invalid.").
Proof.
  unfold pluginList, loadChainData, Var.getProperty.
  destruct data as [| | | | | |props]; cbn; try reflexivity.
  destruct (Var.find "plugins" props) as [[| | | | |items|]|]; cbn;
    try reflexivity; discriminate.
Qed.

Lemma slotsOfEntry_have_paths (baseDir : File) (entries : list var) :
  Forall (fun slot => JString.isNotEmpty (pluginPath slot) = true)
         (flat_map (slotsOfEntry P cwd F baseDir) entries).
Proof.
  induction entries as [|entry rest IH]; cbn [flat_map]; [constructor|].
  apply Forall_app. split; [|exact IH].
  unfold slotsOfEntry. destruct (Var.getDynamicObject entry) as [obj|]; [|constructor].
  destruct (JString.isNotEmpty (pluginPath (slotOf P cwd F baseDir obj))) eqn:E;
    repeat constructor. exact E.
Qed.

(** X11. [loadChain] succeeds exactly when the manifest is an object whose
    [plugins] property is a non-empty array and at least one slot results;
    then the slots are the ones passed in followed by the slots of the
    entries in the order of the array, and the error message is left as it
    was.  A manifest that is no object is reported as invalid, an object or
    array without a [plugins] array as missing it, and in both cases the
    slots passed in are returned untouched. *)
Theorem loadChain_succeeds_exactly_on_a_plugin_list :
  forall (baseDir : File) (data : var) (slots : list ChainSlot) (error : string),
    let result := loadChainData P cwd F baseDir data slots error in
    (Var.isObject data = false -> result = (false, slots, "Chain JSON is invalid."))
    /\ (Var.isObject data = true -> pluginList data = None ->
        result = (false, slots, "Chain JSON missing 'plugins' array."))
    /\ (fst (fst result) = true
        <-> exists entries,
              pluginList data = Some entries /\ entries <> []
              /\ slots ++ flat_map (slotsOfEntry P cwd F baseDir) entries <> [])
    /\ (forall entries,
          pluginList data = Some entries -> fst (fst result) = true ->
          result = (true, slots ++ flat_map (slotsOfEntry P cwd F baseDir) entries,
                    error)).
Proof.
  intros baseDir data slots error result. unfold result.
  split; [|split; [|split]].
  - intros Hobj.
    assert (Hnone : pluginList data = None)
      by (destruct data; try reflexivity; discriminate Hobj).
    rewrite (loadChainData_without_list _ _ _ _ Hnone). now rewrite Hobj.
  - intros Hobj Hnone.
    rewrite (loadChainData_without_list _ _ _ _ Hnone). now rewrite Hobj.
  - destruct (pluginList data) as [entries|] eqn:Hlist.
    + rewrite (loadChainData_pluginList P cwd F baseDir data entries slots error Hlist).
      destruct entries as [|entry rest].
      * split; [discriminate|]. intros (entries & [= <-] & Hne & _). now contradiction Hne.
      * destruct (slots ++ flat_map (slotsOfEntry P cwd F baseDir) (entry :: rest))
          eqn:E.
        -- split; [discriminate|]. intros (entries & [= <-] & _ & Hne).
           now contradiction Hne.
        -- split; [|reflexivity]. intros _. exists (entry :: rest).
           split; [reflexivity|]. split; [discriminate|]. rewrite E. discriminate.
    + rewrite (loadChainData_without_list _ _ _ _ Hlist). cbn [fst].
      split; [discriminate|]. intros (entries & Hsome & _). discriminate Hsome.
  - intros entries Hlist.
    rewrite (loadChainData_pluginList P cwd F baseDir data entries slots error Hlist).
    destruct entries as [|entry rest]; [discriminate|].
    destruct (slots ++ flat_map (slotsOfEntry P cwd F baseDir) (entry :: rest));
      [discriminate | reflexivity].
Qed.

(** X12. What [main] gets from a manifest that resolved: at least one slot,
    every slot with a non-empty plugin path, and no more slots than the
    plugin list has entries. *)
Theorem resolved_slots_have_plugin_paths :
  forall (disk : Disk) (chainFile : File) (error : string)
         (slots : list ChainSlot) (error' : string),
    loadChain P cwd F disk chainFile [] error = (true, slots, error') ->
    slots <> []
    /\ Forall (fun slot => pluginPath slot <> "") slots
    /\ error' = error
    /\ exists entries,
         pluginList (JSON_parse F (loadFileAsString F disk chainFile)) = Some entries
         /\ (List.length slots <= List.length entries)%nat.
Proof.
  intros disk chainFile error slots error'. unfold loadChain.
  set (data := JSON_parse F (loadFileAsString F disk chainFile)).
  set (baseDir := getParentDirectory P chainFile).
  destruct (pluginList data) as [entries|] eqn:Hlist.
  - rewrite (loadChainData_pluginList P cwd F baseDir data entries [] error Hlist).
    cbn [app]. destruct entries as [|entry rest]; [discriminate|].
    pose proof (slotsOfEntry_have_paths baseDir (entry :: rest)) as Hpaths.
    assert (Hlen : (List.length (flat_map (slotsOfEntry P cwd F baseDir) (entry :: rest))
                    <= List.length (entry :: rest))%nat).
    { clear. induction (entry :: rest) as [|e l IH]; cbn [flat_map]; [reflexivity|].
      rewrite length_app. cbn [List.length].
      assert (List.length (slotsOfEntry P cwd F baseDir e) <= 1)%nat.
      { unfold slotsOfEntry. destruct (Var.getDynamicObject e); [|cbn; lia].
        destruct (JString.isNotEmpty _); cbn; lia. }
      lia. }
    destruct (flat_map (slotsOfEntry P cwd F baseDir) (entry :: rest)) eqn:E;
      [discriminate|].
    intros [= <- <-]. split; [discriminate|]. split; [|split; [reflexivity|]].
    + eapply Forall_impl; [|exact Hpaths]. intros slot Hslot Hempty. cbn in Hslot.
      destruct (pluginPath slot); [discriminate Hslot | discriminate Hempty].
    + exists (entry :: rest). now split.
  - rewrite (loadChainData_without_list _ _ _ _ Hlist). discriminate.
Qed.

(** X13. Entries of the plugin list at the edges: an entry that is no
    object (a number, a string, null, an array) adds no slot, nor does an
    object without a [path] property or with an empty one; a missing
    [preset] leaves the preset path empty, a missing [bypass] leaves the slot
    live, and a boolean [bypass] is taken as it is. *)
Theorem manifest_entry_defaults :
  forall (baseDir : File) (rest : list var) (slots : list ChainSlot),
    (forall entry,
       Var.getDynamicObject entry = None ->
       addSlots P cwd F baseDir (entry :: rest) slots
         = addSlots P cwd F baseDir rest slots)
    /\ (forall props,
          Var.find "path" props = None \/ Var.find "path" props = Some (VString "") ->
          addSlots P cwd F baseDir (VObject props :: rest) slots
            = addSlots P cwd F baseDir rest slots)
    /\ (forall props,
          Var.find "preset" props = None ->
          presetPath (slotOf P cwd F baseDir props) = "")
    /\ (forall props,
          Var.find "bypass" props = None ->
          bypass (slotOf P cwd F baseDir props) = false)
    /\ (forall props b,
          Var.find "bypass" props = Some (VBool b) ->
          bypass (slotOf P cwd F baseDir props) = b).
Proof.
  intros baseDir rest slots. split; [|split; [|split; [|split]]].
  - intros entry Hno. cbn [addSlots]. rewrite Hno.
    now destruct (negb (Var.isObject entry)).
  - intros props Hpath. cbn [addSlots Var.isObject Var.getDynamicObject negb].
    unfold slotOf, Var.objectProperty. cbn [pluginPath].
    destruct Hpath as [-> | ->]; reflexivity.
  - intros props Hno. unfold slotOf, Var.objectProperty. cbn [presetPath].
    now rewrite Hno.
  - intros props Hno. unfold slotOf, Var.objectProperty. cbn [bypass].
    now rewrite Hno.
  - intros props b Hb. unfold slotOf, Var.objectProperty. cbn [bypass].
    now rewrite Hb.
Qed.

(** X14. A plugin path that is not empty but cleans to nothing (blanks, or
    a pair of quotes around blanks) is not dropped: on a platform where the
    empty path is not absolute, the slot's plugin path is the path of the
    child of the manifest directory with the empty name, and the entry gives
    a slot when that path is not empty. *)
Theorem blank_plugin_path_names_the_manifest_directory :
  forall (baseDir : File) (props : list (string * var)) (raw : string),
    Var.find "path" props = Some (VString raw) ->
    raw <> "" ->
    cleanPath raw = "" ->
    isAbsolutePath P "" = false ->
    pluginPath (slotOf P cwd F baseDir props)
      = getFullPathName (getChildFile P baseDir "")
    /\ (getFullPathName (getChildFile P baseDir "") <> "" ->
        slotsOfEntry P cwd F baseDir (VObject props)
          = [slotOf P cwd F baseDir props]).
Proof.
  intros baseDir props raw Hpath Hraw Hclean Habs.
  assert (Hslot : pluginPath (slotOf P cwd F baseDir props)
                  = getFullPathName (getChildFile P baseDir "")).
  { unfold slotOf, Var.objectProperty. cbn [pluginPath]. rewrite Hpath.
    cbn [Var.toString].
    replace (JString.isNotEmpty raw) with true
      by (destruct raw; [now contradiction Hraw | reflexivity]).
    unfold resolvePath. now rewrite Hclean, Habs. }
  split; [exact Hslot|].
  intros Hdir. unfold slotsOfEntry. cbn [Var.getDynamicObject].
  rewrite Hslot.
  destruct (getFullPathName (getChildFile P baseDir ""));
    [now contradiction Hdir | reflexivity].
Qed.

End Resolution.

(** ** The interactive host *)

Lemma gui_parseArgs_accepts_with_plugin (rest : list string) :
  forall a,
    fst (Gui.parseArgs rest a)
      = JString.isNotEmpty (Gui.pluginPath (snd (Gui.parseArgs rest a))).
Proof.
  induction rest as [|w|w v l IHl IHvl] using words_ind; intros a.
  - reflexivity.
  - reflexivity.
  - rewrite gui_parseArgs_step. split_ifs; try apply IHl; apply IHvl.
Qed.

Section Interactive.

Context {Instance Buffer MidiBuffer SampleRate AudioChannelSet
  PluginDescription OutStream Disk Editor : Type}.
Variable P : Platform.
Variable cwd : File.
Variable F : FileAPI OutStream Disk.
Variable S : GuiHost.SaveAPI (Disk := Disk).
Variable I : PluginAPI Instance Buffer MidiBuffer SampleRate AudioChannelSet.
Variable E : GuiHost.EditorAPI (Instance := Instance) (AudioChannelSet := AudioChannelSet)
               (Editor := Editor).
Variable formats : AudioPluginFormatManager Instance SampleRate PluginDescription.
Variable rate44100 : SampleRate.

Implicit Types (disk : Disk) (processor target : Instance) (file chosen : File).

(** X15. Both programs choose the plugin in the same way: for the same
    file, formats, sample rate and block size, either both [loadPlugin]
    functions fail, with the same error message, or both succeed from the
    same created instance.  The offline renderer switches that instance to
    non-realtime, replaces the first input bus and the first output bus of
    the layout the instance then reports by the canonical channel set of
    the input's channel count, sets the layout, prepares the instance and
    resets it.  The interactive host does not switch to non-realtime; it
    replaces the first buses of the layout the created instance reports by
    the stereo set, sets the layout, prepares and resets.  A bus list that is
    empty stays empty, and the buses after the first stay as they are. *)
Theorem both_hosts_load_the_same_plugin :
  forall file (rate : SampleRate) (blockSize numChannels : Z) (error : string),
  exists created error',
    loadPlugin I file formats rate blockSize numChannels error
      = (option_map (configure I rate blockSize numChannels) created, error')
    /\ GuiHost.loadPlugin I E file formats rate blockSize error
      = (option_map (GuiHost.configure I E rate blockSize) created, error')
    /\ (fst (loadPlugin I file formats rate blockSize numChannels error) = None
        <-> fst (GuiHost.loadPlugin I E file formats rate blockSize error) = None)
    /\ (forall desc later instance error1,
          findTypes (getFormats formats) (getFullPathName file) [] = desc :: later ->
          createPluginInstance formats desc rate blockSize error = (Some instance, error1) ->
          let first := fun (set : AudioChannelSet) (buses : list AudioChannelSet) =>
                         match buses with [] => [] | _ :: others => set :: others end in
          let offline := setNonRealtime I true instance in
          created = Some instance /\ error' = error1
          /\ loadPlugin I file formats rate blockSize numChannels error
             = (Some (reset I (prepareToPlay I rate blockSize
                  (setBusesLayout I
                     {| inputBuses := first (canonicalChannelSet I numChannels)
                                        (inputBuses (getBusesLayout I offline));
                        outputBuses := first (canonicalChannelSet I numChannels)
                                         (outputBuses (getBusesLayout I offline)) |}
                     offline))), error1)
          /\ GuiHost.loadPlugin I E file formats rate blockSize error
             = (Some (reset I (prepareToPlay I rate blockSize
                  (setBusesLayout I
                     {| inputBuses := first (GuiHost.stereo E)
                                        (inputBuses (getBusesLayout I instance));
                        outputBuses := first (GuiHost.stereo E)
                                         (outputBuses (getBusesLayout I instance)) |}
                     instance))), error1)).
Proof.
  intros file rate blockSize numChannels error.
  unfold loadPlugin, GuiHost.loadPlugin.
  destruct (findTypes (getFormats formats) (getFullPathName file) []) as [|desc later].
  - exists None. eexists. repeat split; try reflexivity; discriminate.
  - destruct (createPluginInstance formats desc rate blockSize error)
      as [[created|] error'] eqn:Ecreate.
    + exists (Some created), error'.
      split; [reflexivity|]. split; [reflexivity|]. split; [split; discriminate|].
      intros desc' later' instance error1 [= <- <-]. rewrite Ecreate.
      intros [= <- <-]. cbv zeta. repeat split.
    + exists None, error'.
      split; [reflexivity|]. split; [reflexivity|]. split; [split; reflexivity|].
      intros desc' later' instance error1 [= <- <-]. rewrite Ecreate. discriminate.
Qed.

(** X16. A preset saved by the interactive host is restored byte for byte:
    on a disk that keeps what is written to it, after [savePreset] returned
    true for a plugin whose exported state is not empty, both the
    interactive [applyPreset] on that file and the offline [applyPreset] on a
    path of that file return true and hand exactly the exported bytes to the
    state-restore entry point of the target instance. *)
Theorem saved_preset_is_restored :
  forall disk processor file processor' disk' target,
    (forall d f data d',
       GuiHost.replaceWithData S d f data = (true, d') -> data <> [] ->
       existsAsFile F d' f = true /\ loadFileAsData F d' f = Some data) ->
    GuiHost.savePreset S E disk processor file = (true, processor', disk') ->
    snd (GuiHost.getStateInformation E processor) <> [] ->
    let data := snd (GuiHost.getStateInformation E processor) in
    let restored :=
      setStateInformation I data (Int.to_int (Z.of_nat (List.length data))) target in
    GuiHost.applyPreset F I disk' target file = (true, restored)
    /\ (forall path,
          path <> "" -> fileOf P cwd path = file ->
          applyPreset P cwd F I disk' target path = (true, restored)).
Proof.
  intros disk processor file processor' disk' target Hdisk Hsave Hdata data restored.
  unfold GuiHost.savePreset in Hsave. subst restored. subst data.
  destruct (GuiHost.getStateInformation E processor) as [p bytes]. cbn [snd] in *.
  destruct (GuiHost.replaceWithData S disk file bytes) as [ok d] eqn:Hwrite.
  injection Hsave as -> -> ->.
  destruct (Hdisk _ _ _ _ Hwrite Hdata) as [Hexists Hread].
  split.
  - unfold GuiHost.applyPreset. now rewrite Hexists, Hread.
  - intros path Hpath Hfile. unfold applyPreset.
    replace (JString.isEmpty path) with false
      by (destruct path; [now contradiction Hpath | reflexivity]).
    now rewrite Hfile, Hexists, Hread.
Qed.

(** X17. How the interactive host starts.  It ends with return value 2
    and the usage hint exactly when the words of the command line give no
    plugin path, with 3 when the plugin file does not exist, with 4 and the
    message of [loadPlugin] (or a default when that is empty) when the plugin
    does not load; in these cases there is neither an instance nor a window.
    Otherwise the return value stays 0, no message is shown, and the window
    is titled with the plugin's file name and saves to the [--save] file. *)
Theorem interactive_start_outcomes :
  forall disk (tokens : list string),
    let app := GuiHost.initialise P cwd F S I E formats rate44100 disk tokens in
    let parsed := snd (Gui.parseArgs (GuiHost.removeEmptyStrings tokens) Gui.defaultArgs) in
    let pluginFile := fileOf P cwd (Gui.pluginPath parsed) in
    let loaded := GuiHost.loadPlugin I E pluginFile formats rate44100
                    (Gui.blockSize parsed) "" in
    (Gui.pluginPath parsed = "" <-> GuiHost.returnValue app = 2)
    /\ (GuiHost.returnValue app = 2 ->
        app = GuiHost.mkApp 2
                (Some ("Invalid arguments." ++ GuiHost.usageHint)%string) None None)
    /\ (Gui.pluginPath parsed <> "" ->
        GuiHost.exists_ S disk pluginFile = false ->
        app = GuiHost.mkApp 3 (Some "Plugin file not found.") None None)
    /\ (Gui.pluginPath parsed <> "" ->
        GuiHost.exists_ S disk pluginFile = true ->
        fst loaded = None ->
        app = GuiHost.mkApp 4
                (Some (if JString.isNotEmpty (snd loaded) then snd loaded
                       else "Failed to load plugin.")) None None)
    /\ (Gui.pluginPath parsed <> "" ->
        GuiHost.exists_ S disk pluginFile = true ->
        fst loaded <> None ->
        exists processor component,
          app = GuiHost.mkApp 0 None (Some processor)
                  (Some (GuiHost.getFileName S pluginFile, component))
          /\ GuiHost.presetPath component = fileOf P cwd (Gui.savePath parsed))
    /\ (GuiHost.messageBox app = None <-> GuiHost.window app <> None)
    /\ (GuiHost.instance app = None <-> GuiHost.window app = None).
Proof.
  intros disk tokens. cbv zeta. unfold GuiHost.initialise.
  pose proof (gui_parseArgs_accepts_with_plugin
                (GuiHost.removeEmptyStrings tokens) Gui.defaultArgs) as Hacc.
  destruct (Gui.parseArgs (GuiHost.removeEmptyStrings tokens) Gui.defaultArgs)
    as [ok parsed]. cbn [fst snd] in *.
  destruct (Gui.pluginPath parsed) as [|c path] eqn:Hpath.
  - cbn in Hacc. subst ok. cbn [negb].
    repeat split; intros; cbn in *; try congruence.
  - cbn in Hacc. subst ok. cbn [negb]. rewrite <- Hpath.
    assert (Hne : Gui.pluginPath parsed <> "") by (rewrite Hpath; discriminate).
    destruct (GuiHost.exists_ S disk (fileOf P cwd (Gui.pluginPath parsed))) eqn:Hex;
      cbn [negb].
    + destruct (GuiHost.loadPlugin I E (fileOf P cwd (Gui.pluginPath parsed)) formats
                  rate44100 (Gui.blockSize parsed) "") as [[processor|] error] eqn:Hl;
        cbn [fst snd].
      * repeat split; intros; cbn in *; try congruence.
        eexists. eexists. split; reflexivity.
      * repeat split; intros; cbn in *; try congruence.
    + repeat split; intros; cbn in *; try congruence.
Qed.

End Interactive.

(** The calls both hosts make on a plugin that records them, for an input
    file of one channel: the offline renderer switches to non-realtime and
    sets one channel on the first buses, the interactive host sets two and
    makes no other call; the side-chain bus is left as it is. *)
Lemma both_hosts_load_witness :
  loadPlugin Recorded.plugin (mkFile "/chains/eq.vst3") Recorded.formats 44100 512 1 ""
    = (Some [Recorded.Created "eq" 44100 512; Recorded.SetNonRealtime true;
             Recorded.SetBusesLayout [1; 1] [1]; Recorded.PrepareToPlay 44100 512;
             Recorded.Reset], "")
  /\ GuiHost.loadPlugin Recorded.plugin Recorded.editors (mkFile "/chains/eq.vst3")
       Recorded.formats 44100 512 ""
    = (Some [Recorded.Created "eq" 44100 512;
             Recorded.SetBusesLayout [2; 1] [2]; Recorded.PrepareToPlay 44100 512;
             Recorded.Reset], "").
Proof.
  destruct (both_hosts_load_the_same_plugin Recorded.plugin Recorded.editors
              Recorded.formats (mkFile "/chains/eq.vst3") 44100 512 1 "")
    as (created & error' & _ & _ & _ & H).
  destruct (H "eq" [] [Recorded.Created "eq" 44100 512] "" eq_refl eq_refl)
    as (_ & _ & Hoffline & Hgui).
  split; [rewrite Hoffline | rewrite Hgui]; reflexivity.
Defined.

Section InteractiveSession.

Context {Instance Buffer MidiBuffer SampleRate AudioChannelSet
  PluginDescription OutStream Disk Editor : Type}.
Variable P : Platform.
Variable cwd : File.
Variable F : FileAPI OutStream Disk.
Variable S : GuiHost.SaveAPI (Disk := Disk).
Variable I : PluginAPI Instance Buffer MidiBuffer SampleRate AudioChannelSet.
Variable E : GuiHost.EditorAPI (Instance := Instance) (AudioChannelSet := AudioChannelSet)
               (Editor := Editor).
Variable formats : AudioPluginFormatManager Instance SampleRate PluginDescription.
Variable rate44100 : SampleRate.

Implicit Types (disk : Disk) (processor : Instance) (file chosen other : File)
  (c : GuiHost.HostComponent (Editor := Editor)).

(** X18. The preset of the interactive host is optional: once the plugin
    is loaded, a [--preset] file that does not exist or cannot be read leaves
    the instance as loaded, without any message and with return value 0; a
    file that is read is handed to the state-restore entry point. *)
Theorem interactive_preset_is_optional :
  forall disk (tokens : list string) instance error,
    let app := GuiHost.initialise P cwd F S I E formats rate44100 disk tokens in
    let parsed := snd (Gui.parseArgs (GuiHost.removeEmptyStrings tokens) Gui.defaultArgs) in
    let pluginFile := fileOf P cwd (Gui.pluginPath parsed) in
    let presetFile := fileOf P cwd (Gui.presetPath parsed) in
    Gui.pluginPath parsed <> "" ->
    GuiHost.exists_ S disk pluginFile = true ->
    GuiHost.loadPlugin I E pluginFile formats rate44100 (Gui.blockSize parsed) ""
      = (Some instance, error) ->
    GuiHost.returnValue app = 0 /\ GuiHost.messageBox app = None
    /\ (existsAsFile F disk presetFile = false -> GuiHost.instance app = Some instance)
    /\ (loadFileAsData F disk presetFile = None -> GuiHost.instance app = Some instance)
    /\ (forall data,
          existsAsFile F disk presetFile = true ->
          loadFileAsData F disk presetFile = Some data ->
          GuiHost.instance app
            = Some (setStateInformation I data
                      (Int.to_int (Z.of_nat (List.length data))) instance)).
Proof.
  intros disk tokens instance error. cbv zeta. unfold GuiHost.initialise.
  pose proof (gui_parseArgs_accepts_with_plugin
                (GuiHost.removeEmptyStrings tokens) Gui.defaultArgs) as Hacc.
  destruct (Gui.parseArgs (GuiHost.removeEmptyStrings tokens) Gui.defaultArgs)
    as [ok parsed]. cbn [fst snd] in *.
  intros Hpath Hexists Hload.
  replace ok with true
    by (rewrite Hacc; destruct (Gui.pluginPath parsed);
        [now contradiction Hpath | reflexivity]).
  cbn [negb]. rewrite Hexists, Hload. cbn [negb GuiHost.returnValue GuiHost.messageBox
                                            GuiHost.instance].
  unfold GuiHost.applyPreset.
  split; [reflexivity|]. split; [reflexivity|]. split; [|split].
  - now intros ->.
  - intros ->. now destruct (existsAsFile F disk _).
  - now intros data -> ->.
Qed.

(** X19. The Save button.  With a file to save to, Save writes the plugin
    state there and never consults the file chooser.  Without one it behaves
    as Save As: when the chooser is closed without a file, nothing is written
    and nothing changes; when a file is chosen, the state is written there
    and, whether or not the write succeeded, that file is the one the next
    Save writes to without asking. *)
Theorem save_asks_for_a_file_only_once :
  forall disk processor c chosen,
    (GuiHost.presetPath c <> mkFile "" ->
     forall other,
       GuiHost.handleSave S E disk processor c other
         = GuiHost.handleSave S E disk processor c chosen
       /\ snd (GuiHost.handleSave S E disk processor c chosen)
          = snd (GuiHost.savePreset S E disk processor (GuiHost.presetPath c)))
    /\ (GuiHost.presetPath c = mkFile "" ->
        GuiHost.handleSave S E disk processor c (mkFile "")
          = (GuiHost.NothingChosen, c, processor, disk))
    /\ (GuiHost.presetPath c = mkFile "" -> chosen <> mkFile "" ->
        let '(result, c', processor', disk') :=
          GuiHost.handleSave S E disk processor c chosen in
        GuiHost.presetPath c' = chosen
        /\ result <> GuiHost.NothingChosen
        /\ disk' = snd (GuiHost.savePreset S E disk processor chosen)
        /\ forall other,
             snd (GuiHost.handleSave S E disk' processor' c' other)
               = snd (GuiHost.savePreset S E disk' processor' chosen)).
Proof.
  intros disk processor c chosen.
  assert (Hfile : forall f : File,
             f <> mkFile "" -> JString.isEmpty (getFullPathName f) = false).
  { intros [path] Hf. destruct path; [now contradiction Hf | reflexivity]. }
  assert (Hwith : forall d p (c0 : GuiHost.HostComponent (Editor := Editor)) other,
             GuiHost.presetPath c0 <> mkFile "" ->
             snd (GuiHost.handleSave S E d p c0 other)
             = snd (GuiHost.savePreset S E d p (GuiHost.presetPath c0))).
  { intros d p c0 other Hc0. unfold GuiHost.handleSave. rewrite (Hfile _ Hc0).
    destruct (GuiHost.savePreset S E d p (GuiHost.presetPath c0)) as [[[|] ?] ?];
      reflexivity. }
  split; [|split].
  - intros Hc other. split; [|now apply Hwith].
    unfold GuiHost.handleSave. now rewrite (Hfile _ Hc).
  - intros Hc. unfold GuiHost.handleSave, GuiHost.handleSaveAs. now rewrite Hc.
  - intros Hc Hchosen.
    set (c' := GuiHost.mkHostComponent (GuiHost.editor c) chosen
                 (GuiHost.componentWidth c) (GuiHost.componentHeight c)).
    assert (Hfirst : GuiHost.handleSave S E disk processor c chosen
                     = match GuiHost.savePreset S E disk processor chosen with
                       | (true, p', d') => (GuiHost.Written, c', p', d')
                       | (false, p', d') =>
                           (GuiHost.SaveFailed "Failed to save preset.", c', p', d')
                       end).
    { unfold GuiHost.handleSave, GuiHost.handleSaveAs.
      rewrite Hc. cbn [getFullPathName JString.isEmpty]. now rewrite (Hfile _ Hchosen). }
    rewrite Hfirst.
    destruct (GuiHost.savePreset S E disk processor chosen) as [[[|] p'] d'];
      cbn [snd]; (split; [reflexivity|]); (split; [discriminate|]);
      (split; [reflexivity|]); intros other;
      now rewrite (Hwith d' p' c' other Hchosen).
Qed.

(** X20. The layout of the interactive host's window.  For every size of
    the component, the editor (or the label) gets the full width and all the
    height above the 40 lowest pixels, the two buttons lie below it and the
    Save button ends where or before the Save As button starts, so no two of
    the three overlap.  From 32 by 40 pixels on, both buttons are 32 pixels
    high, lie inside the component, and differ in width by at most one pixel.
    At the size the component gives itself, a plugin without editor gets a
    label of 640 by 440 pixels, and an editor gets its own width and its own
    height plus 8 pixels. *)
Theorem buttons_lie_below_the_editor :
  forall width height : Z,
    0 <= width -> 0 <= height ->
    let '(save, saveAs, content) := GuiHost.resized width height in
    content = Rect.mk 0 0 width (height - Z.min 40 height)
    /\ Rect.bottomEdge content <= Rect.y save
    /\ Rect.bottomEdge content <= Rect.y saveAs
    /\ Rect.rightEdge save <= Rect.x saveAs
    /\ (32 <= width -> 40 <= height ->
        Rect.h save = 32 /\ Rect.h saveAs = 32
        /\ 0 <= Rect.x save /\ Rect.rightEdge saveAs <= width
        /\ Rect.bottomEdge save <= height /\ Rect.bottomEdge saveAs <= height
        /\ 0 <= Rect.w saveAs - Rect.w save <= 1)
    /\ (forall processor file,
          let c := GuiHost.newHostComponent E processor file in
          (GuiHost.editor c = None ->
           snd (GuiHost.resized (GuiHost.componentWidth c) (GuiHost.componentHeight c))
             = Rect.mk 0 0 640 440)
          /\ (forall e,
                GuiHost.editor c = Some e ->
                0 <= GuiHost.getHeight E e < 2 ^ 31 - 48 ->
                snd (GuiHost.resized (GuiHost.componentWidth c)
                       (GuiHost.componentHeight c))
                  = Rect.mk 0 0 (GuiHost.getWidth E e) (GuiHost.getHeight E e + 8))).
Proof.
  intros width height Hw Hh.
  unfold GuiHost.resized, Rect.removeFromBottom, Rect.removeFromLeft, Rect.reduced,
    Rect.expanded, Rect.rightEdge, Rect.bottomEdge.
  cbn [Rect.x Rect.y Rect.w Rect.h fst snd].
  rewrite !jmax_is_max, !jmin_is_min.
  split; [reflexivity|]. split; [lia|]. split; [lia|].
  split; [Z.to_euclidean_division_equations; lia|]. split.
  - intros Hw32 Hh40. repeat split; Z.to_euclidean_division_equations; lia.
  - intros processor file. unfold GuiHost.newHostComponent.
    cbn [GuiHost.editor GuiHost.componentWidth GuiHost.componentHeight].
    split.
    + intros ->. reflexivity.
    + intros e -> He. cbn [GuiHost.getPreferredWidth GuiHost.getPreferredHeight].
      rewrite to_int_id by (unfold Int.is_int; lia).
      rewrite jmin_is_min. f_equal. lia.
Qed.

End InteractiveSession.

(* ================================================================== *)
(** ** The further properties on the concrete host *)

Example runA_on_silence :
  main Demo.platform Demo.cwd Demo.files DemoGui.silentAudio Demo.plugin Demo.formats
    0 Demo.disk (Demo.argv "/chains/a.json" "/out/result.wav")
  = Exits (mkOutcome 0 [] [presetWarning "/chains/missing.fxp"]
      (Some (mkRenderState 0 [] tt
               [Demo.mkPlugin "gain" [] 0 2 true; Demo.mkPlugin "eq" [] 0 2 true;
                Demo.mkPlugin "reverb" Demo.warm 3 2 true]
               (Demo.mkWavWriter "WAV" 44100 2 16 [])))).
Proof. vm_compute. reflexivity. Qed.

Example interactive_start_with_missing_preset :
  DemoGui.start ["--plugin"; "/chains/eq.vst3"; " "; "--preset"; "/chains/missing.fxp";
                 "--save"; "/chains/new.fxp"]
  = GuiHost.mkApp 0 None (Some (Demo.mkPlugin "eq" [] 0 2 true))
      (Some ("eq.vst3",
             GuiHost.mkHostComponent (Some (400, 300)) (mkFile "/chains/new.fxp") 400 348)).
Proof. vm_compute. reflexivity. Qed.

(** The run on manifest D ends with exit code 5: one of its slots does not
    load. *)
Lemma main_exit_code_witness :
  exists (reader : AudioFormatReader Z unit) slots,
    Exists (failsToLoad Demo.platform Demo.cwd Demo.plugin Demo.formats reader
              (snd (fst (parseArgs (Demo.argv "/chains/d.json" "/out/result.wav")
                           defaultArgs)))) slots.
Proof.
  pose proof (main_exit_code_names_failed_stage Demo.platform Demo.cwd Demo.files
                Demo.audio Demo.plugin Demo.formats 2%nat Demo.disk
                (Demo.argv "/chains/d.json" "/out/result.wav")
                (mkOutcome 5 []
                   [("Failed to load plugin: /chains/notes.txt" ++ newline)%string;
                    ("No plugin types found for /chains/notes.txt" ++ newline)%string]
                   None) eq_refl) as H.
  cbv zeta in H. cbn [exitCode] in H.
  destruct H as [(H1 & _)|(_ & [(H2 & _)|(_ & _ & [(H3 & _)|(reader & _ & H)])])];
    try discriminate.
  destruct H as [(H4 & _)|(slots & _ & [(_ & _ & Hex)|(_ & [(H6 & _)|(H0 & _)])])];
    try discriminate.
  exists reader, slots. exact Hex.
Defined.

(** On the demonstration disk the only reader has 1000 frames. *)
Lemma main_terminates_witness :
  exists fuel0 o,
    forall fuel, (fuel0 <= fuel)%nat ->
      Demo.run fuel (Demo.argv "/chains/a.json" "/out/result.wav") = Exits o.
Proof.
  apply (main_terminates Demo.platform Demo.cwd Demo.files Demo.audio Demo.plugin
           Demo.formats Demo.disk (Demo.argv "/chains/a.json" "/out/result.wav")).
  intros file reader. cbn.
  destruct (String.eqb (getFullPathName file) "/in/voice.wav"); [|discriminate].
  intros [= <-]. cbn. lia.
Defined.

Lemma reachesChain_silence :
  reachesChain Demo.platform Demo.cwd Demo.files DemoGui.silentAudio Demo.disk
    (Demo.argv "/chains/a.json" "/out/result.ogg") Demo.argsA [] DemoGui.silence
    Demo.slotsA.
Proof. repeat split. Defined.

(** Manifest A on an input of no frames, with no iteration allowed. *)
Lemma empty_input_witness :
  main Demo.platform Demo.cwd Demo.files DemoGui.silentAudio Demo.plugin Demo.formats
    0 Demo.disk (Demo.argv "/chains/a.json" "/out/result.ogg")
  = Exits (mkOutcome 0 [] [presetWarning "/chains/missing.fxp"]
      (Some (renderStart DemoGui.silentAudio DemoGui.silence Demo.argsA
               [Demo.mkPlugin "gain" [] 0 2 true; Demo.mkPlugin "eq" [] 0 2 true;
                Demo.mkPlugin "reverb" Demo.warm 3 2 true]
               (Demo.mkWavWriter "WAV" 44100 2 16 [])))).
Proof.
  apply (empty_input_renders_nothing Demo.platform Demo.cwd Demo.files
           DemoGui.silentAudio Demo.plugin Demo.formats 0%nat Demo.disk
           (Demo.argv "/chains/a.json" "/out/result.ogg") Demo.argsA []
           DemoGui.silence Demo.slotsA _ _ _ reachesChain_silence);
    [reflexivity | reflexivity | cbn; lia].
Defined.

(** 1000 frames in blocks of 512, counted by the demonstration writer. *)
Lemma render_writes_every_frame_witness :
  exists st',
    renderLoop Demo.audio Demo.plugin 2 Demo.voice 512 1000 Demo.start = Some st'
    /\ DemoGui.frames (writer st') = 1000.
Proof.
  destruct (render_writes_every_frame_once Demo.audio Demo.plugin Demo.voice
              DemoGui.frames 512 1000 2%nat Demo.start) as (_ & st' & Hrun & _ & Hframes).
  - intros w b n. unfold DemoGui.frames. cbn [writeFromAudioSampleBuffer Demo.audio
                                               Demo.blocks].
    rewrite fold_left_app. reflexivity.
  - lia.
  - lia.
  - reflexivity.
  - vm_compute. lia.
  - exists st'. split; [exact Hrun|]. rewrite Hframes. reflexivity.
Defined.

Lemma reachesChain_B :
  reachesChain Demo.platform Demo.cwd Demo.files Demo.audio Demo.disk
    (Demo.argv "/chains/b.json" "/out/result.wav")
    (mkArgs "/in/voice.wav" "/out/result.wav" "/chains/b.json" 512) [] Demo.voice
    [mkChainSlot "/chains/gain.vst3" "" true].
Proof. repeat split. Defined.

(** Manifest B, whose only slot is bypassed, with and without plugin
    formats. *)
Lemma bypassed_chain_witness :
  main Demo.platform Demo.cwd Demo.files Demo.audio Demo.plugin DemoGui.noFormats
    2 Demo.disk (Demo.argv "/chains/b.json" "/out/result.wav")
  = Demo.run 2 (Demo.argv "/chains/b.json" "/out/result.wav").
Proof.
  apply (bypassed_chain_passes_audio_through Demo.platform Demo.cwd Demo.files
           Demo.audio Demo.plugin Demo.plugin Demo.formats DemoGui.noFormats 2%nat
           Demo.disk (Demo.argv "/chains/b.json" "/out/result.wav") _ _ _ _
           reachesChain_B eq_refl).
Defined.

(** Manifest D: the gain plugin loads, [notes.txt] does not. *)
Lemma first_failing_plugin_witness :
  loadInstances Demo.platform Demo.cwd Demo.files Demo.plugin Demo.formats Demo.disk
    Demo.voice Demo.argsA
    [Demo.gainSlot; mkChainSlot "/chains/notes.txt" "" false; Demo.reverbSlot] [] []
  = inl [("Failed to load plugin: /chains/notes.txt" ++ newline)%string;
         ("No plugin types found for /chains/notes.txt" ++ newline)%string].
Proof.
  destruct (first_failing_plugin_ends_the_run Demo.platform Demo.cwd Demo.files
              Demo.audio Demo.plugin Demo.formats Demo.disk Demo.voice Demo.argsA
              [Demo.gainSlot] (mkChainSlot "/chains/notes.txt" "" false)
              [Demo.reverbSlot] "No plugin types found for /chains/notes.txt")
    as [Hrun _].
  - repeat constructor. intros _. vm_compute. discriminate.
  - reflexivity.
  - reflexivity.
  - exact Hrun.
Defined.

(** Manifest A resolves to four slots, each with a plugin path. *)
Lemma resolved_slots_witness :
  Demo.slotsA <> [] /\ Forall (fun slot => pluginPath slot <> "") Demo.slotsA.
Proof.
  destruct (resolved_slots_have_plugin_paths Demo.platform Demo.cwd Demo.files
              Demo.disk (mkFile "/chains/a.json") "" Demo.slotsA "" eq_refl)
    as (H1 & H2 & _).
  split; assumption.
Defined.

(** A path of two blanks in a manifest of the directory [/chains]. *)
Lemma blank_plugin_path_witness :
  pluginPath (slotOf Demo.platform Demo.cwd Demo.files (mkFile "/chains")
                [("path", VString "  ")]) = "/chains/".
Proof.
  destruct (blank_plugin_path_names_the_manifest_directory Demo.platform Demo.cwd
              Demo.files (mkFile "/chains") [("path", VString "  ")] "  "
              eq_refl ltac:(discriminate) eq_refl eq_refl) as [H _].
  rewrite H. reflexivity.
Defined.

(** The reverb plugin with the state [warm], saved to a new file and
    restored into a fresh instance by both programs. *)
Lemma saved_preset_witness :
  let reverb := Demo.mkPlugin "reverb" Demo.warm 3 2 true in
  let fresh := Demo.mkPlugin "reverb" [] 0 1 true in
  let disk' := ("/chains/new.fxp", Demo.warm) :: Demo.disk in
  GuiHost.applyPreset Demo.files Demo.plugin disk' fresh (mkFile "/chains/new.fxp")
    = (true, Demo.mkPlugin "reverb" Demo.warm 3 1 true)
  /\ applyPreset Demo.platform Demo.cwd Demo.files Demo.plugin disk' fresh
       "/chains/new.fxp"
     = (true, Demo.mkPlugin "reverb" Demo.warm 3 1 true).
Proof.
  intros reverb fresh disk'.
  destruct (saved_preset_is_restored Demo.platform Demo.cwd Demo.files DemoGui.save
              Demo.plugin DemoGui.editors Demo.disk reverb (mkFile "/chains/new.fxp")
              reverb disk' fresh) as [H1 H2].
  - intros d f data d' Hwrite Hdata. cbn in Hwrite.
    destruct data as [|b data]; [now contradiction Hdata|].
    injection Hwrite as <-. cbn. rewrite String.eqb_refl. now split.
  - reflexivity.
  - discriminate.
  - split; [exact H1|]. apply H2; [discriminate | reflexivity].
Defined.

(** The eq plugin started with a preset that is not on the disk. *)
Lemma interactive_preset_witness :
  GuiHost.instance
    (DemoGui.start ["--plugin"; "/chains/eq.vst3"; "--preset"; "/chains/missing.fxp"])
  = Some (Demo.mkPlugin "eq" [] 0 2 true).
Proof.
  destruct (interactive_preset_is_optional Demo.platform Demo.cwd Demo.files
              DemoGui.save Demo.plugin DemoGui.editors Demo.formats 44100 Demo.disk
              ["--plugin"; "/chains/eq.vst3"; "--preset"; "/chains/missing.fxp"]
              (Demo.mkPlugin "eq" [] 0 2 true) "")
    as (_ & _ & Hmissing & _).
  - discriminate.
  - reflexivity.
  - reflexivity.
  - apply Hmissing. reflexivity.
Defined.

(** A component of 640 by 480 pixels. *)
Lemma buttons_lie_below_witness :
  GuiHost.resized 640 480
  = (Rect.mk 12 444 304 32, Rect.mk 324 444 304 32, Rect.mk 0 0 640 440)
  /\ Rect.rightEdge (Rect.mk 12 444 304 32) <= Rect.x (Rect.mk 324 444 304 32).
Proof.
  pose proof (buttons_lie_below_the_editor DemoGui.editors 640 480
                ltac:(lia) ltac:(lia)) as H.
  change (GuiHost.resized 640 480)
    with (Rect.mk 12 444 304 32, Rect.mk 324 444 304 32, Rect.mk 0 0 640 440) in H.
  cbv beta iota in H. destruct H as (_ & _ & _ & Hgap & _).
  split; [reflexivity | exact Hgap].
Defined.

(** Manifest A resolves; a manifest that is a string is invalid. *)
Lemma loadChain_outcomes_witness :
  fst (fst (loadChainData Demo.platform Demo.cwd Demo.files (mkFile "/chains")
              Demo.manifestA [] "")) = true
  /\ loadChainData Demo.platform Demo.cwd Demo.files (mkFile "/chains")
       (VString "plugins") [] "" = (false, [], "Chain JSON is invalid.").
Proof.
  destruct (loadChain_succeeds_exactly_on_a_plugin_list Demo.platform Demo.cwd
              Demo.files (mkFile "/chains") Demo.manifestA [] "") as (_ & _ & Hiff & _).
  destruct (loadChain_succeeds_exactly_on_a_plugin_list Demo.platform Demo.cwd
              Demo.files (mkFile "/chains") (VString "plugins") [] "") as (Hinvalid & _).
  split.
  - apply Hiff. eexists. split; [reflexivity|]. split; discriminate.
  - apply Hinvalid. reflexivity.
Defined.

(** An entry that is a number, and an entry with only a path. *)
Lemma manifest_entry_defaults_witness :
  addSlots Demo.platform Demo.cwd Demo.files (mkFile "/chains")
    [VInt 7; Demo.entry "gain.vst3" []] []
  = addSlots Demo.platform Demo.cwd Demo.files (mkFile "/chains")
      [Demo.entry "gain.vst3" []] []
  /\ presetPath (slotOf Demo.platform Demo.cwd Demo.files (mkFile "/chains")
                   [("path", VString "gain.vst3")]) = ""
  /\ bypass (slotOf Demo.platform Demo.cwd Demo.files (mkFile "/chains")
               [("path", VString "gain.vst3")]) = false.
Proof.
  destruct (manifest_entry_defaults Demo.platform Demo.cwd Demo.files (mkFile "/chains")
              [Demo.entry "gain.vst3" []] []) as (Hskip & _ & Hpreset & Hbypass & _).
  split; [apply Hskip; reflexivity|].
  split; [apply Hpreset; reflexivity | apply Hbypass; reflexivity].
Defined.

(** A command line without [--plugin]. *)
Lemma interactive_start_witness :
  GuiHost.returnValue (DemoGui.start ["--preset"; "/chains/warm.fxp"]) = 2
  /\ DemoGui.start ["--plugin"; "/chains/notes.txt"]
     = GuiHost.mkApp 3 (Some "Plugin file not found.") None None.
Proof.
  destruct (interactive_start_outcomes Demo.platform Demo.cwd Demo.files DemoGui.save
              Demo.plugin DemoGui.editors Demo.formats 44100 Demo.disk
              ["--preset"; "/chains/warm.fxp"]) as (Hiff & _).
  destruct (interactive_start_outcomes Demo.platform Demo.cwd Demo.files DemoGui.save
              Demo.plugin DemoGui.editors Demo.formats 44100 Demo.disk
              ["--plugin"; "/chains/notes.txt"]) as (_ & _ & Hmissing & _).
  split.
  - apply Hiff. reflexivity.
  - apply Hmissing; [discriminate | reflexivity].
Defined.

(** The reverb plugin in a component without a file to save to: Save As
    with [new.fxp], then Save. *)
Lemma save_asks_only_once_witness :
  let reverb := Demo.mkPlugin "reverb" Demo.warm 3 2 true in
  let c := GuiHost.mkHostComponent (Editor := Z * Z) None (mkFile "") 640 480 in
  GuiHost.handleSave DemoGui.save DemoGui.editors Demo.disk reverb c (mkFile "")
    = (GuiHost.NothingChosen, c, reverb, Demo.disk)
  /\ GuiHost.handleSave DemoGui.save DemoGui.editors Demo.disk reverb c
       (mkFile "/chains/new.fxp")
     = (GuiHost.Written,
        GuiHost.mkHostComponent None (mkFile "/chains/new.fxp") 640 480, reverb,
        ("/chains/new.fxp", Demo.warm) :: Demo.disk).
Proof.
  intros reverb c.
  destruct (save_asks_for_a_file_only_once DemoGui.save DemoGui.editors Demo.disk
              reverb c (mkFile "/chains/new.fxp")) as (_ & Hcancel & _).
  split; [apply Hcancel; reflexivity | reflexivity].
Defined.
